(** * ETA Transition Helper: the spreadsheet add-on and the AdWords script

    A shallow embedding of the parts of [spreadsheet/js/utils.js],
    [spreadsheet/js/main.js], [src/utils.js] and
    [src/sync_spreadsheet_helpers.js] that decide the behaviour of the
    bucket index, the read-only gate, the mismatch highlighter, the row
    error marks, the creation validator and the status and label sync.
    The modules [Addon] and [Helpers] add the column data, the parameter
    check and the linking loop of the add-on, and the change tracking, the
    resume index, the customer identifiers and the row labels of the
    script.

    Conventions of the embedding.
    - JavaScript values are [jsval]; the numbers the program handles are
      row, column and entity identifiers, modelled as [Z].
    - A string is a sequence of code units; the embedding covers the code
      units below 256, one [ascii] each.
    - A [throw] of the source is [Throw msg]; a failure raised by the
      runtime itself (a call on [null] or [undefined], a method that a value
      does not have) is [TypeError].
    - Property lookup is own-property lookup: keys are column identifiers
      and hashes, never names inherited from [Object.prototype].
    - Platform services that are not code of the repository ([JSON.parse],
      the AdWords selectors, the [ColumnNames] and [AdStatus] tables of the
      add-on) are parameters. *)

From Stdlib Require Import ZArith Lia Ascii.
From stdpp Require Import base option list gmap strings pretty.

Local Open Scope Z_scope.

(** ** JavaScript values *)

Module Js.

Inductive prim : Type :=
| PUndef
| PNull
| PBool (b : bool)
| PNum (n : Z)
| PStr (s : string).

#[warnings="-register-all"]
Inductive jsval : Type :=
| Prim (p : prim)
| Arr (l : list jsval)
| Obj (kvs : list (string * jsval)).
(* [Obj kvs]: the own enumerable properties in enumeration order, each key
   once. *)

Coercion Prim : prim >-> jsval.

Inductive exn : Type :=
| Thrown (msg : string)
| TypeError.

Inductive result (A : Type) : Type :=
| Ok (a : A)
| Raise (e : exn).

Arguments Ok {A} a.
Arguments Raise {A} e.

Definition Throw {A : Type} (msg : string) : result A := Raise (Thrown msg).

#[global] Instance result_ret : MRet result := fun A a => Ok a.

#[global] Instance result_bind : MBind result := fun A B k r =>
  match r with
  | Ok a => k a
  | Raise e => Raise e
  end.

#[global] Instance prim_eq_dec : EqDecision prim.
Proof. solve_decision. Defined.

(** [a === b] on primitive values. *)
Definition strict_eq (a b : prim) : bool := bool_decide (a = b).

(** The truth value of [if (v)] and [!v]. *)
Definition truthy (v : jsval) : bool :=
  match v with
  | Prim PUndef | Prim PNull => false
  | Prim (PBool b) => b
  | Prim (PNum n) => negb (n =? 0)
  | Prim (PStr s) => negb (bool_decide (s = EmptyString))
  | Arr _ | Obj _ => true
  end.

Definition js_typeof (v : jsval) : string :=
  match v with
  | Prim PUndef => "undefined"
  | Prim PNull => "object"
  | Prim (PBool _) => "boolean"
  | Prim (PNum _) => "number"
  | Prim (PStr _) => "string"
  | Arr _ | Obj _ => "object"
  end.

(** *** Strings *)

Definition charCode (a : ascii) : Z := Z.of_nat (Ascii.nat_of_ascii a).

(** White space of [String.prototype.trim] among the code units below 256:
    TAB, LF, VT, FF, CR, SPACE and NBSP. *)
Definition is_white (a : ascii) : bool :=
  let c := charCode a in
  ((9 <=? c) && (c <=? 13)) || (c =? 32) || (c =? 160).

Fixpoint trim_start (s : string) : string :=
  match s with
  | EmptyString => EmptyString
  | String a s' => if is_white a then trim_start s' else s
  end.

Fixpoint trim_end (s : string) : string :=
  match s with
  | EmptyString => EmptyString
  | String a s' =>
      match trim_end s' with
      | EmptyString => if is_white a then EmptyString else String a EmptyString
      | t => String a t
      end
  end.

Definition trim (s : string) : string := trim_end (trim_start s).

Definition lower_char (a : ascii) : ascii :=
  let c := charCode a in
  if ((65 <=? c) && (c <=? 90))
     || ((192 <=? c) && (c <=? 222) && negb (c =? 215))
  then Ascii.ascii_of_nat (Z.to_nat (c + 32))
  else a.

Fixpoint toLowerCase (s : string) : string :=
  match s with
  | EmptyString => EmptyString
  | String a s' => String (lower_char a) (toLowerCase s')
  end.

Fixpoint starts_with (p s : string) : bool :=
  match p, s with
  | EmptyString, _ => true
  | String a p', String b s' => bool_decide (a = b) && starts_with p' s'
  | String _ _, EmptyString => false
  end.

(** [s.substr(n)]. *)
Fixpoint substr (n : nat) (s : string) : string :=
  match n, s with
  | O, _ => s
  | S n', String _ s' => substr n' s'
  | S _, EmptyString => EmptyString
  end.

(** [s.split(sep)[0]] for a one-character separator. *)
Fixpoint split_head (sep : ascii) (s : string) : string :=
  match s with
  | EmptyString => EmptyString
  | String a s' =>
      if bool_decide (a = sep) then EmptyString else String a (split_head sep s')
  end.

Fixpoint join (sep : string) (l : list string) : string :=
  match l with
  | [] => EmptyString
  | [x] => x
  | x :: l' => x +:+ sep +:+ join sep l'
  end.

Definition prim_to_string (p : prim) : string :=
  match p with
  | PUndef => "undefined"
  | PNull => "null"
  | PBool true => "true"
  | PBool false => "false"
  | PNum n => pretty n
  | PStr s => s
  end.

(** [String(v)], as string concatenation and [Array.prototype.join] apply
    it: an array joins its elements with a comma, [null] and [undefined]
    elements giving the empty string. *)
Fixpoint to_string (v : jsval) : string :=
  match v with
  | Prim p => prim_to_string p
  | Arr l =>
      join ","
        (map (fun x =>
                match x with
                | Prim PUndef | Prim PNull => EmptyString
                | _ => to_string x
                end) l)
  | Obj _ => "[object Object]"
  end.

Definition array_join (sep : string) (l : list jsval) : string :=
  join sep
    (map (fun x =>
            match x with
            | Prim PUndef | Prim PNull => EmptyString
            | _ => to_string x
            end) l).

(** [a[i] = v] on an array: an index past the end extends the array, the
    holes read as [undefined]. *)
Definition array_set (l : list prim) (i : nat) (v : prim) : list prim :=
  if decide (i < length l)%nat then <[i := v]> l
  else l ++ replicate (i - length l) PUndef ++ [v].

(** [a[i]]: [undefined] out of range. *)
Definition array_get (l : list prim) (i : nat) : prim := default PUndef (l !! i).

(** [ToInt32] on an integer. *)
Definition to_int32 (z : Z) : Z := (z + 2 ^ 31) mod 2 ^ 32 - 2 ^ 31.

(** The names that every object inherits from [Object.prototype]: the
    properties of ECMAScript 5, [__proto__] and the legacy accessors, and
    the additions of the Rhino and SpiderMonkey engines. The embedding
    looks a key up among the own keys of an object; at one of these names
    the [in] and the property reads of the source find the inherited
    property instead, and a write to [__proto__] replaces the prototype.
    The statements about arbitrary keys therefore exclude these names. *)
Definition Object_prototype_names : list string :=
  ["constructor"; "toString"; "toLocaleString"; "valueOf"; "hasOwnProperty";
   "isPrototypeOf"; "propertyIsEnumerable"; "__proto__"; "__defineGetter__";
   "__defineSetter__"; "__lookupGetter__"; "__lookupSetter__"; "toSource";
   "watch"; "unwatch"; "__parent__"; "__noSuchMethod__"].

Definition inherited (key : string) : bool :=
  bool_decide (key ∈ Object_prototype_names).

End Js.

Export Js.

(** ** The spreadsheet add-on: [spreadsheet/js/utils.js], [spreadsheet/js/main.js] *)

Module Sheet.

(** [isEmptyString] of the add-on: every falsy value is empty. *)
Definition isEmptyString (str : jsval) : bool :=
  if negb (truthy str) then true
  else
    match str with
    | Prim (PStr s) => bool_decide (trim s = EmptyString)
    | _ => false
    end.

Definition isEmpty (obj : jsval) : bool :=
  match obj with
  | Prim PNull | Prim PUndef => true
  | _ => false
  end.

(** *** The sheet *)

(** Cell values and cell backgrounds by (row, column), both relative to 1,
    and the messages shown to the user. An empty cell reads as the empty
    string. *)
Record sheet : Type := {
  cells : gmap (Z * Z) prim;
  backgrounds : gmap (Z * Z) prim;
  toasts : list string
}.

Definition getValue_at (sh : sheet) (r c : Z) : prim :=
  default (PStr EmptyString) (cells sh !! (r, c)).

Definition setValue_at (sh : sheet) (r c : Z) (v : prim) : sheet :=
  {| cells := <[(r, c) := v]> (cells sh);
     backgrounds := backgrounds sh;
     toasts := toasts sh |}.

Definition setBackground_at (sh : sheet) (r c : Z) (color : prim) : sheet :=
  {| cells := cells sh;
     backgrounds := <[(r, c) := color]> (backgrounds sh);
     toasts := toasts sh |}.

Definition showMessage (message : string) (sh : sheet) : sheet :=
  if truthy (PStr message)
  then {| cells := cells sh;
          backgrounds := backgrounds sh;
          toasts := toasts sh ++ [message] |}
  else sh.

(** The column data of a sheet configuration ([generateColumnData]):
    the ordered names and the index of each name. *)
Record columnData : Type := {
  _order : list string;
  index : gmap string nat
}.

Record sheetConfigT : Type := {
  readOnlyColumns : option (list string);
  columns : columnData;
  firstContentRow : Z
}.

(** The trigger's event: the edited cell, its previous and its new value. *)
Record editEvent : Type := {
  range_row : Z;
  range_column : Z;
  oldValue : prim;
  value : prim
}.

(** The [ColumnNames] and [AdStatus] tables of the add-on. *)
Record ColumnNamesT : Type := {
  staStatus : string;
  etaStatus : string;
  etaId : string;
  errorMessage : string
}.

Record AdStatusT : Type := {
  disabled : string
}.

Section ReadOnly.

Variable ColumnNames : ColumnNamesT.
Variable AdStatus : AdStatusT.

(** [list.indexOf(x) !== -1]. *)
Definition includes (l : list string) (x : prim) : bool :=
  existsb (fun y => strict_eq x (PStr y)) l.

Definition isReadOnly (sh : sheet) (sheetConfig : option sheetConfigT)
    (rowIndex : Z) (columnName : prim) (oldValue : prim) : result bool :=
  match sheetConfig with
  | None =>
      Throw "Cannot detect read only columns. Please pass a valid sheetconfiguration"
  | Some cfg =>
      if match readOnlyColumns cfg with
         | Some l => includes l columnName
         | None => false
         end
      then Ok true
      else if (strict_eq columnName (PStr (staStatus ColumnNames))
               || strict_eq columnName (PStr (etaStatus ColumnNames)))
              && strict_eq oldValue (PStr (disabled AdStatus))
      then Ok true
      else
        match index (columns cfg) !! etaStatus ColumnNames with
        | None => Raise TypeError
        | Some iStatus =>
            if strict_eq (getValue_at sh rowIndex (Z.of_nat iStatus + 1))
                 (PStr (disabled AdStatus))
            then Ok true
            else
              match index (columns cfg) !! etaId ColumnNames with
              | None => Raise TypeError
              | Some iId =>
                  Ok (negb (isEmptyString
                              (getValue_at sh rowIndex (Z.of_nat iId + 1)))
                      && negb (strict_eq columnName
                                 (PStr (etaStatus ColumnNames)))
                      && negb (strict_eq columnName
                                 (PStr (staStatus ColumnNames))))
              end
        end
  end.

Definition revertEdit (rowIndex colIndex : Z) (columnName : prim)
    (oldValue : prim) (sh : sheet) : sheet :=
  if isEmptyString oldValue
  then showMessage "Failed to revert to old value - previous value not found." sh
  else
    showMessage
      (prim_to_string columnName +:+ " is read-only (and may populate automatically).")
      (setValue_at sh rowIndex colIndex oldValue).

(** [sheetConfig.columns._order[colIndex - 1]]. *)
Definition column_at (sheetConfig : sheetConfigT) (colIndex : Z) : prim :=
  if colIndex <? 1 then PUndef
  else
    match _order (columns sheetConfig) !! Z.to_nat (colIndex - 1) with
    | Some name => PStr name
    | None => PUndef
    end.

(** [onCellEdit]. What follows the read-only gate in the source (staging a
    row that carries an error, propagating a linked cell, highlighting
    mismatches) is the parameter [acceptEdit]. *)
Definition onCellEdit (acceptEdit : sheet -> result unit * sheet)
    (sheetConfig : sheetConfigT) (event : editEvent) (sh : sheet)
    : result unit * sheet :=
  let rowIndex := range_row event in
  if rowIndex <? firstContentRow sheetConfig then (Ok tt, sh)
  else
    let colIndex := range_column event in
    let columnName := column_at sheetConfig colIndex in
    match isReadOnly sh (Some sheetConfig) rowIndex columnName (oldValue event) with
    | Raise e => (Raise e, sh)
    | Ok true =>
        (Ok tt, revertEdit rowIndex colIndex columnName (oldValue event) sh)
    | Ok false => acceptEdit sh
    end.

End ReadOnly.

(** *** [SpreadsheetRow] of the add-on *)

Record SpreadsheetRow : Type := {
  rowIndex_ : Z;
  values_ : list prim;
  columnNamesToIndices_ : gmap string nat
}.

Definition getColumnIndex_ (row : SpreadsheetRow) (columnName : string)
    : result nat :=
  match columnNamesToIndices_ row !! columnName with
  | None => Throw ("Column `" +:+ columnName +:+ "` does not exist.")
  | Some i => Ok i
  end.

Definition getRowIndex (row : SpreadsheetRow) : Z := rowIndex_ row.

Definition quote : string := String (Ascii.ascii_of_nat 34) EmptyString.

Section Parsing.

(** [JSON.parse]: [None] when it throws. *)
Variable JSON_parse : string -> option jsval.

Definition getArray (row : SpreadsheetRow) (columnName : string)
    : result (list jsval) :=
  columnIndex ← getColumnIndex_ row columnName;
  let cell := array_get (values_ row) columnIndex in
  if isEmptyString cell then Ok []
  else
    values ←
      match JSON_parse (prim_to_string cell) with
      | Some v => Ok v
      | None =>
          let valueWithQuotes := quote +:+ prim_to_string cell +:+ quote in
          match JSON_parse valueWithQuotes with
          | Some v => Ok v
          | None =>
              Throw ("Incorrect JSON value stored in `" +:+ columnName
                     +:+ "` column.")
          end
      end;
    match values with
    | Arr l => Ok l
    | Prim (PStr s) => Ok [Prim (PStr s)]
    | _ =>
        Throw ("Incorrect array value stored in `" +:+ columnName
               +:+ "` column.")
    end.

Definition getDomain (url : jsval) : result string :=
  if isEmptyString url
     || negb (bool_decide (js_typeof url = "string"))
  then Throw "Invalid `url` parameter."
  else
    match url with
    | Prim (PStr u) =>
        let httpPrefix := "http://" in
        let httpsPrefix := "https://" in
        let wwwPrefix := "www." in
        let strippedUrl := u in
        let strippedUrl :=
          if starts_with httpPrefix strippedUrl
          then substr (String.length httpPrefix) strippedUrl
          else strippedUrl in
        let strippedUrl :=
          if starts_with httpsPrefix strippedUrl
          then substr (String.length httpsPrefix) strippedUrl
          else strippedUrl in
        let strippedUrl :=
          if starts_with wwwPrefix strippedUrl
          then substr (String.length wwwPrefix) strippedUrl
          else strippedUrl in
        let domain := split_head "/"%char strippedUrl in
        Ok (if negb (isEmptyString (PStr domain))
            then toLowerCase domain
            else domain)
    | _ => Throw "Invalid `url` parameter."
    end.

(** [urls[0]]. *)
Definition first_element (urls : list jsval) : jsval :=
  match urls with
  | [] => Prim PUndef
  | u :: _ => u
  end.

(** The first two statements of the callback of [columnNames.every]:
    [getDomain(spreadsheetRow.getArray(columnName)[0])]. *)
Definition column_domain (row : SpreadsheetRow) (columnName : string)
    : result string :=
  urls ← getArray row columnName;
  getDomain (first_element urls).

(** The callback of [columnNames.every] in [highlightMismatchFields], with
    the two variables it closes over. *)
Fixpoint every_domain_matches (row : SpreadsheetRow) (columnNames : list string)
    (init : bool) (previousDomain : prim) : result bool :=
  match columnNames with
  | [] => Ok true
  | columnName :: rest =>
      domain ← column_domain row columnName;
      if init then every_domain_matches row rest false (PStr domain)
      else if negb (strict_eq previousDomain (PStr domain)) then Ok false
      else every_domain_matches row rest false (PStr domain)
  end.

(** The [forEach] that sets the background of every compared cell. *)
Fixpoint set_backgrounds (row : SpreadsheetRow) (columnNames : list string)
    (highlightColor : prim) (sh : sheet) : result unit * sheet :=
  match columnNames with
  | [] => (Ok tt, sh)
  | columnName :: rest =>
      match getColumnIndex_ row columnName with
      | Raise e => (Raise e, sh)
      | Ok columnIndex =>
          set_backgrounds row rest highlightColor
            (setBackground_at sh (rowIndex_ row) (Z.of_nat columnIndex + 1)
               highlightColor)
      end
  end.

Definition highlightMismatchFields (spreadsheetRow : SpreadsheetRow)
    (columnNames : list string) (color : prim) (sh : sheet)
    : result unit * sheet :=
  match every_domain_matches spreadsheetRow columnNames true PNull with
  | Raise e => (Raise e, sh)
  | Ok allMatch =>
      let highlightColor := if negb allMatch then color else PNull in
      set_backgrounds spreadsheetRow columnNames highlightColor sh
  end.

End Parsing.

(** *** [MatchingColumnsBucket] *)

(** What a bucket key can hold: nothing that was ever assigned is a missing
    key; [undefined] and [null] are assigned by [transferBucket]. *)
Inductive slot : Type :=
| SUndef
| SNull
| SList (l : list prim).

(** [matchingColumnsBuckets_]: column key, then hash, to bucket. *)
Abbreviation buckets := (gmap string (gmap Z slot)).

Fixpoint hash_loop (str : string) (hash : Z) : Z :=
  match str with
  | EmptyString => hash
  | String chr rest =>
      hash_loop rest (to_int32 (to_int32 (Z.shiftl hash 5) - hash + charCode chr))
  end.

(** A value that is not a string has no [length]: the loop does not run. *)
Definition hashCode_ (str : prim) : Z :=
  if isEmptyString str then 0
  else
    match str with
    | PStr s => hash_loop s 0
    | _ => 0
    end.

(** The property key a value is used as. *)
Definition to_key (k : prim) : string := prim_to_string k.

Definition addValue (columnKey bucketKey value : prim) (st : buckets)
    : result buckets :=
  if isEmptyString columnKey || isEmptyString bucketKey || isEmptyString value
  then Throw "columnKey, bucketKey, and value must have valid values."
  else
    (* If top level columnKey doesn't exist, create it. *)
    let st :=
      match st !! to_key columnKey with
      | Some _ => st
      | None => <[to_key columnKey := ∅]> st
      end in
    let bucketHash := hashCode_ bucketKey in
    match st !! to_key columnKey with
    | None => Raise TypeError
    | Some column =>
        (* If bucket doesn't exist, create it. *)
        let column :=
          match column !! bucketHash with
          | Some _ => column
          | None => <[bucketHash := SList []]> column
          end in
        (* Append value to bucket. *)
        match column !! bucketHash with
        | Some (SList l) =>
            Ok (<[to_key columnKey :=
                    <[bucketHash := SList (l ++ [value])]> column]> st)
        | Some SUndef | Some SNull | None => Raise TypeError
        end
    end.

Definition getValue (columnKey bucketKey : prim) (st : buckets) : result slot :=
  if isEmptyString columnKey || isEmptyString bucketKey
  then Throw "columnKey, and bucketKey must have valid values."
  else
    match st !! to_key columnKey with
    | Some column => Ok (default SUndef (column !! hashCode_ bucketKey))
    | None => Ok SNull
    end.

Definition transferBucket (columnKey currentBucketKey newBucketKey : prim)
    (st : buckets) : result buckets :=
  if isEmptyString columnKey || isEmptyString currentBucketKey
     || isEmptyString newBucketKey
  then Throw "columnKey, bucketKey, and newBucketKey must have valid values."
  else
    valuesToTransfer ← getValue columnKey currentBucketKey st;
    valuesInNewBucket ← getValue columnKey newBucketKey st;
    valuesToTransfer ←
      match valuesInNewBucket with
      | SList inNew =>
          match valuesToTransfer with
          | SList toTransfer => Ok (SList (toTransfer ++ inNew))
          | SUndef | SNull => Raise TypeError
          end
      | SUndef | SNull => Ok valuesToTransfer
      end;
    let currentBucketHash := hashCode_ currentBucketKey in
    let newBucketHash := hashCode_ newBucketKey in
    match st !! to_key columnKey with
    | None => Raise TypeError
    | Some column =>
        Ok (<[to_key columnKey :=
                <[currentBucketHash := SNull]>
                  (<[newBucketHash := valuesToTransfer]> column)]> st)
    end.

Definition clear (st : buckets) : buckets := ∅.

End Sheet.

(** ** The AdWords script: [src/utils.js], [src/sync_spreadsheet_helpers.js] *)

Module Script.

Definition isString (str : jsval) : bool :=
  match str with
  | Prim (PStr _) => true
  | _ => false
  end.

(** [isEmptyString] of the script: only [null] and [undefined] are empty
    among the values that are not strings. *)
Definition isEmptyString (str : jsval) : bool :=
  match str with
  | Prim PNull | Prim PUndef => true
  | Prim (PStr s) => bool_decide (trim s = EmptyString)
  | _ => false
  end.

Definition isEmpty (obj : jsval) : bool :=
  match obj with
  | Prim PNull | Prim PUndef => true
  | _ => false
  end.

(** [isObject]: a falsy value, and a value whose class is not Object (a
    primitive, an array), is no object; a plain object, as [JSON.parse]
    builds them, passes the constructor test and owns every key. *)
Definition isObject (obj : jsval) : bool :=
  match obj with
  | Obj _ => true
  | Prim _ | Arr _ => false
  end.

Record paramsResult : Type := {
  success : bool;
  message : string
}.

(** [valueTypes.indexOf(ty) !== -1]. *)
Definition type_listed (valueTypes : list jsval) (ty : string) : bool :=
  existsb (fun t =>
             match t with
             | Prim (PStr s) => bool_decide (s = ty)
             | _ => false
             end) valueTypes.

(** [obj.hasOwnProperty]: the method of [Object.prototype], unless the
    object owns a key of that name, whose value (never a function in a
    parsed object) cannot be called. *)
Definition shadows_hasOwnProperty (kvs : list (string * jsval)) : bool :=
  existsb (fun kv => bool_decide (kv.1 = "hasOwnProperty")) kvs.

(** The [for (key in obj)] loop of [isValidParamsObject]: the message of the
    first value of a type that is not listed, or the number of keys. *)
Fixpoint check_keys (kvs : list (string * jsval)) (valueTypes : list jsval)
    (keyCount : nat) : string + nat :=
  match kvs with
  | [] => inr keyCount
  | (key, value) :: rest =>
      if negb (type_listed valueTypes (js_typeof value))
      then inl ("key `" +:+ key +:+ "` has an invalid type `"
                +:+ js_typeof value +:+ "`")
      else check_keys rest valueTypes (S keyCount)
  end.

Definition isValidParamsObject (obj : jsval) (valueTypes : jsval)
    (emptyIsInvalid : bool) : result paramsResult :=
  if negb emptyIsInvalid && (isEmpty obj || isEmptyString obj)
  then Ok {| success := true; message := EmptyString |}
  else
    match obj with
    | Prim PNull => Ok {| success := false; message := "params is null" |}
    | Prim PUndef => Ok {| success := false; message := "params is undefined" |}
    | _ =>
        if negb (isObject obj)
        then Ok {| success := false; message := "params is not an object" |}
        else
          match valueTypes, obj with
          | Arr types, Obj kvs =>
              if shadows_hasOwnProperty kvs then Raise TypeError
              else
                match check_keys kvs types 0 with
                | inl msg => Ok {| success := false; message := msg |}
                | inr keyCount =>
                    if emptyIsInvalid && bool_decide (keyCount = 0%nat)
                    then Ok {| success := false; message := "params is empty" |}
                    else Ok {| success := true; message := EmptyString |}
                end
          | _, _ =>
              Ok {| success := false;
                    message := "valueTypes is not a valid array" |}
          end
    end.

(** *** Validation of a row parsed for creation *)

(** What [parseETA] returns: the two identifiers are numbers, the two URL
    fields are arrays ([getArray]), the text fields are strings
    ([getString]) and the custom parameters are [null] or what
    [JSON.parse] gave. *)
Record etaObjT : Type := {
  campaignId : Z;
  adGroupId : Z;
  finalURLs : list jsval;
  headline1 : string;
  headline2 : string;
  description : string;
  path1 : string;
  path2 : string;
  mobileFinalURLs : list jsval;
  trackingTemplate : string;
  customParameters : jsval
}.

(** The returned object; [ad_created] is its [ad], which the validator
    leaves [null]. *)
Record creationResult : Type := {
  ad_created : option nat;
  errors : list string
}.

Definition err_finalUrl_missing : string :=
  "Failed to create ETA: finalUrl is missing. [Required]".
Definition err_finalUrl_many : string :=
  "Failed to create ETA: finalUrl supports only a single URL".
Definition err_headline1 : string :=
  "Failed to create ETA: headline1 is missing. [Required]".
Definition err_headline2 : string :=
  "Failed to create ETA: headline2 is missing. [Required]".
Definition err_description : string :=
  "Failed to create ETA: description is missing. [Required]".
Definition err_path1 : string :=
  "Failed to create ETA: path1 is missing. Setting path2 requires path1 to be set".
Definition err_mobile : string :=
  "Failed to create ETA: mobileFinalURL supports only a single URL".
Definition err_customParameters : string :=
  "Failed to create ETA: customParameters is not a valid parameters object".

(** [if (cond) errors.push(msg)]. *)
Definition push_if (cond : bool) (msg : string) (errs : list string)
    : list string :=
  if cond then errs ++ [msg] else errs.

Definition isValidForETACreation (etaObj : etaObjT)
    : result creationResult :=
  let errs := [] in
  let errs :=
    push_if (negb (truthy (Arr (finalURLs etaObj)))
             || (length (finalURLs etaObj) <? 1)%nat)
      err_finalUrl_missing errs in
  let errs :=
    push_if (truthy (Arr (finalURLs etaObj))
             && (1 <? length (finalURLs etaObj))%nat)
      err_finalUrl_many errs in
  let errs :=
    push_if (negb (truthy (PStr (headline1 etaObj)))) err_headline1 errs in
  let errs :=
    push_if (negb (truthy (PStr (headline2 etaObj)))) err_headline2 errs in
  let errs :=
    push_if (negb (truthy (PStr (description etaObj)))) err_description errs in
  let errs :=
    push_if (truthy (PStr (path2 etaObj)) && negb (truthy (PStr (path1 etaObj))))
      err_path1 errs in
  let errs :=
    push_if (truthy (Arr (mobileFinalURLs etaObj))
             && (1 <? length (mobileFinalURLs etaObj))%nat)
      err_mobile errs in
  params ← isValidParamsObject (customParameters etaObj)
             (Arr [Prim (PStr "string")]) false;
  let errs := push_if (negb (success params)) err_customParameters errs in
  Ok {| ad_created := None; errors := errs |}.

(** *** [SpreadsheetRow] of the script *)

(** The part of the spreadsheet a row writes to: the background of each
    row range, the cell values by (row, column), and the log. *)
Record world : Type := {
  rowBackground : gmap Z prim;
  cellValue : gmap (Z * Z) prim;
  logger : list string
}.

Record SpreadsheetRow : Type := {
  rowIndex_ : Z;
  columnNamesToIndices_ : gmap string nat;
  hasErrors_ : bool;
  values_ : list prim
}.

Definition rowState : Type := SpreadsheetRow * world.

(** A method of a row: its result, and the row and the sheet it leaves,
    also when it throws. *)
Definition rowM (A : Type) : Type := rowState -> result A * rowState.

#[global] Instance rowM_ret : MRet rowM := fun A a st => (Ok a, st).

#[global] Instance rowM_bind : MBind rowM := fun A B k m st =>
  match m st with
  | (Ok a, st') => k a st'
  | (Raise e, st') => (Raise e, st')
  end.

Definition throwM {A : Type} (msg : string) : rowM A :=
  fun st => (Throw msg, st).

Definition nl : string := String (Ascii.ascii_of_nat 10) EmptyString.

Section Row.

(** [CONFIG.debug]. *)
Variable CONFIG_debug : bool.

Definition print (msg : string) : rowM unit := fun st =>
  if CONFIG_debug
  then (Ok tt, (st.1, {| rowBackground := rowBackground st.2;
                         cellValue := cellValue st.2;
                         logger := logger st.2 ++ [msg] |}))
  else (Ok tt, st).

(** [this.range_.setBackground(color)]. *)
Definition setBackground (color : prim) : rowM unit := fun st =>
  (Ok tt, (st.1, {| rowBackground := <[rowIndex_ st.1 := color]> (rowBackground st.2);
                    cellValue := cellValue st.2;
                    logger := logger st.2 |})).

Definition getColumnIndex_ (columnName : string) : rowM nat := fun st =>
  match columnNamesToIndices_ st.1 !! columnName with
  | None => (Throw ("Column " +:+ Sheet.quote +:+ columnName +:+ Sheet.quote
                    +:+ " does not exist."), st)
  | Some i => (Ok i, st)
  end.

(** [this.range_.getCell(1, columnIndex + 1).setValue(value)]. *)
Definition range_setValue (columnIndex : nat) (value : prim) : rowM unit :=
  fun st =>
    (Ok tt,
     (st.1,
      {| rowBackground := rowBackground st.2;
         cellValue :=
           <[(rowIndex_ st.1, Z.of_nat columnIndex + 1) := value]> (cellValue st.2);
         logger := logger st.2 |})).

(** [this.values_[columnIndex] = value]. *)
Definition values_set (columnIndex : nat) (value : prim) : rowM unit :=
  fun st =>
    (Ok tt,
     ({| rowIndex_ := rowIndex_ st.1;
         columnNamesToIndices_ := columnNamesToIndices_ st.1;
         hasErrors_ := hasErrors_ st.1;
         values_ := array_set (values_ st.1) columnIndex value |}, st.2)).

(** [this.values_[columnIndex]]. *)
Definition values_get (columnIndex : nat) : rowM prim :=
  fun st => (Ok (array_get (values_ st.1) columnIndex), st).

Definition set (columnName : string) (value : prim) : rowM unit :=
  columnIndex ← getColumnIndex_ columnName;
  _ ← range_setValue columnIndex value;
  values_set columnIndex value.

Definition get (columnName : string) : rowM prim :=
  columnIndex ← getColumnIndex_ columnName;
  values_get columnIndex.

Definition hasErrors (row : SpreadsheetRow) : bool := hasErrors_ row.

Definition set_hasErrors_ (b : bool) : rowM unit := fun st =>
  (Ok tt,
   ({| rowIndex_ := rowIndex_ st.1;
       columnNamesToIndices_ := columnNamesToIndices_ st.1;
       hasErrors_ := b;
       values_ := values_ st.1 |}, st.2)).

Definition markAsError (messages : jsval) : rowM unit :=
  if isEmpty messages || isEmptyString messages
  then throwM "Empty `messages` parameter provided. A non-empty message must be provided."
  else
    _ ← setBackground (PStr "red");
    let messages :=
      match messages with
      | Arr l => array_join (nl +:+ "- ") l
      | _ => to_string messages
      end in
    let messages := "- " +:+ messages +:+ nl in
    current ← get "errorMessage";
    _ ← set "errorMessage" (PStr (prim_to_string current +:+ messages));
    _ ← print messages;
    set_hasErrors_ true.

Definition markAsResolved : rowM unit :=
  _ ← setBackground PNull;
  set "errorMessage" (PStr EmptyString).

Definition getRowIndex (row : SpreadsheetRow) : Z := rowIndex_ row.

(** [Ad.statuses]. *)
Definition ENABLED : string := "enabled".
Definition PAUSED : string := "paused".
Definition DISABLED : string := "disabled".

Definition isSupportedStatus (status : prim) : bool :=
  strict_eq status (PStr ENABLED) || strict_eq status (PStr PAUSED).

Definition validateValues_ : rowM unit :=
  staStatusValue ← get "staStatus";
  _ ← (if negb (isSupportedStatus staStatusValue)
       then markAsError (PStr ("Unsuported STA status with value of '"
                               +:+ prim_to_string staStatusValue +:+ "'."))
       else mret tt);
  etaStatusValue ← get "etaStatus";
  if negb (isSupportedStatus etaStatusValue)
  then markAsError (PStr ("Unsuported ETA status with value of '"
                          +:+ prim_to_string etaStatusValue +:+ "'."))
  else mret tt.

(** The constructor, for the values of a row, the index of the row in the
    sheet and the column mapping. *)
Definition new_SpreadsheetRow (values : list prim) (rowIndex : Z)
    (columnNamesToIndices : gmap string nat) (w : world)
    : result unit * rowState :=
  let this := {| rowIndex_ := rowIndex;
                 columnNamesToIndices_ := columnNamesToIndices;
                 hasErrors_ := false;
                 values_ := values |} in
  (* [columnNamesToIndices.hasOwnProperty('errorMessage')]: the method of
     [Object.prototype], unless the mapping owns a key of that name, whose
     value, an index, cannot be called. *)
  if bool_decide (is_Some (columnNamesToIndices !! "hasOwnProperty"))
  then (Raise TypeError, (this, w))
  else
    match columnNamesToIndices !! "errorMessage" with
    | None =>
        (Throw "`errorMessage` is a required attribute for `columnNamesToIndices` in order to be able to properly identify where to write error messages in a spreadsheet row",
         (this, w))
    | Some _ => (markAsResolved ≫= fun _ => validateValues_) (this, w)
    end.

End Row.

(** *** The platform and [Ad] *)

(** An ad of the platform ([AdWordsApp.Ad]): [isEnabled()] and [isPaused()]
    read [adState]; [enable()] and [pause()] throw when [rejects] is set. *)
Inductive adStateT : Type :=
| AdEnabled
| AdPaused
| AdRemoved.

Record AdWordsAd : Type := {
  getId : Z;
  adState : adStateT;
  labelNames : list string;
  rejects : bool
}.

Inductive mutation : Type :=
| Enable (h : nat)
| Pause (h : nat).

(** The platform: its ads by handle, the selector
    [AdWordsApp.ads().withIds([[adGroupId, id]])], and the mutations that
    were carried out, oldest first. *)
Record platform : Type := {
  ads : gmap nat AdWordsAd;
  withIds : prim -> prim -> option nat;
  mutations : list mutation
}.

Definition isEnabled (a : AdWordsAd) : bool :=
  match adState a with AdEnabled => true | _ => false end.

Definition isPaused (a : AdWordsAd) : bool :=
  match adState a with AdPaused => true | _ => false end.

Definition set_adState (h : nat) (s : adStateT) (m : mutation) (p : platform)
    : platform :=
  {| ads := alter (fun a => {| getId := getId a; adState := s;
                               labelNames := labelNames a;
                               rejects := rejects a |}) h (ads p);
     withIds := withIds p;
     mutations := mutations p ++ [m] |}.

(** [ad.enable()] and [ad.pause()]: [None] when the call throws. *)
Definition enable (h : nat) (p : platform) : option platform :=
  match ads p !! h with
  | Some a => if rejects a then None else Some (set_adState h AdEnabled (Enable h) p)
  | None => None
  end.

Definition pause (h : nat) (p : platform) : option platform :=
  match ads p !! h with
  | Some a => if rejects a then None else Some (set_adState h AdPaused (Pause h) p)
  | None => None
  end.

(** The fields of [this.row] that the sync reads. *)
Record adRow : Type := {
  row_status : prim;
  row_adGroupId : prim;
  row_id : prim;
  row_labels : prim
}.

(** [this.ad] is [null] or refers to an ad of the platform. *)
Record Ad : Type := {
  row : adRow;
  ad : option nat
}.

Definition hasAdWordsAppAd (this : Ad) : bool :=
  match ad this with Some _ => true | None => false end.

Definition getStatus (this : Ad) (p : platform) : result prim :=
  match ad this with
  | Some h =>
      match ads p !! h with
      | None => Raise TypeError
      | Some a =>
          Ok (PStr (if 0 <? getId a
                    then if isEnabled a then ENABLED
                         else if isPaused a then PAUSED
                         else EmptyString
                    else EmptyString))
      end
  | None =>
      if negb (isEmptyString (row_status (row this)))
      then Ok (row_status (row this))
      else Throw "Invalid ad object."
  end.

Definition getAd (this : Ad) (p : platform) : result (bool * Ad) :=
  if isEmptyString (row_adGroupId (row this)) || isEmptyString (row_id (row this))
  then Throw "Invalid Ad instance."
  else
    match withIds p (row_adGroupId (row this)) (row_id (row this)) with
    | Some h => Ok (true, {| row := row this; ad := Some h |})
    | None => Ok (false, this)
    end.

(** The [try] block of [syncStatus]: whatever is thrown inside gives
    [false]. *)
Definition syncStatus_try (normalizedStatus : string) (this : Ad)
    (p : platform) : bool * platform :=
  match ad this with
  | None => (false, p)
  | Some h =>
      match ads p !! h with
      | None => (false, p)
      | Some a =>
          if getId a <? 0 then (true, p)
          else if bool_decide (normalizedStatus = ENABLED)
          then match enable h p with
               | Some p' => (true, p')
               | None => (false, p)
               end
          else if bool_decide (normalizedStatus = PAUSED)
          then match pause h p with
               | Some p' => (true, p')
               | None => (false, p)
               end
          else if bool_decide (normalizedStatus = EmptyString)
          then match pause h p with
               | Some p' => (true, p')
               | None => (false, p)
               end
          else (false, p)
      end
  end.

Definition syncStatus (status : jsval) (this : Ad) (p : platform)
    : result (bool * Ad * platform) :=
  if isEmptyString status then Throw "Incorrect status parameter."
  else
    match status with
    | Prim (PStr s) =>
        let normalizedStatus := toLowerCase (trim s) in
        current ← getStatus this p;
        if strict_eq current (PStr normalizedStatus) then Ok (true, this, p)
        else
          found ←
            (if negb (hasAdWordsAppAd this) then getAd this p
             else Ok (true, this));
          let '(success, this) := found in
          if negb success then Ok (false, this, p)
          else
            let '(ok, p) := syncStatus_try normalizedStatus this p in
            Ok (ok, this, p)
    | _ => Raise TypeError
    end.

Section Labels.

(** [JSON.parse]: [None] when it throws. *)
Variable JSON_parse : string -> option jsval.

Definition getLabels (this : Ad) (p : platform) : result jsval :=
  match ad this with
  | Some h =>
      match ads p !! h with
      | None => Raise TypeError
      | Some a =>
          Ok (Arr (if 0 <? getId a
                   then map (fun n => Prim (PStr n)) (labelNames a)
                   else []))
      end
  | None =>
      match row_labels (row this) with
      | PStr labels =>
          if isEmpty (PStr labels) || bool_decide (labels = "--")
          then Ok (Arr [])
          else
            match JSON_parse labels with
            | Some v => Ok v
            | None => Throw "Invalid JSON string stored in Ad.labels"
            end
      | _ => Throw "Invalid ad object"
      end
  end.

Record labelDiff : Type := {
  add : list string;
  remove : list string;
  hasDiff : bool
}.

(** [labels.indexOf(name) !== -1] for a string [name]. *)
Definition has_label (labels : list jsval) (name : string) : bool :=
  existsb (fun x =>
             match x with
             | Prim (PStr y) => bool_decide (y = name)
             | _ => false
             end) labels.

(** The first [forEach] of [diffLabels_]: [trim] is a method of strings
    only. *)
Fixpoint diff_add (newLabelNames currentLabelNames : list jsval)
    (diff : labelDiff) : result labelDiff :=
  match newLabelNames with
  | [] => Ok diff
  | Prim (PStr newLabelName) :: rest =>
      let newLabelName := trim newLabelName in
      diff_add rest currentLabelNames
        (if negb (has_label currentLabelNames newLabelName)
         then {| add := add diff ++ [newLabelName];
                 remove := remove diff;
                 hasDiff := true |}
         else diff)
  | _ :: _ => Raise TypeError
  end.

(** The second [forEach] of [diffLabels_]. *)
Fixpoint diff_remove (currentLabelNames newLabelNames : list jsval)
    (diff : labelDiff) : result labelDiff :=
  match currentLabelNames with
  | [] => Ok diff
  | Prim (PStr currentLabelName) :: rest =>
      let currentLabelName := trim currentLabelName in
      diff_remove rest newLabelNames
        (if negb (has_label newLabelNames currentLabelName)
         then {| add := add diff;
                 remove := remove diff ++ [currentLabelName];
                 hasDiff := true |}
         else diff)
  | _ :: _ => Raise TypeError
  end.

(** [diffLabels_]. A value that [getLabels] returned and that is not an
    array has no [forEach]: the second loop cannot start. *)
Definition diffLabels_ (newLabelNames : jsval) (this : Ad) (p : platform)
    : result labelDiff :=
  match newLabelNames with
  | Arr news =>
      let diff := {| add := []; remove := []; hasDiff := false |} in
      currentLabelNames ← getLabels this p;
      match currentLabelNames with
      | Arr current =>
          diff ← diff_add news current diff;
          diff_remove current news diff
      | _ => Raise TypeError
      end
  | _ => Throw "Incorrect `newLabelNames` parameter."
  end.

End Labels.

End Script.

(** ** More of the add-on: [spreadsheet/js/utils.js] *)

Module Addon.

(** *** Column data *)

(** What a key of the object that [generateColumnData] returns holds: the
    array of names under [_order], a number under [_lastIndex], and the
    index and the placeholder of a column under its name. *)
Inductive columnEntry : Type :=
| EOrder (columns : list jsval)
| EColumn (index : nat) (placeholder : string)
| ELastIndex (n : Z).

(** The [for] loop of [generateColumnData], from index [i] on. *)
Fixpoint fill_columns (columns : list jsval) (i : nat)
    (result : gmap string columnEntry) : gmap string columnEntry :=
  match columns with
  | [] => result
  | column :: rest =>
      fill_columns rest (S i)
        (<[to_string column :=
             EColumn i ("[" +:+ to_string column +:+ "]")]> result)
  end.

Definition generateColumnData (columns : jsval) : result (gmap string columnEntry) :=
  match columns with
  | Arr l =>
      let result := {[ "_order" := EOrder l ]} in
      let result := fill_columns l 0 result in
      (* Store the last column index for reference. *)
      Ok (<["_lastIndex" := ELastIndex (Z.of_nat (length l) - 1)]> result)
  | _ => Throw "Columns must be a valid Array"
  end.

(** [columns[key].index + 1]; [None] is the number NaN, which the sum is
    when the key holds no column. *)
Definition index_plus_one (e : columnEntry) : option Z :=
  match e with
  | EColumn i _ => Some (Z.of_nat i + 1)
  | EOrder _ | ELastIndex _ => None
  end.

Definition getIndicesFromColumns (columns : gmap string columnEntry)
    (keys : list string) : list (option Z) :=
  foldl (fun values key =>
           match columns !! key with
           | Some e => values ++ [index_plus_one e]
           | None => values
           end) [] keys.

(** *** The parameter check of the add-on *)

Definition isObject (obj : jsval) : bool :=
  match obj with
  | Obj _ => true
  | Prim _ | Arr _ => false
  end.

Record paramsResult : Type := {
  success : bool;
  error : string
}.

(** [isValidParamsObject] of the add-on: the copy of the script without its
    first test. *)
Definition isValidParamsObject (obj : jsval) (valueTypes : jsval)
    (emptyIsInvalid : bool) : result paramsResult :=
  match obj with
  | Prim PNull => Ok {| success := false; error := "params is null" |}
  | Prim PUndef => Ok {| success := false; error := "params is undefined" |}
  | _ =>
      if negb (isObject obj)
      then Ok {| success := false; error := "params is not an object" |}
      else
        match valueTypes, obj with
        | Arr types, Obj kvs =>
            if Script.shadows_hasOwnProperty kvs then Raise TypeError
            else
              match Script.check_keys kvs types 0 with
              | inl msg => Ok {| success := false; error := msg |}
              | inr keyCount =>
                  if emptyIsInvalid && bool_decide (keyCount = 0%nat)
                  then Ok {| success := false; error := "params is empty" |}
                  else Ok {| success := true; error := EmptyString |}
              end
        | _, _ =>
            Ok {| success := false; error := "valueTypes is not a valid array" |}
        end
  end.

(** *** Reading a row *)

Import Sheet.

(** [SpreadsheetRow.prototype.get] of the add-on. *)
Definition get (row : SpreadsheetRow) (columnName : string) : result prim :=
  columnIndex ← getColumnIndex_ row columnName;
  Ok (array_get (values_ row) columnIndex).

(** *** Linking the matching columns *)

(** [mainConfig]: the index of each column, the names of the columns to
    link, and the names and the colour of the columns to compare. *)
Record mainConfigT : Type := {
  main_columns : gmap string nat;
  columnsToLink_names : list string;
  mismatchColumns_names : list string;
  mismatchColumns_color : prim
}.

Section Linking.

(** [JSON.parse]: [None] when it throws. *)
Variable JSON_parse : string -> option jsval.

(** The callback of [columnsToLink.names.forEach] in [linkMatchingColumns];
    a name is the name of a column, as the rows know them. *)
Definition link_column (mainConfig : mainConfigT) (nonEmptyRow : SpreadsheetRow)
    (columnName : string) (st : buckets) : result buckets :=
  let rowIndex := PNum (getRowIndex nonEmptyRow) in
  get nonEmptyRow columnName ≫= fun value : prim =>
  if negb (isEmptyString (PStr columnName)) && negb (isEmptyString value)
     && negb (isEmpty rowIndex)
  then
    match main_columns mainConfig !! columnName with
    | None => Raise TypeError
    | Some index =>
        (* Add 1 to keep offsets consistent with spreadsheet. *)
        let columnIndex := PNum (Z.of_nat index + 1) in
        addValue columnIndex value rowIndex st
    end
  else Ok st.

Fixpoint link_columns (mainConfig : mainConfigT) (nonEmptyRow : SpreadsheetRow)
    (columnNames : list string) (st : buckets) : result buckets :=
  match columnNames with
  | [] => Ok st
  | columnName :: rest =>
      st ← link_column mainConfig nonEmptyRow columnName st;
      link_columns mainConfig nonEmptyRow rest st
  end.

(** The callback of [nonEmptyRows.forEach], and the loop, in
    [linkMatchingColumns]. *)
Definition link_row (mainConfig : mainConfigT) (nonEmptyRow : SpreadsheetRow)
    (st : buckets) (sh : sheet) : result buckets * sheet :=
  match link_columns mainConfig nonEmptyRow (columnsToLink_names mainConfig) st with
  | Raise e => (Raise e, sh)
  | Ok st =>
      (* Highlight any mismatching fields. *)
      match highlightMismatchFields JSON_parse nonEmptyRow
              (mismatchColumns_names mainConfig) (mismatchColumns_color mainConfig) sh
      with
      | (Raise e, sh) => (Raise e, sh)
      | (Ok _, sh) => (Ok st, sh)
      end
  end.

Fixpoint link_rows (mainConfig : mainConfigT) (nonEmptyRows : list SpreadsheetRow)
    (st : buckets) (sh : sheet) : result buckets * sheet :=
  match nonEmptyRows with
  | [] => (Ok st, sh)
  | nonEmptyRow :: rest =>
      match link_row mainConfig nonEmptyRow st sh with
      | (Raise e, sh) => (Raise e, sh)
      | (Ok st, sh) => link_rows mainConfig rest st sh
      end
  end.

End Linking.

End Addon.

(** ** More of the script: [src/utils.js], [src/sync_spreadsheet_helpers.js] *)

Module Helpers.

(** *** Change tracking *)

(** The values that the sync passes to [trackChange]: a status or an empty
    string, or an array of label names. Two arrays are told apart by their
    elements only: an array that is compared with itself has equal
    elements. *)
Inductive tracked : Type :=
| TVal (p : prim)
| TArray (l : list prim).

Definition tracked_truthy (a : tracked) : bool :=
  match a with
  | TVal p => truthy (Prim p)
  | TArray _ => true
  end.

(** [a == null]. *)
Definition nullish (a : tracked) : bool :=
  match a with
  | TVal PNull | TVal PUndef => true
  | _ => false
  end.

(** The loop of [isArrayShallowEquals] over two arrays of one length. *)
Fixpoint elements_equal (a b : list prim) : bool :=
  match a, b with
  | x :: a', y :: b' => if negb (strict_eq x y) then false else elements_equal a' b'
  | _, _ => true
  end.

Definition isArrayShallowEquals (a b : tracked) : bool :=
  (* Condition 1: one of the arrays is empty. *)
  if (negb (tracked_truthy a) && tracked_truthy b)
     || (negb (tracked_truthy b) && tracked_truthy a)
  then false
  (* Condition 2: both arrays are null or undefined. *)
  else if nullish a && nullish b then true
  else
    match a, b with
    | TArray la, TArray lb =>
        (* Condition 4: arrays of different length. *)
        if negb (bool_decide (length la = length lb)) then false
        (* Condition 5: compare each element in the arrays. *)
        else elements_equal la lb
    (* Condition 3: either one of the arguments is not an array. *)
    | _, _ => false
    end.

Record change : Type := {
  fieldName : string;
  oldValue : tracked;
  newValue : tracked
}.

(** [this.structure] of an [AdChange]; [created] is [undefined] until
    [trackCreate] or [resetChanges] assigns it. *)
Record AdChange : Type := {
  adId : prim;
  adGroupId : prim;
  changes : list change;
  created : option bool
}.

Definition new_AdChange (adId adGroupId : prim) : AdChange :=
  if negb (Script.isEmpty adId) && negb (Script.isEmpty adGroupId)
  then {| adId := adId; adGroupId := adGroupId; changes := []; created := None |}
  else {| adId := PNull; adGroupId := PNull; changes := []; created := None |}.

(** [oldValue === newValue]. *)
Definition tracked_strict_eq (a b : tracked) : bool :=
  match a, b with
  | TVal p, TVal q => strict_eq p q
  | _, _ => false
  end.

Definition trackChange (fieldName : string) (oldValue newValue : tracked)
    (this : AdChange) : AdChange :=
  if tracked_strict_eq oldValue newValue || isArrayShallowEquals oldValue newValue
  then this
  else
    {| adId := adId this;
       adGroupId := adGroupId this;
       changes := changes this
                  ++ [{| fieldName := fieldName;
                         oldValue := oldValue;
                         newValue := newValue |}];
       created := created this |}.

Definition trackCreate (adId adGroupId : prim) (this : AdChange) : AdChange :=
  {| adId := adId; adGroupId := adGroupId;
     changes := changes this; created := Some true |}.

Definition resetChanges (this : AdChange) : AdChange :=
  {| adId := adId this; adGroupId := adGroupId this;
     changes := []; created := Some false |}.

(** *** Resuming a pass *)

(** [spliceFromLastRowChecked]; the index of the last row checked is a
    number, [None] when it is NaN. *)
Definition spliceFromLastRowChecked {A : Type} (spreadsheetRowsAndReport : list A)
    (lastRowCheckedIndex : option Z) (headerIndex : Z) : list A :=
  let lastRowCheckedIndex := default 0 lastRowCheckedIndex in
  let lastRowCheckedIndex := lastRowCheckedIndex - headerIndex in
  if (0 <? lastRowCheckedIndex)
     && (lastRowCheckedIndex <? Z.of_nat (length spreadsheetRowsAndReport))
  then drop (Z.to_nat lastRowCheckedIndex) spreadsheetRowsAndReport
  else spreadsheetRowsAndReport.

(** *** Customer identifiers *)

(** [s.split(sep)] for a one-character separator. *)
Fixpoint split (sep : ascii) (s : string) : list string :=
  match s with
  | EmptyString => [EmptyString]
  | String a s' =>
      if bool_decide (a = sep) then EmptyString :: split sep s'
      else
        match split sep s' with
        | x :: rest => String a x :: rest
        | [] => [String a EmptyString]
        end
  end.

Definition digit_of (a : ascii) : option Z :=
  let c := charCode a in
  if (48 <=? c) && (c <=? 57) then Some (c - 48) else None.

(** The digits that [parseInt] reads: it stops at the first character that
    is no digit; [None] when it has read none. *)
Fixpoint parse_digits (s : string) (acc : option Z) : option Z :=
  match s with
  | EmptyString => acc
  | String a s' =>
      match digit_of a with
      | Some d => parse_digits s' (Some (10 * default 0 acc + d))
      | None => acc
      end
  end.

(** [parseInt(s, 10)], [None] for NaN: leading white space, a sign, then
    digits. The value is exact up to 2^53, which the ten characters of a
    customer identifier cannot reach. *)
Definition parseInt10 (s : string) : option Z :=
  match trim_start s with
  | EmptyString => None
  | String a s' =>
      if bool_decide (a = "-"%char) then Z.opp <$> parse_digits s' None
      else if bool_decide (a = "+"%char) then parse_digits s' None
      else parse_digits (String a s') None
  end.

Definition validateCid (cid : jsval) : result Z :=
  if negb (truthy cid)
  then Throw ("Invalid CID: Empty or null : " +:+ to_string cid)
  else
    match cid with
    | Prim (PStr s) =>
        let cidArray := split "-"%char s in
        if negb (bool_decide (length cidArray = 3%nat))
        then Throw ("Invalid CID: Incorrect separators : " +:+ s)
        else if negb (bool_decide
                        (String.length (default EmptyString (cidArray !! 0%nat)) = 3%nat))
        then Throw ("Invalid CID: Incorrect part 1 : " +:+ s)
        else if negb (bool_decide
                        (String.length (default EmptyString (cidArray !! 1%nat)) = 3%nat))
        then Throw ("Invalid CID: Incorrect part 2 : " +:+ s)
        else if negb (bool_decide
                        (String.length (default EmptyString (cidArray !! 2%nat)) = 4%nat))
        then Throw ("Invalid CID: Incorrect part 3 : " +:+ s)
        else
          match parseInt10 (join EmptyString cidArray) with
          | None => Throw ("Invalid CID: isNaN : " +:+ s)
          | Some cidInt => Ok cidInt
          end
    | _ => Throw ("Invalid CID: Is not a string : " +:+ to_string cid)
    end.

(** *** The labels of a row *)

Section RowLabels.

(** [JSON.parse]: [None] when it throws. *)
Variable JSON_parse : string -> option jsval.

(** A result that leaves the row as it is. *)
Definition pure_step {A : Type} (r : result A) : Script.rowM A :=
  fun st => (r, st).

(** [SpreadsheetRow.prototype.getArray] of the script. *)
Definition getArray (columnName : string) : Script.rowM (list jsval) :=
  columnIndex ← Script.getColumnIndex_ columnName;
  cell ← Script.values_get columnIndex;
  if Script.isEmptyString (Prim cell) then pure_step (Ok [])
  else
    values ←
      pure_step
        match JSON_parse (prim_to_string cell) with
        | Some v => Ok v
        | None =>
            let valueWithQuotes :=
              Sheet.quote +:+ prim_to_string cell +:+ Sheet.quote in
            match JSON_parse valueWithQuotes with
            | Some v => Ok v
            | None =>
                Throw ("Incorrect JSON value stored in `" +:+ columnName
                       +:+ "` column.")
            end
        end;
    pure_step
      match values with
      | Arr l => Ok l
      | Prim (PStr s) => Ok [Prim (PStr s)]
      | _ =>
          Throw ("Incorrect array value stored in `" +:+ columnName
                 +:+ "` column.")
      end.

(** [getLabelsToApply], for a default label that is a string. *)
Definition getLabelsToApply (defaultLabel : string) : Script.rowM (list jsval) :=
  labelNames ← getArray "labels";
  pure_step
    (Ok (if Script.isEmptyString (Arr labelNames)
         then [Prim (PStr defaultLabel)]
         else if negb (Script.has_label labelNames defaultLabel)
         then labelNames ++ [Prim (PStr defaultLabel)]
         else labelNames)).

End RowLabels.

End Helpers.

(** ** Vocabulary of the statements *)

(** A bucket that holds a list of row identifiers. *)
Definition is_list (s : Sheet.slot) : bool :=
  match s with
  | Sheet.SList _ => true
  | _ => false
  end.

(** All entries of a list are the first one. *)
Definition all_same (ds : list string) : bool :=
  match ds with
  | [] => true
  | d :: rest => forallb (fun x => bool_decide (x = d)) rest
  end.

(** The sheet after the background of the cells at [idxs] of a row is set. *)
Definition paint (row : Sheet.SpreadsheetRow) (hl : prim) (sh : Sheet.sheet)
    (idxs : list nat) : Sheet.sheet :=
  foldl (fun s i => Sheet.setBackground_at s (Sheet.rowIndex_ row) (Z.of_nat i + 1) hl)
    sh idxs.

(** A flat mapping from strings to strings. *)
Definition flat_string_map (v : jsval) : Prop :=
  exists kvs, v = Obj kvs /\ Forall (fun kv => exists s, kv.2 = Prim (PStr s)) kvs.

(** The custom parameters that the creation validator lets through. *)
Definition params_accepted (v : jsval) : Prop :=
  v = Prim PNull \/ v = Prim PUndef
  \/ (exists s, v = Prim (PStr s) /\ trim s = EmptyString)
  \/ flat_string_map v.

Definition owns_hasOwnProperty (v : jsval) : bool :=
  match v with
  | Obj kvs => Script.shadows_hasOwnProperty kvs
  | _ => false
  end.

(** An array of strings. *)
Definition labels_array (l : list string) : jsval :=
  Arr (map (fun n => Prim (PStr n)) l).

(** Applying a label diff to the labels of an entity: the labels of
    [remove] are dropped, the labels of [add] are appended. *)
Definition applyDiff (current : list string) (d : Script.labelDiff) : list string :=
  filter (fun l => l ∉ Script.remove d) current ++ Script.add d.

(** The state and the call that a normalized status asks for. *)
Definition target_state (n : string) : Script.adStateT :=
  if bool_decide (n = Script.ENABLED) then Script.AdEnabled else Script.AdPaused.

Definition target_call (n : string) (h : nat) : Script.mutation :=
  if bool_decide (n = Script.ENABLED) then Script.Enable h else Script.Pause h.

(** The ad object once [getAd] has stored the ad that it found. *)
Definition resolved_as (this : Script.Ad) (h : nat) : Script.Ad :=
  {| Script.row := Script.row this; Script.ad := Some h |}.

(** The calls on a row of the script that write to it. *)
Inductive rowOp : Type :=
| OpSet (columnName : string) (value : prim)
| OpMarkAsError (messages : jsval)
| OpMarkAsResolved.

Definition run_op (debug : bool) (o : rowOp) : Script.rowM unit :=
  match o with
  | OpSet c v => Script.set c v
  | OpMarkAsError m => Script.markAsError debug m
  | OpMarkAsResolved => Script.markAsResolved
  end.

(** The row and the sheet that a sequence of calls leaves, whatever each
    call returned. *)
Definition run_ops (debug : bool) (ops : list rowOp) (st : Script.rowState)
    : Script.rowState :=
  foldl (fun s o => (run_op debug o s).2) st ops.

Definition with_values (r : Script.SpreadsheetRow) (vs : list prim)
    : Script.SpreadsheetRow :=
  {| Script.rowIndex_ := Script.rowIndex_ r;
     Script.columnNamesToIndices_ := Script.columnNamesToIndices_ r;
     Script.hasErrors_ := Script.hasErrors_ r;
     Script.values_ := vs |}.

(** The polynomial of base 31 over the code units of a string. *)
Fixpoint poly31 (s : string) (h : Z) : Z :=
  match s with
  | EmptyString => h
  | String a s' => poly31 s' (31 * h + charCode a)
  end.

(** A string holds the character. *)
Fixpoint has_char (c : ascii) (s : string) : bool :=
  match s with
  | EmptyString => false
  | String a s' => bool_decide (a = c) || has_char c s'
  end.

(** Every character of a string is white space. *)
Fixpoint all_white (s : string) : bool :=
  match s with
  | EmptyString => true
  | String a s' => is_white a && all_white s'
  end.

(** A scheme, [www.], and a scheme followed by [www.]. *)
Definition url_prefixes : list string :=
  ["http://"; "https://"; "www."; "http://www."; "https://www."].

(** The list that a bucket holds, empty when it holds none. *)
Definition bucket_list (st : gmap string (gmap Z Sheet.slot)) (key : string) (h : Z)
    : list prim :=
  match st !! key ≫= (.!! h) with
  | Some (Sheet.SList l) => l
  | _ => []
  end.

(** Every bucket that was assigned holds a list. *)
Definition all_lists (st : gmap string (gmap Z Sheet.slot)) : Prop :=
  forall key column h s, st !! key = Some column -> column !! h = Some s ->
    is_list s = true.

(** The row, when its cell in the column named [columnName] is not blank,
    the column has the index [i] and the hash of the cell is [h]. *)
Definition linked_cell (cfg : Addon.mainConfigT) (i : nat) (h : Z)
    (row : Sheet.SpreadsheetRow) (columnName : string) : list prim :=
  if bool_decide (Addon.main_columns cfg !! columnName = Some i)
     && negb (Sheet.isEmptyString (PStr columnName))
     && negb (Sheet.isEmptyString
                (array_get (Sheet.values_ row) i))
     && bool_decide (Sheet.hashCode_ (array_get (Sheet.values_ row) i) = h)
  then [PNum (Sheet.rowIndex_ row)]
  else [].

(** The rows linked in the column of index [i] under the hash [h]: one
    entry for each row and each name of a column to link, in the order of the
    rows. *)
Definition linked_rows (cfg : Addon.mainConfigT) (i : nat) (h : Z)
    (rows : list Sheet.SpreadsheetRow) : list prim :=
  row ← rows; columnName ← Addon.columnsToLink_names cfg; linked_cell cfg i h row columnName.

(** The keys that [generateColumnData] uses for its own entries. *)
Definition reserved_key (k : string) : bool :=
  bool_decide (k = "_order") || bool_decide (k = "_lastIndex").

(** The position of the last occurrence of a name, from position [i] on. *)
Fixpoint last_index_from (names : list string) (k : string) (i : nat) : option nat :=
  match names with
  | [] => None
  | n :: rest =>
      match last_index_from rest k (S i) with
      | Some j => Some j
      | None => if bool_decide (n = k) then Some i else None
      end
  end.

Definition last_index (names : list string) (k : string) : option nat :=
  last_index_from names k 0.

(** What the two copies of [isValidParamsObject] return, as a pair. *)
Definition script_outcome (r : result Script.paramsResult) : result (bool * string) :=
  match r with
  | Ok p => Ok (Script.success p, Script.message p)
  | Raise e => Raise e
  end.

Definition addon_outcome (r : result Addon.paramsResult) : result (bool * string) :=
  match r with
  | Ok p => Ok (Addon.success p, Addon.error p)
  | Raise e => Raise e
  end.

(** The type of the value of a key is among the listed types. *)
Definition value_listed (valueTypes : list jsval) (kv : string * jsval) : Prop :=
  Script.type_listed valueTypes (js_typeof kv.2) = true.

(** Every character of a string is a decimal digit. *)
Fixpoint all_digits (s : string) : bool :=
  match s with
  | EmptyString => true
  | String a s' => ((48 <=? charCode a) && (charCode a <=? 57)) && all_digits s'
  end.

(** The number that a string of decimal digits writes, after the digits
    of [acc]. *)
Fixpoint digits_value (s : string) (acc : Z) : Z :=
  match s with
  | EmptyString => acc
  | String a s' => digits_value s' (10 * acc + (charCode a - 48))
  end.

(** The line that the constructor of a row writes for a status that is
    not supported. *)
Definition status_error (kind : string) (status : prim) : string :=
  if Script.isSupportedStatus status then EmptyString
  else "- Unsuported " +:+ kind +:+ " status with value of '"
       +:+ prim_to_string status +:+ "'." +:+ Script.nl.

(** An ad of the platform differs from another in its state at most. *)
Definition same_but_state (a a' : Script.AdWordsAd) : Prop :=
  Script.getId a' = Script.getId a
  /\ Script.labelNames a' = Script.labelNames a
  /\ Script.rejects a' = Script.rejects a.

(** ** Concrete sheets, rows, ads and bucket indexes *)

Module Examples.

(** *** The bucket index *)

(** Column 2 with one bucket, for the value [Aa], that holds row 4. The
    values [Aa] and [BB] have the same hash. *)
Definition oneBucket : gmap string (gmap Z Sheet.slot) :=
  {[ "2" := {[ 2112 := Sheet.SList [PNum 4] ]} ]}.

(** Column 2 with row 4 under [Aa] and row 5 under [Ab]. *)
Definition twoBuckets : gmap string (gmap Z Sheet.slot) :=
  {[ "2" := <[ 2113 := Sheet.SList [PNum 5] ]> {[ 2112 := Sheet.SList [PNum 4] ]} ]}.

(** [oneBucket] after its bucket was transferred to the value [Ab]. *)
Definition nulledBucket : gmap string (gmap Z Sheet.slot) :=
  {[ "2" := <[ 2112 := Sheet.SNull ]> {[ 2113 := Sheet.SList [PNum 4] ]} ]}.

(** *** The read-only gate *)

(** Modelled from the spec: the [ColumnNames] and [AdStatus] tables of the
    add-on are not among the sources; each column name stands for itself,
    as [createIdentityMap] builds such tables, and the disabled status is
    the word the script uses. *)
Definition exampleColumnNames : Sheet.ColumnNamesT :=
  {| Sheet.staStatus := "staStatus";
     Sheet.etaStatus := "etaStatus";
     Sheet.etaId := "etaId";
     Sheet.errorMessage := "errorMessage" |}.

Definition exampleAdStatus : Sheet.AdStatusT := {| Sheet.disabled := "disabled" |}.

Definition exampleColumns : Sheet.columnData :=
  {| Sheet._order := ["staStatus"; "etaStatus"; "etaId"; "headline1"; "errorMessage"];
     Sheet.index :=
       list_to_map [("staStatus", 0%nat); ("etaStatus", 1%nat); ("etaId", 2%nat);
                    ("headline1", 3%nat); ("errorMessage", 4%nat)] |}.

Definition exampleConfig : Sheet.sheetConfigT :=
  {| Sheet.readOnlyColumns := Some ["etaId"; "errorMessage"];
     Sheet.columns := exampleColumns;
     Sheet.firstContentRow := 4 |}.

(** Row 4 of a sheet, whose entity 123 exists, once the user has typed
    [New] into the headline. *)
Definition exampleSheet : Sheet.sheet :=
  {| Sheet.cells :=
       list_to_map [((4, 1), PStr "enabled"); ((4, 2), PStr "paused");
                    ((4, 3), PNum 123); ((4, 4), PStr "New")];
     Sheet.backgrounds := ∅;
     Sheet.toasts := [] |}.

(** The edit of a headline that was empty, and of one that read [Old]. *)
Definition editFromEmpty : Sheet.editEvent :=
  {| Sheet.range_row := 4; Sheet.range_column := 4;
     Sheet.oldValue := PUndef; Sheet.value := PStr "New" |}.

Definition editFromOld : Sheet.editEvent :=
  {| Sheet.range_row := 4; Sheet.range_column := 4;
     Sheet.oldValue := PStr "Old"; Sheet.value := PStr "New" |}.

(** An accepted edit, here one that fails: the gate never runs it on a
    rejected edit. *)
Definition acceptNothing : Sheet.sheet -> result unit * Sheet.sheet :=
  fun sh => (Raise TypeError, sh).

(** *** The mismatch highlighter *)

(** The body of a string literal with no escape, up to its closing quote. *)
Fixpoint literal_body (s : string) : option string :=
  match s with
  | EmptyString => None
  | String a s' =>
      if charCode a =? 34
      then match s' with EmptyString => Some EmptyString | _ => None end
      else if (32 <=? charCode a) && negb (charCode a =? 92)
      then option_map (String a) (literal_body s')
      else None
  end.

(** A parser for the examples: it accepts a text that is one string literal
    with no escape, as [JSON.parse] does, and rejects every other text. The
    examples apply it to such literals and to bare URLs only. *)
Definition JSON_parse_literal (s : string) : option jsval :=
  match s with
  | String a s' =>
      if charCode a =? 34
      then option_map (fun b => Prim (PStr b)) (literal_body s')
      else None
  | EmptyString => None
  end.

(** Row 5: two URLs of one domain, and an empty tracking URL. *)
Definition urlRow : Sheet.SpreadsheetRow :=
  {| Sheet.rowIndex_ := 5;
     Sheet.values_ := [PStr "Some headline"; PStr "www.google.com/test";
                       PStr "http://www.Google.com/other"; PStr EmptyString];
     Sheet.columnNamesToIndices_ :=
       list_to_map [("headline", 0%nat); ("finalUrl", 1%nat);
                    ("mobileFinalUrl", 2%nat); ("trackingUrl", 3%nat)] |}.

Definition blankSheet : Sheet.sheet :=
  {| Sheet.cells := ∅; Sheet.backgrounds := ∅; Sheet.toasts := [] |}.

Definition highlight : prim := PStr "#F4C7C3".

(** *** Rows parsed for creation *)

(** A row that meets every rule, with no custom parameters. *)
Definition validEta : Script.etaObjT :=
  {| Script.campaignId := 1;
     Script.adGroupId := 2;
     Script.finalURLs := [Prim (PStr "http://www.example.com")];
     Script.headline1 := "Headline one";
     Script.headline2 := "Headline two";
     Script.description := "A description";
     Script.path1 := "shoes";
     Script.path2 := "red";
     Script.mobileFinalURLs := [];
     Script.trackingTemplate := EmptyString;
     Script.customParameters := Prim PNull |}.

(** The same row, its custom parameters a string of two spaces. *)
Definition blankParamsEta : Script.etaObjT :=
  {| Script.campaignId := 1;
     Script.adGroupId := 2;
     Script.finalURLs := [Prim (PStr "http://www.example.com")];
     Script.headline1 := "Headline one";
     Script.headline2 := "Headline two";
     Script.description := "A description";
     Script.path1 := "shoes";
     Script.path2 := "red";
     Script.mobileFinalURLs := [];
     Script.trackingTemplate := EmptyString;
     Script.customParameters := Prim (PStr "  ") |}.

(** The same row, its custom parameters a mapping from strings to strings
    that owns the key [hasOwnProperty]. *)
Definition shadowParamsEta : Script.etaObjT :=
  {| Script.campaignId := 1;
     Script.adGroupId := 2;
     Script.finalURLs := [Prim (PStr "http://www.example.com")];
     Script.headline1 := "Headline one";
     Script.headline2 := "Headline two";
     Script.description := "A description";
     Script.path1 := "shoes";
     Script.path2 := "red";
     Script.mobileFinalURLs := [];
     Script.trackingTemplate := EmptyString;
     Script.customParameters := Obj [("hasOwnProperty", Prim (PStr "x"))] |}.

(** *** Rows of the script *)

Definition emptyWorld : Script.world :=
  {| Script.rowBackground := ∅; Script.cellValue := ∅; Script.logger := [] |}.

Definition scriptColumns : gmap string nat :=
  list_to_map [("staStatus", 0%nat); ("etaStatus", 1%nat); ("errorMessage", 2%nat)].

(** Row 7 as its constructor leaves it. *)
Definition freshRow : Script.rowState :=
  (Script.new_SpreadsheetRow true [PStr "enabled"; PStr "paused"; PStr "- old"] 7
     scriptColumns emptyWorld).2.

(** *** Ads and the platform *)

Definition pausedRemoteAd : Script.AdWordsAd :=
  {| Script.getId := 10; Script.adState := Script.AdPaused;
     Script.labelNames := ["ETA"]; Script.rejects := false |}.

Definition previewRemoteAd : Script.AdWordsAd :=
  {| Script.getId := -1; Script.adState := Script.AdPaused;
     Script.labelNames := []; Script.rejects := false |}.

Definition enabledRemoteAd : Script.AdWordsAd :=
  {| Script.getId := 11; Script.adState := Script.AdEnabled;
     Script.labelNames := []; Script.rejects := false |}.

(** An ad that carries the label [a], as the platform names it once the
    padded label of a row was applied. *)
Definition labelledRemoteAd : Script.AdWordsAd :=
  {| Script.getId := 12; Script.adState := Script.AdEnabled;
     Script.labelNames := ["a"]; Script.rejects := false |}.

Definition examplePlatform : Script.platform :=
  {| Script.ads :=
       list_to_map [(0%nat, pausedRemoteAd); (1%nat, previewRemoteAd);
                    (2%nat, enabledRemoteAd); (3%nat, labelledRemoteAd)];
     Script.withIds := fun _ _ => None;
     Script.mutations := [] |}.

Definition exampleAdRow : Script.adRow :=
  {| Script.row_status := PUndef; Script.row_adGroupId := PNum 77;
     Script.row_id := PNum 10; Script.row_labels := PUndef |}.

Definition pausedAd : Script.Ad := {| Script.row := exampleAdRow; Script.ad := Some 0%nat |}.
Definition previewAd : Script.Ad := {| Script.row := exampleAdRow; Script.ad := Some 1%nat |}.
Definition enabledAd : Script.Ad := {| Script.row := exampleAdRow; Script.ad := Some 2%nat |}.
Definition labelledAd : Script.Ad := {| Script.row := exampleAdRow; Script.ad := Some 3%nat |}.

(** *** Rows to link *)

Definition linkColumns : gmap string nat :=
  list_to_map [("headline", 0%nat); ("finalUrl", 1%nat)].

Definition linkRow (rowIndex : Z) (headline : string) : Sheet.SpreadsheetRow :=
  {| Sheet.rowIndex_ := rowIndex;
     Sheet.values_ := [PStr headline; PStr "www.example.com"];
     Sheet.columnNamesToIndices_ := linkColumns |}.

(** Rows 5 and 7 share a headline. *)
Definition linkRows : list Sheet.SpreadsheetRow :=
  [linkRow 5 "Shoes"; linkRow 6 "Boots"; linkRow 7 "Shoes"].

Definition linkConfig : Addon.mainConfigT :=
  {| Addon.main_columns := linkColumns;
     Addon.columnsToLink_names := ["headline"];
     Addon.mismatchColumns_names := [];
     Addon.mismatchColumns_color := PStr "#F4C7C3" |}.

(** The example platform with a selector that finds the paused ad 10. *)
Definition findingPlatform : Script.platform :=
  {| Script.ads := Script.ads examplePlatform;
     Script.withIds := fun _ _ => Some 0%nat;
     Script.mutations := [] |}.

(** An ad that is known from its report row only. *)
Definition reportAd : Script.Ad :=
  {| Script.row := {| Script.row_status := PStr "paused";
                      Script.row_adGroupId := PNum 77;
                      Script.row_id := PNum 10;
                      Script.row_labels := PStr "--" |};
     Script.ad := None |}.

(** Row 8 of the script, whose labels cell reads [Sale]. *)
Definition labelsRow : Script.rowState :=
  ({| Script.rowIndex_ := 8;
      Script.columnNamesToIndices_ := {[ "labels" := 0%nat ]};
      Script.hasErrors_ := false;
      Script.values_ := [PStr "Sale"] |}, Examples.emptyWorld).

End Examples.

(** * Properties *)

(** ** The bucket index *)

Section BucketIndex.

Import Sheet.

Lemma getValue_Ok_nonblank (C v : prim) (st : buckets) (s : slot) :
  getValue C v st = Ok s -> isEmptyString C = false /\ isEmptyString v = false.
Proof.
  unfold getValue.
  destruct (isEmptyString C), (isEmptyString v); simpl; try discriminate; auto.
Qed.

Lemma getValue_list_lookup (C v : prim) (st : buckets) (l : list prim) :
  getValue C v st = Ok (SList l) ->
  exists column,
    st !! to_key C = Some column /\ column !! hashCode_ v = Some (SList l).
Proof.
  intros H. destruct (getValue_Ok_nonblank _ _ _ _ H) as [HC Hv].
  unfold getValue in H. rewrite HC, Hv in H. simpl in H.
  destruct (st !! to_key C) as [column|] eqn:E; [|discriminate].
  exists column. split; [done|].
  destruct (column !! hashCode_ v) as [s|]; simpl in H; congruence.
Qed.

Lemma getValue_insert (C v : prim) (st : buckets) (column : gmap Z slot) :
  isEmptyString C = false -> isEmptyString v = false ->
  getValue C v (<[to_key C := column]> st)
  = Ok (default SUndef (column !! hashCode_ v)).
Proof.
  intros HC Hv. unfold getValue. rewrite HC, Hv. simpl.
  by rewrite lookup_insert_eq.
Qed.

(** C1, amended. For every column key and two values whose hashes differ,
    when the bucket of the first value holds the list R1 and the bucket of
    the second holds R2, [transferBucket] succeeds, [getValue] of the second
    value then returns R1 followed by R2, duplicates kept, and [getValue] of
    the first value returns [null]. *)
Theorem transferBucket_merges (st : buckets) (C v1 v2 : prim) (R1 R2 : list prim) :
  getValue C v1 st = Ok (SList R1) ->
  getValue C v2 st = Ok (SList R2) ->
  hashCode_ v1 <> hashCode_ v2 ->
  exists st',
    transferBucket C v1 v2 st = Ok st'
    /\ getValue C v2 st' = Ok (SList (R1 ++ R2))
    /\ getValue C v1 st' = Ok SNull.
Proof.
  intros H1 H2 Hh.
  destruct (getValue_Ok_nonblank _ _ _ _ H1) as [HC Hv1].
  destruct (getValue_Ok_nonblank _ _ _ _ H2) as [_ Hv2].
  destruct (getValue_list_lookup _ _ _ _ H1) as (column & Hcol & Hb1).
  eexists. split.
  - unfold transferBucket. rewrite HC, Hv1, Hv2. simpl.
    rewrite H1. simpl. rewrite H2. simpl. rewrite Hcol. reflexivity.
  - split.
    + rewrite getValue_insert by done.
      rewrite lookup_insert_ne by done. by rewrite lookup_insert_eq.
    + rewrite getValue_insert by done. by rewrite lookup_insert_eq.
Qed.

(** The buckets of [Aa] and [Ab] are merged under [Ab]. *)
Lemma transferBucket_merges_witness :
  exists st',
    transferBucket (PNum 2) (PStr "Aa") (PStr "Ab") Examples.twoBuckets = Ok st'
    /\ getValue (PNum 2) (PStr "Ab") st' = Ok (SList ([PNum 4] ++ [PNum 5]))
    /\ getValue (PNum 2) (PStr "Aa") st' = Ok SNull.
Proof.
  apply (transferBucket_merges Examples.twoBuckets (PNum 2) (PStr "Aa") (PStr "Ab")
           [PNum 4] [PNum 5]).
  - reflexivity.
  - reflexivity.
  - vm_compute. discriminate.
Defined.

(** C1 as stated fails: [Aa] and [BB] are distinct values with one hash, so
    one bucket is the bucket of both; the transfer leaves [null] under
    [BB], not the concatenation. *)
Lemma transferBucket_collision :
  PStr "Aa" <> PStr "BB"
  /\ getValue (PNum 2) (PStr "Aa") Examples.oneBucket = Ok (SList [PNum 4])
  /\ getValue (PNum 2) (PStr "BB") Examples.oneBucket = Ok (SList [PNum 4])
  /\ (st' ← transferBucket (PNum 2) (PStr "Aa") (PStr "BB") Examples.oneBucket;
      getValue (PNum 2) (PStr "BB") st') = Ok SNull.
Proof. repeat split; (discriminate || reflexivity). Qed.

(** C7, amended. [addValue] throws when the column, the value or the row
    identifier is blank. When none is blank and nothing was ever stored
    under the hash of the value, it creates the column and the bucket as
    needed and [getValue] then returns the one row identifier; when the
    bucket holds a list, [getValue] then returns that list with the row
    identifier appended; when the bucket key holds [null] or [undefined],
    as a transfer leaves it, the call raises. *)
Theorem addValue_spec (st : buckets) (C v r : prim) :
  (isEmptyString C || isEmptyString v || isEmptyString r = true ->
     addValue C v r st
     = Throw "columnKey, bucketKey, and value must have valid values.")
  /\ (isEmptyString C || isEmptyString v || isEmptyString r = false ->
      (st !! to_key C ≫= (.!! hashCode_ v) = None ->
         exists st', addValue C v r st = Ok st'
                     /\ getValue C v st' = Ok (SList [r]))
      /\ (forall l, st !! to_key C ≫= (.!! hashCode_ v) = Some (SList l) ->
         exists st', addValue C v r st = Ok st'
                     /\ getValue C v st' = Ok (SList (l ++ [r])))
      /\ (st !! to_key C ≫= (.!! hashCode_ v) = Some SNull
          \/ st !! to_key C ≫= (.!! hashCode_ v) = Some SUndef ->
         addValue C v r st = Raise TypeError)).
Proof.
  split.
  - intros Hb. unfold addValue. by rewrite Hb.
  - intros Hb. unfold addValue. rewrite Hb.
    apply orb_false_elim in Hb as [Hb Hr].
    apply orb_false_elim in Hb as [HC Hv].
    destruct (st !! to_key C) as [column|] eqn:Ecol; simpl.
    + rewrite Ecol.
      destruct (column !! hashCode_ v) as [s|] eqn:Eb; simpl.
      * rewrite Eb. split; [discriminate|]. split.
        -- intros l [= ->]. eexists. split; [reflexivity|].
           rewrite getValue_insert by done. by rewrite lookup_insert_eq.
        -- by intros [[= ->] | [= ->]].
      * rewrite lookup_insert_eq. split.
        -- intros _. eexists. split; [reflexivity|].
           rewrite getValue_insert by done. by rewrite lookup_insert_eq.
        -- split; [discriminate | by intros [? | ?]].
    + rewrite lookup_insert_eq, lookup_empty, lookup_insert_eq. split.
      * intros _. eexists. split; [reflexivity|].
        rewrite getValue_insert by done. by rewrite lookup_insert_eq.
      * split; [discriminate | by intros [? | ?]].
Qed.

(** Row 6 joins row 4 in the bucket of [Aa]; a blank value is refused. *)
Lemma addValue_spec_witness :
  (exists st',
      addValue (PNum 2) (PStr "Aa") (PNum 6) Examples.oneBucket = Ok st'
      /\ getValue (PNum 2) (PStr "Aa") st' = Ok (SList ([PNum 4] ++ [PNum 6])))
  /\ addValue (PNum 2) (PStr "  ") (PNum 6) Examples.oneBucket
     = Throw "columnKey, bucketKey, and value must have valid values.".
Proof.
  destruct (addValue_spec Examples.oneBucket (PNum 2) (PStr "Aa") (PNum 6))
    as [_ Happend].
  destruct (addValue_spec Examples.oneBucket (PNum 2) (PStr "  ") (PNum 6))
    as [Hblank _].
  split.
  - destruct (Happend eq_refl) as (_ & Hlist & _). apply Hlist. reflexivity.
  - apply Hblank. reflexivity.
Defined.

(** C7 as stated fails: once the bucket of [Aa] was transferred, [addValue]
    raises for [Aa] although no argument is blank. *)
Lemma addValue_nulled_bucket_raises :
  transferBucket (PNum 2) (PStr "Aa") (PStr "Ab") Examples.oneBucket
  = Ok Examples.nulledBucket
  /\ isEmptyString (PNum 2) || isEmptyString (PStr "Aa") || isEmptyString (PNum 7)
     = false
  /\ addValue (PNum 2) (PStr "Aa") (PNum 7) Examples.nulledBucket = Raise TypeError.
Proof. repeat split; reflexivity. Qed.

(** C9, amended. When the bucket of the source value holds no list (the
    column is missing, the bucket was never created or a transfer left
    [null]), [transferBucket] raises if the destination holds a list, and
    raises if the column is missing and its key is not the name of an
    inherited property; when the column exists and the destination holds
    no list either, it does not raise: it stores [null] under the source
    and what the source held under the destination. *)
Theorem transferBucket_absent_source (st : buckets) (C v1 v2 : prim) (s1 s2 : slot) :
  getValue C v1 st = Ok s1 ->
  getValue C v2 st = Ok s2 ->
  is_list s1 = false ->
  (is_list s2 = true -> transferBucket C v1 v2 st = Raise TypeError)
  /\ (st !! to_key C = None -> inherited (to_key C) = false ->
      transferBucket C v1 v2 st = Raise TypeError)
  /\ (is_list s2 = false -> is_Some (st !! to_key C) ->
      exists st',
        transferBucket C v1 v2 st = Ok st'
        /\ getValue C v1 st' = Ok SNull
        /\ (hashCode_ v1 <> hashCode_ v2 -> getValue C v2 st' = Ok s1)).
Proof.
  intros H1 H2 Hs1.
  destruct (getValue_Ok_nonblank _ _ _ _ H1) as [HC Hv1].
  destruct (getValue_Ok_nonblank _ _ _ _ H2) as [_ Hv2].
  unfold transferBucket. rewrite HC, Hv1, Hv2, H1, H2. simpl.
  split; [|split].
  - destruct s2; try discriminate. by destruct s1.
  - intros Hnone _. unfold getValue in H2. rewrite HC, Hv2, Hnone in H2.
    simpl in H2. injection H2 as <-. simpl. by rewrite Hnone.
  - intros Hs2 [column Hcol]. rewrite Hcol.
    exists (<[to_key C :=
                <[hashCode_ v1 := SNull]> (<[hashCode_ v2 := s1]> column)]> st).
    split; [by destruct s2|]. split.
    + rewrite getValue_insert by done. by rewrite lookup_insert_eq.
    + intros Hne. rewrite getValue_insert by done.
      rewrite lookup_insert_ne by done. by rewrite lookup_insert_eq.
Qed.

(** A transfer from the nulled bucket of [Aa] onto the list under [Ab]
    raises; so does a transfer in column 3, which is missing. *)
Lemma transferBucket_absent_source_witness :
  transferBucket (PNum 2) (PStr "Aa") (PStr "Ab") Examples.nulledBucket
  = Raise TypeError
  /\ transferBucket (PNum 3) (PStr "Aa") (PStr "Ab") Examples.nulledBucket
     = Raise TypeError.
Proof.
  split.
  - destruct (transferBucket_absent_source Examples.nulledBucket (PNum 2)
                (PStr "Aa") (PStr "Ab") SNull (SList [PNum 4]))
      as (Hraise & _ & _); [reflexivity | reflexivity | reflexivity |].
    apply Hraise. reflexivity.
  - destruct (transferBucket_absent_source Examples.nulledBucket (PNum 3)
                (PStr "Aa") (PStr "Ab") SNull SNull)
      as (_ & Hmissing & _); [reflexivity | reflexivity | reflexivity |].
    apply Hmissing; reflexivity.
Defined.

(** C9 as stated fails: nothing is stored under [zz] nor under [yy] in
    column 2, and the transfer from [zz] to [yy] returns without raising. *)
Lemma transferBucket_absent_both_succeeds :
  getValue (PNum 2) (PStr "zz") Examples.oneBucket = Ok SUndef
  /\ exists st',
       transferBucket (PNum 2) (PStr "zz") (PStr "yy") Examples.oneBucket = Ok st'
       /\ getValue (PNum 2) (PStr "zz") st' = Ok SNull
       /\ getValue (PNum 2) (PStr "yy") st' = Ok SUndef.
Proof. split; [reflexivity|]. eexists. repeat split; reflexivity. Qed.

End BucketIndex.

(** ** The read-only gate *)

Section ReadOnlyGate.

Import Sheet.

Variable ColumnNames : ColumnNamesT.
Variable AdStatus : AdStatusT.

Lemma append_nonempty (s t : string) : t <> EmptyString -> s +:+ t <> EmptyString.
Proof. destruct s; simpl; [done | discriminate]. Qed.

Lemma showMessage_appends (m : string) (sh : sheet) :
  m <> EmptyString ->
  showMessage m sh
  = {| cells := cells sh; backgrounds := backgrounds sh; toasts := toasts sh ++ [m] |}.
Proof.
  intros Hm. unfold showMessage. simpl. by rewrite bool_decide_eq_false_2.
Qed.

(** C3, amended. In a row whose entity identifier is not blank, every field
    other than the two status fields is read-only, whatever the other rules
    say; each status field is read-only there only under another rule (it
    is listed as read-only, its previous value was the disabled status, or
    the entity status cell reads disabled). An edit in a content row of a
    field that [isReadOnly] classifies read-only is rejected and what
    follows the gate does not run: when the previous value of the event is
    not blank it is written back to the cell and the user is told that the
    field is read-only; when it is blank nothing is written and the user is
    told that the revert failed. Nothing else changes. *)
Theorem readOnly_gate :
  (forall (sh : sheet) (cfg : sheetConfigT) (rowIndex : Z) (columnName old : prim)
          (iStatus iId : nat),
      index (columns cfg) !! etaStatus ColumnNames = Some iStatus ->
      index (columns cfg) !! etaId ColumnNames = Some iId ->
      isEmptyString (getValue_at sh rowIndex (Z.of_nat iId + 1)) = false ->
      columnName <> PStr (etaStatus ColumnNames) ->
      columnName <> PStr (staStatus ColumnNames) ->
      isReadOnly ColumnNames AdStatus sh (Some cfg) rowIndex columnName old = Ok true)
  /\ (forall (sh : sheet) (cfg : sheetConfigT) (rowIndex : Z) (columnName old : prim)
             (iStatus iId : nat),
      index (columns cfg) !! etaStatus ColumnNames = Some iStatus ->
      index (columns cfg) !! etaId ColumnNames = Some iId ->
      columnName = PStr (etaStatus ColumnNames)
      \/ columnName = PStr (staStatus ColumnNames) ->
      isReadOnly ColumnNames AdStatus sh (Some cfg) rowIndex columnName old
      = Ok (match readOnlyColumns cfg with
            | Some l => includes l columnName
            | None => false
            end
            || strict_eq old (PStr (disabled AdStatus))
            || strict_eq (getValue_at sh rowIndex (Z.of_nat iStatus + 1))
                 (PStr (disabled AdStatus))))
  /\ (forall (acceptEdit : sheet -> result unit * sheet) (cfg : sheetConfigT)
             (event : editEvent) (sh : sheet),
      firstContentRow cfg <= range_row event ->
      isReadOnly ColumnNames AdStatus sh (Some cfg) (range_row event)
        (column_at cfg (range_column event)) (oldValue event) = Ok true ->
      onCellEdit ColumnNames AdStatus acceptEdit cfg event sh =
        (Ok tt,
         if isEmptyString (oldValue event)
         then {| cells := cells sh;
                 backgrounds := backgrounds sh;
                 toasts := toasts sh
                   ++ ["Failed to revert to old value - previous value not found."] |}
         else {| cells := <[(range_row event, range_column event) := oldValue event]>
                            (cells sh);
                 backgrounds := backgrounds sh;
                 toasts := toasts sh
                   ++ [prim_to_string (column_at cfg (range_column event))
                       +:+ " is read-only (and may populate automatically)."] |})).
Proof.
  split; [|split].
  - intros sh cfg rowIndex columnName old iStatus iId HiS HiI Hid Hne Hns.
    unfold isReadOnly.
    destruct (match readOnlyColumns cfg with
              | Some l => includes l columnName
              | None => false
              end); [done|].
    unfold strict_eq at 1 2.
    rewrite (bool_decide_eq_false_2 _ Hne), (bool_decide_eq_false_2 _ Hns). simpl.
    rewrite HiS.
    destruct (strict_eq _ _); [done|].
    rewrite HiI, Hid. unfold strict_eq.
    by rewrite (bool_decide_eq_false_2 _ Hne), (bool_decide_eq_false_2 _ Hns).
  - intros sh cfg rowIndex columnName old iStatus iId HiS HiI Hcol.
    unfold isReadOnly.
    destruct (match readOnlyColumns cfg with
              | Some l => includes l columnName
              | None => false
              end); [done|]. simpl.
    assert (strict_eq columnName (PStr (staStatus ColumnNames))
            || strict_eq columnName (PStr (etaStatus ColumnNames)) = true) as ->.
    { unfold strict_eq. destruct Hcol as [-> | ->].
      - rewrite (bool_decide_eq_true_2
                   (PStr (etaStatus ColumnNames) = PStr (etaStatus ColumnNames)))
          by done.
        apply orb_true_r.
      - by rewrite bool_decide_eq_true_2. }
    simpl. destruct (strict_eq old _); [done|]. simpl.
    rewrite HiS. destruct (strict_eq (getValue_at _ _ _) _); [done|].
    rewrite HiI. f_equal. unfold strict_eq.
    destruct Hcol as [-> | ->].
    + rewrite (bool_decide_eq_true_2
                 (PStr (etaStatus ColumnNames) = PStr (etaStatus ColumnNames)))
        by done.
      simpl. by rewrite andb_false_r.
    + rewrite (bool_decide_eq_true_2
                 (PStr (staStatus ColumnNames) = PStr (staStatus ColumnNames)))
        by done.
      apply andb_false_r.
  - intros acceptEdit cfg event sh Hrow Hro.
    unfold onCellEdit.
    destruct (Z.ltb_spec (range_row event) (firstContentRow cfg)); [lia|].
    rewrite Hro. f_equal. unfold revertEdit.
    destruct (isEmptyString (oldValue event)).
    + by rewrite showMessage_appends.
    + rewrite showMessage_appends; [done|]. by apply append_nonempty.
Qed.

End ReadOnlyGate.

Section ReadOnlyGateExamples.

Import Sheet.

(** The headline of row 4 is read-only since entity 123 exists, and the
    edit that replaced [Old] is reverted. *)
Lemma readOnly_gate_witness :
  isReadOnly Examples.exampleColumnNames Examples.exampleAdStatus Examples.exampleSheet
    (Some Examples.exampleConfig) 4 (PStr "headline1") (PStr "Old") = Ok true
  /\ getValue_at
       (onCellEdit Examples.exampleColumnNames Examples.exampleAdStatus
          Examples.acceptNothing Examples.exampleConfig Examples.editFromOld
          Examples.exampleSheet).2 4 4 = PStr "Old".
Proof.
  destruct (readOnly_gate Examples.exampleColumnNames Examples.exampleAdStatus)
    as (Hfield & _ & Hedit).
  split.
  - apply (Hfield Examples.exampleSheet Examples.exampleConfig 4 (PStr "headline1")
             (PStr "Old") 1%nat 2%nat);
      [reflexivity | reflexivity | reflexivity | discriminate | discriminate].
  - rewrite (Hedit Examples.acceptNothing Examples.exampleConfig Examples.editFromOld
               Examples.exampleSheet); [reflexivity | simpl; lia | reflexivity].
Defined.

(** C3 as stated fails twice. The identifier of row 4 is not blank, yet the
    status field of the legacy entity is not read-only. And the edit of the
    read-only headline that was empty before is not undone: the cell keeps
    the new value and the user is told that the revert failed. *)
Lemma readOnly_gate_exceptions :
  isEmptyString (getValue_at Examples.exampleSheet 4 3) = false
  /\ isReadOnly Examples.exampleColumnNames Examples.exampleAdStatus
       Examples.exampleSheet (Some Examples.exampleConfig) 4 (PStr "staStatus")
       (PStr "enabled") = Ok false
  /\ isReadOnly Examples.exampleColumnNames Examples.exampleAdStatus
       Examples.exampleSheet (Some Examples.exampleConfig) 4 (PStr "headline1")
       PUndef = Ok true
  /\ onCellEdit Examples.exampleColumnNames Examples.exampleAdStatus
       Examples.acceptNothing Examples.exampleConfig Examples.editFromEmpty
       Examples.exampleSheet
     = (Ok tt,
        {| cells := cells Examples.exampleSheet;
           backgrounds := ∅;
           toasts := ["Failed to revert to old value - previous value not found."] |})
  /\ getValue_at Examples.exampleSheet 4 4 = PStr "New".
Proof. repeat split; reflexivity. Qed.

End ReadOnlyGateExamples.

(** ** The mismatch highlighter *)

Section Highlighter.

Import Sheet.

Variable JSON_parse : string -> option jsval.

Lemma column_domain_empty (row : SpreadsheetRow) (c : string) :
  getArray JSON_parse row c = Ok [] ->
  column_domain JSON_parse row c = Throw "Invalid `url` parameter.".
Proof. intros H. unfold column_domain. by rewrite H. Qed.

(** The scan reaches a field as long as the fields before it agree. *)
Lemma every_reaches_empty (row : SpreadsheetRow) (d c : string) (post : list string) :
  getArray JSON_parse row c = Ok [] ->
  forall (pre : list string) (init : bool) (prev : prim),
    Forall (fun x => column_domain JSON_parse row x = Ok d) pre ->
    init = true \/ prev = PStr d ->
    every_domain_matches JSON_parse row (pre ++ c :: post) init prev
    = Throw "Invalid `url` parameter.".
Proof.
  intros Hc. induction pre as [|x pre IH]; intros init prev Hpre Hinit; simpl.
  - by rewrite (column_domain_empty _ _ Hc).
  - inversion Hpre as [|? ? Hx Hpre']; subst. rewrite Hx. simpl.
    destruct init.
    + apply IH; auto.
    + destruct Hinit as [?| ->]; [done|].
      unfold strict_eq. rewrite bool_decide_eq_true_2 by done. simpl.
      apply IH; auto.
Qed.

Lemma every_all_same (row : SpreadsheetRow) :
  forall (cols ds : list string) (d : string),
    Forall2 (fun x y => column_domain JSON_parse row x = Ok y) cols ds ->
    every_domain_matches JSON_parse row cols false (PStr d)
    = Ok (forallb (fun x => bool_decide (x = d)) ds).
Proof.
  induction cols as [|c cols IH]; intros ds d H;
    inversion H as [|? y ? ds' Hc Hrest]; subst; simpl.
  - done.
  - rewrite Hc. simpl. unfold strict_eq.
    destruct (decide (y = d)) as [->|Hne].
    + rewrite !bool_decide_eq_true_2 by done. simpl. by apply IH.
    + rewrite (bool_decide_eq_false_2 (PStr d = PStr y)) by congruence.
      by rewrite (bool_decide_eq_false_2 (y = d)).
Qed.

Lemma every_from_start (row : SpreadsheetRow) (cols ds : list string) :
  Forall2 (fun x y => column_domain JSON_parse row x = Ok y) cols ds ->
  every_domain_matches JSON_parse row cols true PNull = Ok (all_same ds).
Proof.
  intros H. destruct H as [|c d cols ds Hc Hrest]; simpl; [done|].
  rewrite Hc. simpl. by apply every_all_same.
Qed.

(** The scan stops at the first field that differs from the one before. *)
Lemma every_stops_at_mismatch (row : SpreadsheetRow) (post : list string) :
  forall (pre ds : list string) (d : string),
    Forall2 (fun x y => column_domain JSON_parse row x = Ok y) pre ds ->
    forallb (fun x => bool_decide (x = d)) ds = false ->
    every_domain_matches JSON_parse row (pre ++ post) false (PStr d) = Ok false.
Proof.
  induction pre as [|c pre IH]; intros ds d H Hdiff;
    inversion H as [|? y ? ds' Hc Hrest]; subst; simpl in *; [done|].
  rewrite Hc. simpl. unfold strict_eq.
  destruct (decide (y = d)) as [->|Hne].
  - rewrite bool_decide_eq_true_2 in Hdiff by done.
    rewrite bool_decide_eq_true_2 by done. simpl in *. by eapply IH.
  - by rewrite (bool_decide_eq_false_2 (PStr d = PStr y)) by congruence.
Qed.

Lemma every_mismatch_from_start (row : SpreadsheetRow) (pre post ds : list string) :
  Forall2 (fun x y => column_domain JSON_parse row x = Ok y) pre ds ->
  all_same ds = false ->
  every_domain_matches JSON_parse row (pre ++ post) true PNull = Ok false.
Proof.
  intros H Hdiff. destruct H as [|c d pre ds Hc Hrest]; simpl in *; [done|].
  rewrite Hc. simpl. by eapply every_stops_at_mismatch.
Qed.

Lemma set_backgrounds_paint (row : SpreadsheetRow) (hl : prim) :
  forall (cols : list string) (idxs : list nat) (sh : sheet),
    Forall2 (fun x i => columnNamesToIndices_ row !! x = Some i) cols idxs ->
    set_backgrounds row cols hl sh = (Ok tt, paint row hl sh idxs).
Proof.
  induction cols as [|c cols IH]; intros idxs sh H;
    inversion H as [|? i ? idxs' Hc Hrest]; subst; simpl; [done|].
  unfold getColumnIndex_. rewrite Hc. by apply IH.
Qed.

Lemma paint_frame (row : SpreadsheetRow) (hl : prim) :
  forall (idxs : list nat) (sh : sheet),
    cells (paint row hl sh idxs) = cells sh
    /\ toasts (paint row hl sh idxs) = toasts sh
    /\ (forall i, i ∈ idxs ->
          backgrounds (paint row hl sh idxs) !! (rowIndex_ row, Z.of_nat i + 1)
          = Some hl)
    /\ (forall k, (forall i, i ∈ idxs -> k <> (rowIndex_ row, Z.of_nat i + 1)) ->
          backgrounds (paint row hl sh idxs) !! k = backgrounds sh !! k).
Proof.
  induction idxs as [|j idxs IH]; intros sh; simpl.
  - repeat split; auto. intros i Hi. by apply elem_of_nil in Hi.
  - destruct (IH (setBackground_at sh (rowIndex_ row) (Z.of_nat j + 1) hl))
      as (Hcells & Htoasts & Hset & Hframe).
    split; [done|]. split; [done|]. split.
    + intros i Hi. destruct (decide (i ∈ idxs)) as [Hin|Hnin]; [by apply Hset|].
      apply elem_of_cons in Hi as [->|Hi]; [|done].
      fold (paint row hl (setBackground_at sh (rowIndex_ row) (Z.of_nat j + 1) hl) idxs).
      rewrite Hframe; [simpl; by rewrite lookup_insert_eq|].
      intros i Hi [= Heq]. apply Hnin. by replace j with i by lia.
    + intros k Hk.
      fold (paint row hl (setBackground_at sh (rowIndex_ row) (Z.of_nat j + 1) hl) idxs).
      rewrite Hframe.
      * simpl. rewrite lookup_insert_ne; [done|].
        intros <-. by apply (Hk j); [left|].
      * intros i Hi. apply Hk. by right.
Qed.

Lemma all_same_true (ds : list string) :
  all_same ds = true <-> (forall x y, x ∈ ds -> y ∈ ds -> x = y).
Proof.
  destruct ds as [|d ds]; simpl.
  - split; [|done]. intros _ x y Hx. by apply elem_of_nil in Hx.
  - rewrite forallb_forall. split.
    + intros H x y Hx Hy.
      assert (forall z, z ∈ d :: ds -> z = d) as Hd.
      { intros z Hz. apply elem_of_cons in Hz as [->|Hz]; [done|].
        apply list_elem_of_In in Hz. by apply H, bool_decide_eq_true in Hz. }
      by rewrite (Hd x Hx), (Hd y Hy).
    + intros H z Hz. apply bool_decide_eq_true. apply list_elem_of_In in Hz.
      apply H; [by right | by left].
Qed.

(** C5, amended. When the parsed list of a compared field is empty and the
    fields compared before it have one domain, so that the scan reaches it,
    [highlightMismatchFields] throws the error of [getDomain] and changes
    nothing. When every compared field has a domain and a column, the call
    returns and sets the background of every compared cell, and of no other
    cell: to the configured colour when two domains differ, to [null] (no
    background) when all domains are equal. When two of the first fields
    differ, the scan stops there and the call sets the colour on every
    compared cell, and changes no other cell, whatever the later fields
    hold. *)
Theorem highlightMismatchFields_spec (row : SpreadsheetRow) (color : prim) (sh : sheet) :
  (forall (pre post : list string) (c d : string),
      Forall (fun x => column_domain JSON_parse row x = Ok d) pre ->
      getArray JSON_parse row c = Ok [] ->
      highlightMismatchFields JSON_parse row (pre ++ c :: post) color sh
      = (Throw "Invalid `url` parameter.", sh))
  /\ (forall (columnNames ds : list string) (idxs : list nat),
      Forall2 (fun x y => column_domain JSON_parse row x = Ok y) columnNames ds ->
      Forall2 (fun x i => columnNamesToIndices_ row !! x = Some i) columnNames idxs ->
      exists (sh' : sheet) (highlightColor : prim),
        highlightMismatchFields JSON_parse row columnNames color sh = (Ok tt, sh')
        /\ ((forall x y, x ∈ ds -> y ∈ ds -> x = y) -> highlightColor = PNull)
        /\ ((exists x y, x ∈ ds /\ y ∈ ds /\ x <> y) -> highlightColor = color)
        /\ (forall i, i ∈ idxs ->
              backgrounds sh' !! (rowIndex_ row, Z.of_nat i + 1) = Some highlightColor)
        /\ (forall k, (forall i, i ∈ idxs -> k <> (rowIndex_ row, Z.of_nat i + 1)) ->
              backgrounds sh' !! k = backgrounds sh !! k)
        /\ cells sh' = cells sh /\ toasts sh' = toasts sh)
  /\ (forall (pre post ds : list string) (idxs : list nat),
      Forall2 (fun x y => column_domain JSON_parse row x = Ok y) pre ds ->
      (exists x y, x ∈ ds /\ y ∈ ds /\ x <> y) ->
      Forall2 (fun x i => columnNamesToIndices_ row !! x = Some i) (pre ++ post) idxs ->
      exists sh' : sheet,
        highlightMismatchFields JSON_parse row (pre ++ post) color sh = (Ok tt, sh')
        /\ (forall i, i ∈ idxs ->
              backgrounds sh' !! (rowIndex_ row, Z.of_nat i + 1) = Some color)
        /\ (forall k, (forall i, i ∈ idxs -> k <> (rowIndex_ row, Z.of_nat i + 1)) ->
              backgrounds sh' !! k = backgrounds sh !! k)
        /\ cells sh' = cells sh /\ toasts sh' = toasts sh).
Proof.
  split; [|split].
  - intros pre post c d Hpre Hc. unfold highlightMismatchFields.
    rewrite (every_reaches_empty row d c post Hc pre true PNull Hpre); [done | by left].
  - intros columnNames ds idxs Hds Hidx. unfold highlightMismatchFields.
    rewrite (every_from_start _ _ _ Hds).
    rewrite (set_backgrounds_paint _ _ _ _ _ Hidx).
    destruct (paint_frame row (if negb (all_same ds) then color else PNull) idxs sh)
      as (Hcells & Htoasts & Hset & Hframe).
    eexists _, _. split; [reflexivity|].
    split; [|split; [|split; [exact Hset | split; [exact Hframe | done]]]].
    + intros Hsame. apply all_same_true in Hsame. by rewrite Hsame.
    + intros (x & y & Hx & Hy & Hxy).
      destruct (all_same ds) eqn:E; [|done].
      exfalso. apply Hxy. eapply all_same_true; eauto.
  - intros pre post ds idxs Hds (x & y & Hx & Hy & Hxy) Hidx.
    unfold highlightMismatchFields.
    rewrite (every_mismatch_from_start row pre post ds Hds).
    + simpl. rewrite (set_backgrounds_paint _ _ _ _ _ Hidx).
      destruct (paint_frame row color idxs sh)
        as (Hcells & Htoasts & Hset & Hframe).
      eexists. split; [reflexivity|]. split; [exact Hset|].
      split; [exact Hframe | done].
    + destruct (all_same ds) eqn:E; [|done].
      exfalso. apply Hxy. eapply all_same_true; eauto.
Qed.

End Highlighter.

Section HighlighterExamples.

Import Sheet.

(** The two URL cells of row 5 have the domain google.com: both backgrounds
    are cleared. After the final URL, the empty tracking URL makes the call
    throw. *)
Lemma highlightMismatchFields_spec_witness :
  (exists sh',
      highlightMismatchFields Examples.JSON_parse_literal Examples.urlRow
        ["finalUrl"; "mobileFinalUrl"] Examples.highlight Examples.blankSheet
      = (Ok tt, sh')
      /\ backgrounds sh' !! (5, 2) = Some PNull
      /\ backgrounds sh' !! (5, 3) = Some PNull)
  /\ highlightMismatchFields Examples.JSON_parse_literal Examples.urlRow
       (["finalUrl"] ++ "trackingUrl" :: ["mobileFinalUrl"]) Examples.highlight
       Examples.blankSheet
     = (Throw "Invalid `url` parameter.", Examples.blankSheet).
Proof.
  destruct (highlightMismatchFields_spec Examples.JSON_parse_literal Examples.urlRow
              Examples.highlight Examples.blankSheet) as (Hthrow & Hset & _).
  split.
  - destruct (Hset ["finalUrl"; "mobileFinalUrl"] ["google.com"; "google.com"]
                [1%nat; 2%nat])
      as (sh' & hl & Hrun & Hsame & _ & Hbg & _).
    + repeat constructor.
    + repeat constructor.
    + exists sh'. split; [exact Hrun|].
      rewrite <- Hsame.
      * split; [apply (Hbg 1%nat) | apply (Hbg 2%nat)];
          repeat constructor.
      * intros x y Hx Hy.
        apply elem_of_cons in Hx as [->|Hx]; apply elem_of_cons in Hy as [->|Hy];
          try reflexivity;
          repeat match goal with
                 | H : _ ∈ [_] |- _ => apply list_elem_of_singleton in H; subst
                 end; reflexivity.
  - apply (Hthrow ["finalUrl"] ["mobileFinalUrl"] "trackingUrl" "google.com").
    + repeat constructor.
    + reflexivity.
Defined.

(** C5 as stated fails: the first compared field of row 5 is the empty
    tracking URL, its parsed list is empty, and the call throws instead of
    reporting a mismatch; no background is set. *)
Lemma highlightMismatchFields_empty_raises :
  getArray Examples.JSON_parse_literal Examples.urlRow "trackingUrl" = Ok []
  /\ highlightMismatchFields Examples.JSON_parse_literal Examples.urlRow
       ["trackingUrl"; "finalUrl"] Examples.highlight Examples.blankSheet
     = (Throw "Invalid `url` parameter.", Examples.blankSheet).
Proof. split; reflexivity. Qed.

End HighlighterExamples.

(** ** The error marks of a row *)

Section RowMarks.

Import Script.

Variable debug : bool.

Lemma array_get_set (l : list prim) (i : nat) (v : prim) :
  array_get (array_set l i v) i = v.
Proof.
  unfold array_get, array_set. destruct (decide (i < length l)%nat).
  - by rewrite list_lookup_insert_eq.
  - rewrite lookup_app_r by lia.
    rewrite lookup_app_r by (rewrite length_replicate; lia).
    rewrite length_replicate.
    by replace (i - length l - (i - length l))%nat with 0%nat by lia.
Qed.

Lemma set_eq (c : string) (v : prim) (st : rowState) :
  set c v st =
  match columnNamesToIndices_ st.1 !! c with
  | Some i =>
      (Ok tt,
       (with_values st.1 (array_set (values_ st.1) i v),
        {| rowBackground := rowBackground st.2;
           cellValue := <[(rowIndex_ st.1, Z.of_nat i + 1) := v]> (cellValue st.2);
           logger := logger st.2 |}))
  | None =>
      (Throw ("Column " +:+ Sheet.quote +:+ c +:+ Sheet.quote +:+ " does not exist."),
       st)
  end.
Proof.
  unfold set, mbind, rowM_bind, getColumnIndex_.
  by destruct (columnNamesToIndices_ st.1 !! c).
Qed.

Lemma get_eq (c : string) (st : rowState) :
  get c st =
  match columnNamesToIndices_ st.1 !! c with
  | Some i => (Ok (array_get (values_ st.1) i), st)
  | None =>
      (Throw ("Column " +:+ Sheet.quote +:+ c +:+ Sheet.quote +:+ " does not exist."),
       st)
  end.
Proof.
  unfold get, mbind, rowM_bind, getColumnIndex_.
  by destruct (columnNamesToIndices_ st.1 !! c).
Qed.

Lemma set_flag (c : string) (v : prim) (st : rowState) :
  hasErrors (set c v st).2.1 = hasErrors st.1.
Proof. rewrite set_eq. by destruct (columnNamesToIndices_ st.1 !! c). Qed.

Lemma markAsResolved_flag (st : rowState) :
  hasErrors (markAsResolved st).2.1 = hasErrors st.1.
Proof.
  unfold markAsResolved, mbind, rowM_bind. simpl. by rewrite set_flag.
Qed.

(** [markAsError], statement by statement. *)
Lemma markAsError_eq (m : jsval) (st : rowState) :
  markAsError debug m st =
  if isEmpty m || isEmptyString m
  then (Throw "Empty `messages` parameter provided. A non-empty message must be provided.",
        st)
  else
    let red :=
      (st.1, {| rowBackground := <[rowIndex_ st.1 := PStr "red"]> (rowBackground st.2);
                cellValue := cellValue st.2;
                logger := logger st.2 |}) in
    let text :=
      "- " +:+ match m with
               | Arr l => array_join (nl +:+ "- ") l
               | _ => to_string m
               end +:+ nl in
    match columnNamesToIndices_ st.1 !! "errorMessage" with
    | None =>
        (Throw ("Column " +:+ Sheet.quote +:+ "errorMessage" +:+ Sheet.quote
                +:+ " does not exist."), red)
    | Some i =>
        let v := PStr (prim_to_string (array_get (values_ st.1) i) +:+ text) in
        (Ok tt,
         ({| rowIndex_ := rowIndex_ st.1;
             columnNamesToIndices_ := columnNamesToIndices_ st.1;
             hasErrors_ := true;
             values_ := array_set (values_ st.1) i v |},
          {| rowBackground := <[rowIndex_ st.1 := PStr "red"]> (rowBackground st.2);
             cellValue := <[(rowIndex_ st.1, Z.of_nat i + 1) := v]> (cellValue st.2);
             logger := if debug then logger st.2 ++ [text] else logger st.2 |}))
    end.
Proof.
  unfold markAsError.
  destruct (isEmpty m || isEmptyString m); [done|].
  unfold mbind at 1. unfold rowM_bind at 1. simpl.
  unfold mbind at 1. unfold rowM_bind at 1. rewrite get_eq. simpl.
  destruct (columnNamesToIndices_ st.1 !! "errorMessage") as [i|] eqn:E; [|done].
  unfold mbind at 1. unfold rowM_bind at 1. rewrite set_eq. simpl. rewrite E.
  unfold mbind at 1. unfold rowM_bind at 1. unfold print. by destruct debug.
Qed.

Lemma markAsError_flag_mono (m : jsval) (st : rowState) :
  hasErrors st.1 = true -> hasErrors (markAsError debug m st).2.1 = true.
Proof.
  intros H. rewrite markAsError_eq.
  destruct (isEmpty m || isEmptyString m); [done|]. simpl.
  by destruct (columnNamesToIndices_ st.1 !! "errorMessage").
Qed.

Lemma markAsError_Ok (m : jsval) (st st1 : rowState) :
  markAsError debug m st = (Ok tt, st1) ->
  hasErrors st1.1 = true
  /\ is_Some (columnNamesToIndices_ st1.1 !! "errorMessage").
Proof.
  rewrite markAsError_eq.
  destruct (isEmpty m || isEmptyString m); [discriminate|]. simpl.
  destruct (columnNamesToIndices_ st.1 !! "errorMessage") as [i|] eqn:E;
    [|discriminate].
  intros [= <-]. simpl. rewrite E. eauto.
Qed.

(** No call on a row lowers its error flag. *)
Lemma run_ops_flag (ops : list rowOp) :
  forall st : rowState,
    hasErrors st.1 = true -> hasErrors (run_ops debug ops st).1 = true.
Proof.
  induction ops as [|o ops IH]; intros st H; simpl; [done|].
  apply IH. destruct o; simpl.
  - by rewrite set_flag.
  - by apply markAsError_flag_mono.
  - by rewrite markAsResolved_flag.
Qed.

Lemma markAsError_returns (m : jsval) (st : rowState) :
  is_Some (columnNamesToIndices_ st.1 !! "errorMessage") ->
  isEmpty m || isEmptyString m = false ->
  exists st1, markAsError debug m st = (Ok tt, st1).
Proof.
  intros [i Hi] Hm. rewrite markAsError_eq, Hm. simpl. rewrite Hi. eauto.
Qed.

(** C8. On a row that has its error message column, as the constructor
    requires, [markAsError] with a message returns and sets the error
    flag. [markAsResolved] on that row then returns; it empties the error
    text, in the row and in the sheet, and clears the background of the
    row, and it changes nothing else: the other values, the log and the
    error flag are as they were, so [hasErrors] is still true. It is still
    true after [markAsResolved] when any calls of [set], [markAsError] and
    [markAsResolved] came in between. *)
Theorem markAsResolved_keeps_hasErrors (m : jsval) (ops : list rowOp)
    (st : rowState) :
  is_Some (columnNamesToIndices_ st.1 !! "errorMessage") ->
  isEmpty m || isEmptyString m = false ->
  exists (st1 st2 : rowState) (i : nat),
    markAsError debug m st = (Ok tt, st1)
    /\ hasErrors st1.1 = true
    /\ markAsResolved st1 = (Ok tt, st2)
    /\ hasErrors st2.1 = true
    /\ columnNamesToIndices_ st1.1 !! "errorMessage" = Some i
    /\ st2.1 = with_values st1.1 (array_set (values_ st1.1) i (PStr EmptyString))
    /\ get "errorMessage" st2 = (Ok (PStr EmptyString), st2)
    /\ rowBackground st2.2 = <[rowIndex_ st1.1 := PNull]> (rowBackground st1.2)
    /\ cellValue st2.2
       = <[(rowIndex_ st1.1, Z.of_nat i + 1) := PStr EmptyString]> (cellValue st1.2)
    /\ logger st2.2 = logger st1.2
    /\ hasErrors (markAsResolved (run_ops debug ops st1)).2.1 = true.
Proof.
  intros Hcol Hm. destruct (markAsError_returns m st Hcol Hm) as [st1 H].
  destruct (markAsError_Ok _ _ _ H) as (Hflag & [i Hi]).
  exists st1. eexists _, i. split; [exact H|]. split; [exact Hflag|].
  split.
  { unfold markAsResolved, mbind, rowM_bind. simpl. rewrite set_eq. simpl.
    rewrite Hi. reflexivity. }
  simpl. split; [done|]. split; [done|]. split; [done|].
  split; [|split; [done|split; [done|split; [done|]]]].
  - rewrite get_eq. simpl. rewrite Hi. by rewrite array_get_set.
  - rewrite markAsResolved_flag. by apply run_ops_flag.
Qed.

End RowMarks.

Section RowMarksExamples.

Import Script.

(** Row 7 is marked with an error, then resolved: the flag stays. *)
Lemma markAsResolved_keeps_hasErrors_witness :
  hasErrors Examples.freshRow.1 = false
  /\ exists st1 st2 : rowState,
       markAsError true (PStr "Error syncing status") Examples.freshRow = (Ok tt, st1)
       /\ markAsResolved st1 = (Ok tt, st2)
       /\ hasErrors st2.1 = true.
Proof.
  split; [reflexivity|].
  destruct (markAsResolved_keeps_hasErrors true (PStr "Error syncing status") []
              Examples.freshRow)
    as (st1 & st2 & i & Herr & _ & Hres & Hflag & _).
  - exists 2%nat. reflexivity.
  - reflexivity.
  - exists st1, st2. auto.
Defined.

End RowMarksExamples.

(** ** Validation of a row parsed for creation *)

Section CreationValidation.

Import Script.

Lemma check_keys_strings (kvs : list (string * jsval)) :
  forall n : nat,
    (exists k, check_keys kvs [Prim (PStr "string")] n = inr k)
    <-> Forall (fun kv => exists s, kv.2 = Prim (PStr s)) kvs.
Proof.
  induction kvs as [|[key value] kvs IH]; intros n; simpl.
  - split; [constructor | eauto].
  - destruct value as [[| |b|z|s]|l|o]; simpl;
      try (split; [intros [k Hk]; discriminate
                  | intros H; inversion H as [|? ? [s Hs] _]; discriminate]).
    rewrite IH. split.
    + intros H. constructor; [eauto | done].
    + intros H. by inversion H.
Qed.

Lemma isValidParamsObject_accepts (cp : jsval) :
  owns_hasOwnProperty cp = false ->
  exists r,
    isValidParamsObject cp (Arr [Prim (PStr "string")]) false = Ok r
    /\ (success r = true <-> params_accepted cp).
Proof.
  intros Hown. unfold isValidParamsObject, params_accepted, flat_string_map. simpl.
  destruct cp as [[| |b|z|s]|l|kvs]; simpl.
  - eexists; split; [done|]. simpl. split; auto.
  - eexists; split; [done|]. simpl. split; auto.
  - eexists; split; [done|]. simpl. split; [done|].
    intros [?|[?|[[s [? _]]|[kvs [? _]]]]]; discriminate.
  - eexists; split; [done|]. simpl. split; [done|].
    intros [?|[?|[[s [? _]]|[kvs [? _]]]]]; discriminate.
  - destruct (decide (trim s = EmptyString)) as [Ht|Ht].
    + rewrite bool_decide_eq_true_2 by done. eexists; split; [done|]. simpl.
      split; [|done]. intros _. right. right. left. eauto.
    + rewrite bool_decide_eq_false_2 by done. eexists; split; [done|]. simpl.
      split; [done|].
      intros [?|[?|[[s' [[= <-] ?]]|[kvs [? _]]]]]; done.
  - eexists; split; [done|]. simpl. split; [done|].
    intros [?|[?|[[s [? _]]|[kvs [? _]]]]]; discriminate.
  - simpl in Hown. rewrite Hown.
    destruct (check_keys kvs [Prim (PStr "string")] 0) as [msg|k] eqn:E.
    + eexists; split; [done|]. simpl. split; [done|].
      intros [?|[?|[[s [? _]]|[kvs' [[= <-] Hall]]]]]; try done.
      apply (check_keys_strings kvs 0%nat) in Hall as [k Hk]. congruence.
    + eexists; split; [done|]. simpl. split; [|done]. intros _.
      right. right. right. exists kvs. split; [done|].
      apply (check_keys_strings kvs 0%nat). eauto.
Qed.

Lemma elem_of_push_if (c : bool) (m x : string) (l : list string) :
  x ∈ push_if c m l <-> x ∈ l \/ (c = true /\ x = m).
Proof.
  unfold push_if. destruct c.
  - rewrite elem_of_app, list_elem_of_singleton. tauto.
  - split; [by left | by intros [?|[? _]]].
Qed.

Lemma push_if_nil (c : bool) (m : string) (l : list string) :
  push_if c m l = [] <-> l = [] /\ c = false.
Proof.
  unfold push_if. destruct c.
  - split; [intros H; by apply app_eq_nil in H as [_ ?] | by intros [_ ?]].
  - tauto.
Qed.

Lemma truthy_string (s : string) : truthy (PStr s) = true <-> s <> EmptyString.
Proof.
  simpl. destruct (decide (s = EmptyString)).
  - by rewrite bool_decide_eq_true_2.
  - by rewrite bool_decide_eq_false_2.
Qed.

Lemma cond_missing (l : list jsval) :
  negb (truthy (Arr l)) || (length l <? 1)%nat = true <-> length l = 0%nat.
Proof.
  simpl. destruct (Nat.ltb_spec (length l) 1); split; intros; try done; lia.
Qed.

Lemma cond_many (l : list jsval) :
  truthy (Arr l) && (1 <? length l)%nat = true <-> (1 < length l)%nat.
Proof.
  simpl. destruct (Nat.ltb_spec 1 (length l)); split; intros; try done; lia.
Qed.

Lemma cond_empty (s : string) :
  negb (truthy (PStr s)) = true <-> s = EmptyString.
Proof.
  simpl. destruct (decide (s = EmptyString)).
  - by rewrite bool_decide_eq_true_2.
  - by rewrite bool_decide_eq_false_2.
Qed.

Lemma cond_path (p1 p2 : string) :
  truthy (PStr p2) && negb (truthy (PStr p1)) = true
  <-> p2 <> EmptyString /\ p1 = EmptyString.
Proof. rewrite andb_true_iff, cond_empty, truthy_string. tauto. Qed.

(** An error message is in the list when its rule pushed it: the messages
    are pairwise different. *)
Ltac err_mem :=
  rewrite !elem_of_push_if, elem_of_nil;
  unfold err_finalUrl_missing, err_finalUrl_many, err_headline1, err_headline2,
    err_description, err_path1, err_mobile, err_customParameters;
  split;
  [ intros H; repeat (destruct H as [H|H]); try done;
    destruct H as [H ?]; try discriminate; exact H
  | intros H; tauto ].

(** C4, amended. For a parsed row whose custom parameters do not own a key
    named hasOwnProperty, [isValidForETACreation] returns, and its error
    list is empty exactly when: the row has exactly one final URL; headline
    1, headline 2 and the description are not empty; path 2 is set only
    when path 1 is; there is at most one mobile final URL; and the custom
    parameters are absent ([null] or [undefined]), a blank string, or a flat
    mapping from strings to strings. Each rule that is violated, and no
    other, has its message in the list. *)
Theorem isValidForETACreation_spec (o : etaObjT) :
  owns_hasOwnProperty (customParameters o) = false ->
  exists r,
    isValidForETACreation o = Ok r
    /\ (errors r = [] <->
        length (finalURLs o) = 1%nat
        /\ headline1 o <> EmptyString
        /\ headline2 o <> EmptyString
        /\ description o <> EmptyString
        /\ (path2 o <> EmptyString -> path1 o <> EmptyString)
        /\ (length (mobileFinalURLs o) <= 1)%nat
        /\ params_accepted (customParameters o))
    /\ (err_finalUrl_missing ∈ errors r <-> length (finalURLs o) = 0%nat)
    /\ (err_finalUrl_many ∈ errors r <-> (1 < length (finalURLs o))%nat)
    /\ (err_headline1 ∈ errors r <-> headline1 o = EmptyString)
    /\ (err_headline2 ∈ errors r <-> headline2 o = EmptyString)
    /\ (err_description ∈ errors r <-> description o = EmptyString)
    /\ (err_path1 ∈ errors r <->
        path2 o <> EmptyString /\ path1 o = EmptyString)
    /\ (err_mobile ∈ errors r <-> (1 < length (mobileFinalURLs o))%nat)
    /\ (err_customParameters ∈ errors r <->
        ~ params_accepted (customParameters o)).
Proof.
  intros Hown.
  destruct (isValidParamsObject_accepts _ Hown) as (pr & Hpr & Hacc).
  unfold isValidForETACreation. rewrite Hpr.
  eexists. split; [reflexivity|]. cbn [mbind result_bind errors].
  split.
  { rewrite !push_if_nil.
    rewrite <- !not_true_iff_false, cond_missing, cond_many, !cond_empty,
      cond_path, cond_many.
    rewrite negb_true_iff, not_false_iff_true, Hacc.
    split.
    - intros H. destruct_and!.
      repeat split; try done; try lia.
      intros ?. destruct (decide (path1 o = EmptyString)); [tauto | done].
    - intros H. destruct_and!.
      repeat split; try done; try lia. tauto. }
  split; [rewrite <- cond_missing; err_mem|].
  split; [rewrite <- cond_many; err_mem|].
  split; [rewrite <- cond_empty; err_mem|].
  split; [rewrite <- cond_empty; err_mem|].
  split; [rewrite <- cond_empty; err_mem|].
  split; [rewrite <- cond_path; err_mem|].
  split; [rewrite <- cond_many; err_mem|].
  rewrite <- Hacc, not_true_iff_false, <- negb_true_iff. err_mem.
Qed.

(** A row that meets every rule is accepted. *)
Lemma isValidForETACreation_spec_witness :
  exists r,
    isValidForETACreation Examples.validEta = Ok r /\ errors r = [].
Proof.
  destruct (isValidForETACreation_spec Examples.validEta eq_refl)
    as (r & Hrun & Hvalid & _).
  exists r. split; [exact Hrun|].
  apply Hvalid. repeat split; try discriminate.
  - simpl. lia.
  - by left.
Defined.

(** C4 as stated fails: a row whose custom parameters are a string of two
    spaces, which is no mapping, is accepted; so is a row whose custom
    parameters are [null]. And a row that meets every rule, its custom
    parameters a mapping from strings to strings that owns the key
    [hasOwnProperty], is not accepted: the call raises. *)
Lemma isValidForETACreation_accepts_no_mapping :
  isValidForETACreation Examples.blankParamsEta
  = Ok {| ad_created := None; errors := [] |}
  /\ customParameters Examples.blankParamsEta = Prim (PStr "  ")
  /\ isValidForETACreation Examples.validEta
     = Ok {| ad_created := None; errors := [] |}
  /\ customParameters Examples.validEta = Prim PNull
  /\ isValidForETACreation Examples.shadowParamsEta = Raise TypeError
  /\ customParameters Examples.shadowParamsEta
     = Obj [("hasOwnProperty", Prim (PStr "x"))].
Proof. repeat split; reflexivity. Qed.

End CreationValidation.

(** ** Status sync *)

Section StatusSync.

Import Script.

Lemma getStatus_resolved (this : Ad) (p : platform) (h : nat) (a : AdWordsAd) :
  ad this = Some h -> ads p !! h = Some a ->
  getStatus this p
  = Ok (PStr (if 0 <? getId a
              then if isEnabled a then ENABLED
                   else if isPaused a then PAUSED
                   else EmptyString
              else EmptyString)).
Proof. intros Hh Ha. unfold getStatus. by rewrite Hh, Ha. Qed.

Lemma toLowerCase_empty (s : string) : toLowerCase s = EmptyString -> s = EmptyString.
Proof. by destruct s. Qed.

Lemma normalized_nonempty (s : string) :
  isEmptyString (PStr s) = false -> toLowerCase (trim s) <> EmptyString.
Proof.
  simpl. intros Hb Hn. apply toLowerCase_empty in Hn.
  by rewrite bool_decide_eq_true_2 in Hb.
Qed.

(** The first of two calls on an ad that is resolved: one mutation. *)
Lemma syncStatus_try_accepts (n : string) (this : Ad) (p : platform) (h : nat)
    (a : AdWordsAd) :
  ad this = Some h -> ads p !! h = Some a ->
  0 <= getId a -> rejects a = false ->
  n = ENABLED \/ n = PAUSED ->
  syncStatus_try n this p
  = (true, set_adState h (target_state n) (target_call n h) p).
Proof.
  intros Hh Ha Hid Hrej Hn. unfold syncStatus_try. rewrite Hh, Ha.
  destruct (Z.ltb_spec (getId a) 0); [lia|].
  unfold enable, pause, target_state, target_call. rewrite Ha, Hrej.
  destruct Hn as [Hn|Hn]; rewrite Hn; reflexivity.
Qed.

(** The second call: the status is the declared one. *)
Lemma syncStatus_after (s : string) (this : Ad) (p : platform) (h : nat)
    (a : AdWordsAd) :
  isEmptyString (PStr s) = false ->
  ad this = Some h -> ads p !! h = Some a ->
  0 < getId a ->
  toLowerCase (trim s) = ENABLED \/ toLowerCase (trim s) = PAUSED ->
  let p1 := set_adState h (target_state (toLowerCase (trim s)))
              (target_call (toLowerCase (trim s)) h) p in
  syncStatus (PStr s) this p1 = Ok (true, this, p1).
Proof.
  intros Hb Hh Ha Hid Hn p1. unfold syncStatus. rewrite Hb.
  erewrite getStatus_resolved; [|exact Hh|].
  2: { subst p1. simpl. rewrite lookup_alter_eq, Ha. reflexivity. }
  simpl. destruct (Z.ltb_spec 0 (getId a)); [|lia].
  unfold target_state, isEnabled, isPaused.
  destruct Hn as [Hn|Hn]; rewrite Hn; reflexivity.
Qed.

(** C2, amended. For a declared status that is not blank. When the
    current status equals its trimmed, lower-cased form, the call returns
    success and changes nothing. When the ad is resolved on the platform,
    or is known from its report row only and [getAd] finds it, with a
    positive identifier, the platform accepts the call, the normalized
    status is enabled or paused and differs from the current status, the
    first call carries out exactly one mutation and a second call with the
    same status returns success and carries out none. When the normalized
    status is neither enabled nor paused and the identifier of the ad is
    not negative, or [getAd] finds no ad, the call returns failure and
    changes nothing. *)
Theorem syncStatus_spec :
  (forall (s : string) (this : Ad) (p : platform),
      isEmptyString (PStr s) = false ->
      getStatus this p = Ok (PStr (toLowerCase (trim s))) ->
      syncStatus (PStr s) this p = Ok (true, this, p))
  /\ (forall (s : string) (this : Ad) (p : platform) (h : nat) (a : AdWordsAd),
      isEmptyString (PStr s) = false ->
      ad this = Some h -> ads p !! h = Some a ->
      0 < getId a -> rejects a = false ->
      toLowerCase (trim s) = ENABLED \/ toLowerCase (trim s) = PAUSED ->
      getStatus this p <> Ok (PStr (toLowerCase (trim s))) ->
      exists p1,
        syncStatus (PStr s) this p = Ok (true, this, p1)
        /\ mutations p1 = mutations p ++ [target_call (toLowerCase (trim s)) h]
        /\ syncStatus (PStr s) this p1 = Ok (true, this, p1))
  /\ (forall (s : string) (this : Ad) (p : platform) (h : nat) (a : AdWordsAd),
      isEmptyString (PStr s) = false ->
      ad this = Some h -> ads p !! h = Some a ->
      0 <= getId a ->
      toLowerCase (trim s) <> ENABLED -> toLowerCase (trim s) <> PAUSED ->
      syncStatus (PStr s) this p = Ok (false, this, p))
  /\ (forall (s : string) (this : Ad) (p : platform) (h : nat) (a : AdWordsAd),
      isEmptyString (PStr s) = false ->
      ad this = None ->
      isEmptyString (row_status (row this)) = false ->
      row_status (row this) <> PStr (toLowerCase (trim s)) ->
      isEmptyString (row_adGroupId (row this))
      || isEmptyString (row_id (row this)) = false ->
      withIds p (row_adGroupId (row this)) (row_id (row this)) = Some h ->
      ads p !! h = Some a ->
      0 < getId a -> rejects a = false ->
      toLowerCase (trim s) = ENABLED \/ toLowerCase (trim s) = PAUSED ->
      exists p1,
        syncStatus (PStr s) this p = Ok (true, resolved_as this h, p1)
        /\ mutations p1 = mutations p ++ [target_call (toLowerCase (trim s)) h]
        /\ syncStatus (PStr s) (resolved_as this h) p1
           = Ok (true, resolved_as this h, p1))
  /\ (forall (s : string) (this : Ad) (p : platform),
      isEmptyString (PStr s) = false ->
      ad this = None ->
      isEmptyString (row_status (row this)) = false ->
      row_status (row this) <> PStr (toLowerCase (trim s)) ->
      isEmptyString (row_adGroupId (row this))
      || isEmptyString (row_id (row this)) = false ->
      (withIds p (row_adGroupId (row this)) (row_id (row this)) = None ->
         syncStatus (PStr s) this p = Ok (false, this, p))
      /\ (forall (h : nat) (a : AdWordsAd),
            withIds p (row_adGroupId (row this)) (row_id (row this)) = Some h ->
            ads p !! h = Some a ->
            0 <= getId a ->
            toLowerCase (trim s) <> ENABLED -> toLowerCase (trim s) <> PAUSED ->
            syncStatus (PStr s) this p = Ok (false, resolved_as this h, p))).
Proof.
  split; [|split; [|split; [|split]]].
  - intros s this p Hb Hcur. unfold syncStatus. rewrite Hb, Hcur. simpl.
    unfold strict_eq. by rewrite bool_decide_eq_true_2.
  - intros s this p h a Hb Hh Ha Hid Hrej Hn Hcur.
    set (n := toLowerCase (trim s)) in *.
    eexists. split; [|split; [|by apply (syncStatus_after s this p h a)]].
    + unfold syncStatus. rewrite Hb. fold n.
      rewrite (getStatus_resolved _ _ _ _ Hh Ha) in *. simpl.
      unfold strict_eq. rewrite bool_decide_eq_false_2 by congruence.
      unfold hasAdWordsAppAd. rewrite Hh. simpl.
      rewrite (syncStatus_try_accepts n this p h a Hh Ha) by (done || lia).
      reflexivity.
    + done.
  - intros s this p h a Hb Hh Ha Hid Hne Hnp.
    pose proof (normalized_nonempty s Hb) as Hnn.
    unfold syncStatus. rewrite Hb.
    rewrite (getStatus_resolved _ _ _ _ Hh Ha). simpl.
    unfold strict_eq. rewrite bool_decide_eq_false_2.
    2: { intros [= Heq].
         destruct (0 <? getId a), (isEnabled a), (isPaused a); congruence. }
    unfold hasAdWordsAppAd. rewrite Hh. simpl.
    unfold syncStatus_try. rewrite Hh, Ha.
    destruct (Z.ltb_spec (getId a) 0); [lia|].
    by rewrite !bool_decide_eq_false_2.
  - intros s this p h a Hb Had Hrow Hcur Hids Hfound Ha Hid Hrej Hn.
    set (n := toLowerCase (trim s)) in *.
    eexists. split; [|split].
    + unfold syncStatus. rewrite Hb. fold n.
      unfold getStatus, hasAdWordsAppAd. rewrite Had, Hrow.
      cbn [negb mbind result_bind]. unfold strict_eq.
      rewrite bool_decide_eq_false_2 by done.
      unfold getAd. rewrite Hids, Hfound. cbn [mbind result_bind negb].
      fold (resolved_as this h).
      rewrite (syncStatus_try_accepts n (resolved_as this h) p h a eq_refl Ha)
        by (done || lia).
      reflexivity.
    + done.
    + by apply (syncStatus_after s (resolved_as this h) p h a).
  - intros s this p Hb Had Hrow Hcur Hids.
    unfold syncStatus. rewrite Hb.
    unfold getStatus, hasAdWordsAppAd. rewrite Had, Hrow.
    cbn [negb mbind result_bind]. unfold strict_eq.
    rewrite bool_decide_eq_false_2 by done.
    unfold getAd. rewrite Hids. split.
    + intros Hnone. by rewrite Hnone.
    + intros h a Hfound Ha Hid Hne Hnp. rewrite Hfound.
      cbn [mbind result_bind negb]. fold (resolved_as this h).
      unfold syncStatus_try. cbn [resolved_as ad]. rewrite Ha.
      destruct (Z.ltb_spec (getId a) 0); [lia|].
      pose proof (normalized_nonempty s Hb) as Hnn.
      by rewrite !bool_decide_eq_false_2.
Qed.

(** The paused ad 10 is enabled by one mutation; the second call with the
    same status is a no-op. The status disabled is refused. The ad of a
    report row, found by the selector, is enabled by one mutation. *)
Lemma syncStatus_spec_witness :
  (exists p1,
      syncStatus (PStr " Enabled") Examples.pausedAd Examples.examplePlatform
      = Ok (true, Examples.pausedAd, p1)
      /\ mutations p1 = [Enable 0]
      /\ syncStatus (PStr " Enabled") Examples.pausedAd p1
         = Ok (true, Examples.pausedAd, p1))
  /\ syncStatus (PStr "paused") Examples.pausedAd Examples.examplePlatform
     = Ok (true, Examples.pausedAd, Examples.examplePlatform)
  /\ syncStatus (PStr "disabled") Examples.pausedAd Examples.examplePlatform
     = Ok (false, Examples.pausedAd, Examples.examplePlatform)
  /\ (exists p1,
        syncStatus (PStr "enabled") Examples.reportAd Examples.findingPlatform
        = Ok (true, resolved_as Examples.reportAd 0, p1)
        /\ mutations p1 = [Enable 0]
        /\ syncStatus (PStr "enabled") (resolved_as Examples.reportAd 0) p1
           = Ok (true, resolved_as Examples.reportAd 0, p1))
  /\ syncStatus (PStr "disabled") Examples.reportAd Examples.examplePlatform
     = Ok (false, Examples.reportAd, Examples.examplePlatform).
Proof.
  destruct syncStatus_spec as (Hsame & Htwice & Hunknown & Hfound & Hreport).
  split; [|split; [|split; [|split]]].
  - apply (Htwice " Enabled" Examples.pausedAd Examples.examplePlatform 0%nat
             Examples.pausedRemoteAd);
      [reflexivity | reflexivity | reflexivity | simpl; lia | reflexivity
      | left; reflexivity | discriminate].
  - apply Hsame; reflexivity.
  - apply (Hunknown "disabled" Examples.pausedAd Examples.examplePlatform 0%nat
             Examples.pausedRemoteAd);
      [reflexivity | reflexivity | reflexivity | simpl; lia
      | discriminate | discriminate].
  - apply (Hfound "enabled" Examples.reportAd Examples.findingPlatform 0%nat
             Examples.pausedRemoteAd);
      [reflexivity | reflexivity | reflexivity | discriminate | reflexivity
      | reflexivity | reflexivity | simpl; lia | reflexivity | left; reflexivity].
  - apply (Hreport "disabled" Examples.reportAd Examples.examplePlatform);
      [reflexivity | reflexivity | reflexivity | discriminate | reflexivity
      | reflexivity].
Defined.

(** C2 as stated fails three times. The empty status is not mapped to
    paused: the call throws. Two calls with the status an ad already has
    carry out no mutation, not one. And an unknown status on an ad of a
    preview run (negative identifier) returns success. *)
Lemma syncStatus_exceptions :
  syncStatus (PStr EmptyString) Examples.pausedAd Examples.examplePlatform
  = Throw "Incorrect status parameter."
  /\ (r1 ← syncStatus (PStr "enabled") Examples.enabledAd Examples.examplePlatform;
      r2 ← syncStatus (PStr "enabled") r1.1.2 r1.2;
      Ok (r2.1.1, mutations r2.2)) = Ok (true, [])
  /\ (r ← syncStatus (PStr "bogus") Examples.previewAd Examples.examplePlatform;
      Ok (r.1.1, mutations r.2)) = Ok (true, []).
Proof. repeat split; reflexivity. Qed.

End StatusSync.

(** ** Label diff *)

Section LabelDiff.

Import Script.

Variable JSON_parse : string -> option jsval.

Lemma has_label_elem_of (l : list string) (t : string) :
  has_label (map (fun n => Prim (PStr n)) l) t = bool_decide (t ∈ l).
Proof.
  unfold has_label. induction l as [|x l IH]; cbn [map existsb].
  - symmetry. apply bool_decide_eq_false_2, not_elem_of_nil.
  - rewrite IH. destruct (decide (x = t)) as [->|Hne].
    + rewrite (bool_decide_eq_true_2 (t = t)) by done.
      symmetry. apply bool_decide_eq_true_2. by left.
    + rewrite (bool_decide_eq_false_2 (x = t)) by done. cbn [orb].
      apply bool_decide_ext. rewrite elem_of_cons.
      split; [by right | by intros [->|?]].
Qed.

Lemma diff_add_eq (cur : list string) :
  forall (news : list string) (d : labelDiff),
    diff_add (map (fun n => Prim (PStr n)) news) (map (fun n => Prim (PStr n)) cur) d
    = Ok {| add := add d ++ filter (fun t => t ∉ cur) (trim <$> news);
            remove := remove d;
            hasDiff :=
              hasDiff d
              || bool_decide (filter (fun t => t ∉ cur) (trim <$> news) <> []) |}.
Proof.
  induction news as [|n news IH]; intros d.
  - simpl. rewrite app_nil_r, orb_false_r. by destruct d.
  - cbn [map diff_add]. rewrite IH, has_label_elem_of, fmap_cons, filter_cons.
    destruct (decide (trim n ∈ cur)) as [Hin|Hnin].
    + rewrite bool_decide_eq_true_2 by done. simpl.
      by rewrite decide_False by (intros H; by apply H).
    + rewrite bool_decide_eq_false_2 by done. simpl.
      rewrite decide_True by done. rewrite <- app_assoc. simpl.
      f_equal. f_equal. by rewrite orb_true_r.
Qed.

Lemma diff_remove_eq (news : list string) :
  forall (cur : list string) (d : labelDiff),
    diff_remove (map (fun n => Prim (PStr n)) cur) (map (fun n => Prim (PStr n)) news) d
    = Ok {| add := add d;
            remove := remove d ++ filter (fun t => t ∉ news) (trim <$> cur);
            hasDiff :=
              hasDiff d
              || bool_decide (filter (fun t => t ∉ news) (trim <$> cur) <> []) |}.
Proof.
  induction cur as [|n cur IH]; intros d.
  - simpl. rewrite app_nil_r, orb_false_r. by destruct d.
  - cbn [map diff_remove]. rewrite IH, has_label_elem_of, fmap_cons, filter_cons.
    destruct (decide (trim n ∈ news)) as [Hin|Hnin].
    + rewrite bool_decide_eq_true_2 by done. simpl.
      by rewrite decide_False by (intros H; by apply H).
    + rewrite bool_decide_eq_false_2 by done. simpl.
      rewrite decide_True by done. rewrite <- app_assoc. simpl.
      f_equal. f_equal. by rewrite orb_true_r.
Qed.

Lemma trimmed_fmap (l : list string) :
  Forall (fun s => trim s = s) l -> trim <$> l = l.
Proof. induction 1 as [|x l Hx _ IH]; [done|]. by rewrite fmap_cons, Hx, IH. Qed.

Lemma filter_none {A : Type} (P : A -> Prop) `{forall x, Decision (P x)} (l : list A) :
  (forall x, x ∈ l -> ~ P x) -> filter P l = [].
Proof.
  induction l as [|x l IH]; intros Hall; [done|].
  rewrite filter_cons, decide_False by (apply Hall; left).
  apply IH. intros y Hy. apply Hall. by right.
Qed.

Lemma Forall_filter_keep {A : Type} (Q P : A -> Prop) `{forall x, Decision (P x)}
    (l : list A) :
  Forall Q l -> Forall Q (filter P l).
Proof.
  rewrite !Forall_forall. intros Hall x Hx.
  apply list_elem_of_filter in Hx as [_ Hx]. by apply Hall.
Qed.

(** What [diffLabels_] computes on two lists of strings. *)
Lemma diffLabels__eq (this : Ad) (p : platform) (current target : list string) :
  getLabels JSON_parse this p = Ok (labels_array current) ->
  diffLabels_ JSON_parse (labels_array target) this p
  = Ok {| add := filter (fun t => t ∉ current) (trim <$> target);
          remove := filter (fun t => t ∉ target) (trim <$> current);
          hasDiff :=
            bool_decide (filter (fun t => t ∉ current) (trim <$> target) <> [])
            || bool_decide (filter (fun t => t ∉ target) (trim <$> current) <> []) |}.
Proof.
  intros Hcur. unfold diffLabels_, labels_array. rewrite Hcur. simpl.
  rewrite diff_add_eq. simpl. by rewrite diff_remove_eq.
Qed.

(** C6, amended. For label lists whose labels carry no leading or trailing
    white space, [diffLabels_] returns: in [add] the target labels that are
    not among the current ones, in [remove] the current labels that are not
    among the target ones, each in its order, and [hasDiff] true exactly
    when one of the two is not empty; and for an entity that carries the
    current labels with [remove] dropped and [add] appended, the diff
    against the same target is empty, [hasDiff] false. *)
Theorem diffLabels_converges (this : Ad) (p : platform) (current target : list string) :
  getLabels JSON_parse this p = Ok (labels_array current) ->
  Forall (fun s => trim s = s) current ->
  Forall (fun s => trim s = s) target ->
  exists d,
    diffLabels_ JSON_parse (labels_array target) this p = Ok d
    /\ add d = filter (fun t => t ∉ current) target
    /\ remove d = filter (fun t => t ∉ target) current
    /\ (hasDiff d = true <-> add d <> [] \/ remove d <> [])
    /\ (forall (this' : Ad) (p' : platform),
          getLabels JSON_parse this' p' = Ok (labels_array (applyDiff current d)) ->
          diffLabels_ JSON_parse (labels_array target) this' p'
          = Ok {| add := []; remove := []; hasDiff := false |}).
Proof.
  intros Hcur Htc Htt.
  eexists. split; [by apply diffLabels__eq|]. cbn [add remove hasDiff].
  rewrite (trimmed_fmap _ Htc), (trimmed_fmap _ Htt).
  split; [done|]. split; [done|]. split.
  - rewrite orb_true_iff, !bool_decide_eq_true. tauto.
  - intros this' p' Hcur'. rewrite (diffLabels__eq _ _ _ _ Hcur').
    unfold applyDiff. cbn [add remove hasDiff].
    assert (Forall (fun s => trim s = s)
              (filter (fun l => l ∉ filter (fun t => t ∉ target) current) current
               ++ filter (fun t => t ∉ current) target)) as Htr.
    { apply Forall_app. split; by apply Forall_filter_keep. }
    rewrite (trimmed_fmap _ Htr), (trimmed_fmap _ Htt).
    assert (filter
              (fun t => t ∉ filter (fun l => l ∉ filter (fun t0 => t0 ∉ target) current)
                              current
                            ++ filter (fun t0 => t0 ∉ current) target) target = [])
      as ->.
    { apply filter_none. intros x Hx Hn. apply Hn.
      apply elem_of_app.
      destruct (decide (x ∈ current)) as [Hc|Hc];
        [left | right; by apply list_elem_of_filter].
      apply list_elem_of_filter. split; [|done].
      intros Hr. apply list_elem_of_filter in Hr as [Hr _]. by apply Hr. }
    assert (filter (fun t => t ∉ target)
              (filter (fun l => l ∉ filter (fun t0 => t0 ∉ target) current) current
               ++ filter (fun t0 => t0 ∉ current) target) = []) as ->.
    { apply filter_none. intros x Hx Hn. apply Hn.
      apply elem_of_app in Hx as [Hx|Hx];
        apply list_elem_of_filter in Hx as [Hx1 Hx2].
      - destruct (decide (x ∈ target)) as [Ht|Ht]; [done|].
        exfalso. apply Hx1. by apply list_elem_of_filter.
      - done. }
    done.
Qed.

End LabelDiff.

Section LabelDiffExamples.

Import Script.

(** The paused ad carries the label ETA; against the target ETA and New,
    the label New is to be added and nothing is to be removed. *)
Lemma diffLabels_converges_witness :
  exists d,
    diffLabels_ Examples.JSON_parse_literal (labels_array ["ETA"; "New"])
      Examples.pausedAd Examples.examplePlatform = Ok d
    /\ add d = ["New"] /\ remove d = [].
Proof.
  destruct (diffLabels_converges Examples.JSON_parse_literal Examples.pausedAd
              Examples.examplePlatform ["ETA"] ["ETA"; "New"])
    as (d & Hrun & Hadd & Hremove & _).
  - reflexivity.
  - repeat constructor.
  - repeat constructor.
  - exists d. split; [exact Hrun|]. split.
    + rewrite Hadd. reflexivity.
    + rewrite Hremove. reflexivity.
Defined.

(** C6 as stated fails: against a target that holds the label a with a
    leading space, an ad with no label is to get the label a, which is not
    the target label; and the ad that carries a after the diff was applied
    still differs from the target: a is to be removed. *)
Lemma diffLabels_padded_diverges :
  getLabels Examples.JSON_parse_literal Examples.previewAd Examples.examplePlatform
  = Ok (labels_array [])
  /\ diffLabels_ Examples.JSON_parse_literal (labels_array [" a"]) Examples.previewAd
       Examples.examplePlatform
     = Ok {| add := ["a"]; remove := []; hasDiff := true |}
  /\ applyDiff [] {| add := ["a"]; remove := []; hasDiff := true |} = ["a"]
  /\ getLabels Examples.JSON_parse_literal Examples.labelledAd Examples.examplePlatform
     = Ok (labels_array ["a"])
  /\ diffLabels_ Examples.JSON_parse_literal (labels_array [" a"]) Examples.labelledAd
       Examples.examplePlatform
     = Ok {| add := []; remove := ["a"]; hasDiff := true |}.
Proof. repeat split; reflexivity. Qed.

End LabelDiffExamples.

(** ** The hash of a bucket key *)

Section HashCode.

Import Sheet.

Lemma to_int32_range (z : Z) : - 2 ^ 31 <= to_int32 z < 2 ^ 31.
Proof.
  unfold to_int32. pose proof (Z.mod_pos_bound (z + 2 ^ 31) (2 ^ 32)). lia.
Qed.

Lemma to_int32_eqm (a b : Z) :
  (a - b) mod 2 ^ 32 = 0 -> to_int32 a = to_int32 b.
Proof.
  intros H. unfold to_int32. f_equal.
  apply Z.mod_divide in H; [|lia]. destruct H as [k Hk].
  replace (a + 2 ^ 31) with (b + 2 ^ 31 + k * 2 ^ 32) by lia.
  apply Z.mod_add. lia.
Qed.

Lemma to_int32_sub_mod (z : Z) : (to_int32 z - z) mod 2 ^ 32 = 0.
Proof.
  unfold to_int32. apply Z.mod_divide; [lia|].
  exists (- ((z + 2 ^ 31) / 2 ^ 32)).
  pose proof (Z.div_mod (z + 2 ^ 31) (2 ^ 32)). lia.
Qed.

Lemma hash_step_poly (h x c : Z) :
  (h - x) mod 2 ^ 32 = 0 ->
  (to_int32 (to_int32 (Z.shiftl h 5) - h + c) - (31 * x + c)) mod 2 ^ 32 = 0.
Proof.
  intros H. rewrite Z.shiftl_mul_pow2 by lia.
  apply Z.mod_divide in H; [|lia]. destruct H as [k Hk].
  pose proof (to_int32_sub_mod (h * 2 ^ 5)) as H1.
  pose proof (to_int32_sub_mod (to_int32 (h * 2 ^ 5) - h + c)) as H2.
  apply Z.mod_divide in H1; [|lia]. destruct H1 as [k1 Hk1].
  apply Z.mod_divide in H2; [|lia]. destruct H2 as [k2 Hk2].
  apply Z.mod_divide; [lia|].
  exists (k2 + k1 + 31 * k). lia.
Qed.

Lemma hash_loop_poly (s : string) :
  forall h x : Z,
    (h - x) mod 2 ^ 32 = 0 ->
    (hash_loop s h - poly31 s x) mod 2 ^ 32 = 0.
Proof.
  induction s as [|a s IH]; intros h x H; simpl; [done|].
  apply IH. by apply hash_step_poly.
Qed.

Lemma hash_loop_range (s : string) :
  forall h : Z, - 2 ^ 31 <= h < 2 ^ 31 -> - 2 ^ 31 <= hash_loop s h < 2 ^ 31.
Proof.
  induction s as [|a s IH]; intros h H; simpl; [done|].
  apply IH. apply to_int32_range.
Qed.

Lemma to_int32_id (z : Z) : - 2 ^ 31 <= z < 2 ^ 31 -> to_int32 z = z.
Proof.
  intros H. unfold to_int32. rewrite Z.mod_small by lia. lia.
Qed.

(** X1. The hash of every value is a signed integer of 32 bits. *)
Theorem hashCode__int32 (str : prim) :
  - 2 ^ 31 <= hashCode_ str < 2 ^ 31.
Proof.
  unfold hashCode_. destruct (isEmptyString str); [lia|].
  destruct str; try lia. apply hash_loop_range. lia.
Qed.

(** X2. The hash of a string that is not blank is the polynomial of base
    31 over its code units, wrapped to 32 bits once at the end; a blank
    string has the hash 0. *)
Theorem hashCode__polynomial (s : string) :
  hashCode_ (PStr s)
  = if isEmptyString (PStr s) then 0 else to_int32 (poly31 s 0).
Proof.
  unfold hashCode_. destruct (isEmptyString (PStr s)); [done|].
  rewrite <- (to_int32_id (hash_loop s 0)) by (apply hash_loop_range; lia).
  apply to_int32_eqm, hash_loop_poly. done.
Qed.

End HashCode.

(** ** The domain of a URL *)

Section Domain.

Import Sheet.

Lemma lower_char_idem (a : ascii) : lower_char (lower_char a) = lower_char a.
Proof. destruct a as [[] [] [] [] [] [] [] []]; reflexivity. Qed.

Lemma toLowerCase_idem (s : string) : toLowerCase (toLowerCase s) = toLowerCase s.
Proof. induction s as [|a s IH]; simpl; [done|]. by rewrite lower_char_idem, IH. Qed.

Lemma lower_char_slash (a : ascii) : lower_char a = "/"%char -> a = "/"%char.
Proof. destruct a as [[] [] [] [] [] [] [] []]; simpl; intros H; done. Qed.

Lemma lower_char_white (a : ascii) : is_white a = true -> lower_char a = a.
Proof. destruct a as [[] [] [] [] [] [] [] []]; simpl; intros H; done. Qed.

Lemma split_head_no_sep (c : ascii) (s : string) : has_char c (split_head c s) = false.
Proof.
  induction s as [|a s IH]; simpl; [done|].
  destruct (decide (a = c)) as [->|Hne].
  - by rewrite bool_decide_eq_true_2.
  - rewrite (bool_decide_eq_false_2 (a = c)) by done. simpl.
    by rewrite (bool_decide_eq_false_2 (a = c)) by done.
Qed.

Lemma toLowerCase_no_slash (s : string) :
  has_char "/"%char s = false -> has_char "/"%char (toLowerCase s) = false.
Proof.
  induction s as [|a s IH]; simpl; [done|].
  intros H. apply orb_false_elim in H as [Ha Hs].
  rewrite IH by done. rewrite orb_false_r.
  apply bool_decide_eq_false. intros Hl. apply lower_char_slash in Hl.
  by rewrite bool_decide_eq_true_2 in Ha.
Qed.

Lemma trim_end_all_white (s : string) : trim_end s = EmptyString -> all_white s = true.
Proof.
  induction s as [|a s IH]; simpl; [done|].
  destruct (trim_end s); [|discriminate].
  destruct (is_white a); [|discriminate]. intros _. by apply IH.
Qed.

Lemma trim_start_all_white (s : string) :
  all_white (trim_start s) = true -> all_white s = true.
Proof.
  induction s as [|a s IH]; simpl; [done|].
  destruct (is_white a) eqn:E; simpl; [done|]. by rewrite E.
Qed.

Lemma toLowerCase_all_white (s : string) : all_white s = true -> toLowerCase s = s.
Proof.
  induction s as [|a s IH]; simpl; [done|].
  intros H. apply andb_prop in H as [Ha Hs]. by rewrite lower_char_white, IH.
Qed.

Lemma toLowerCase_blank (s : string) :
  isEmptyString (PStr s) = true -> toLowerCase s = s.
Proof.
  intros H. apply toLowerCase_all_white.
  destruct s as [|a s]; [done|].
  unfold isEmptyString in H. cbn [truthy] in H.
  rewrite bool_decide_eq_false_2 in H by done. cbn [negb] in H.
  apply bool_decide_eq_true in H.
  apply trim_start_all_white, trim_end_all_white, H.
Qed.

Lemma getDomain_string (u : string) :
  isEmptyString (PStr u) = false ->
  getDomain (PStr u)
  = Ok (let d := split_head "/"%char
                   (let s := if starts_with "http://" u then substr 7 u else u in
                    let s := if starts_with "https://" s then substr 8 s else s in
                    if starts_with "www." s then substr 4 s else s) in
        if negb (isEmptyString (PStr d)) then toLowerCase d else d).
Proof. intros H. unfold getDomain. rewrite H. reflexivity. Qed.

(** X3. [getDomain] throws for every value that is no string and for every
    blank string; for every other string it returns a domain that holds no
    slash and that [toLowerCase] leaves as it is. *)
Theorem getDomain_result (url : jsval) :
  (isEmptyString url = true \/ js_typeof url <> "string" ->
     getDomain url = Throw "Invalid `url` parameter.")
  /\ (isEmptyString url = false -> js_typeof url = "string" ->
      exists d, getDomain url = Ok d
                /\ has_char "/"%char d = false
                /\ toLowerCase d = d).
Proof.
  split.
  - intros [Hb | Ht]; unfold getDomain.
    + by rewrite Hb.
    + rewrite (bool_decide_eq_false_2 _ Ht). by rewrite orb_true_r.
  - intros Hb Ht.
    destruct url as [[| | | |u]| |]; try discriminate Ht.
    rewrite (getDomain_string u Hb). eexists. split; [reflexivity|].
    cbv zeta.
    set (d := split_head "/"%char _).
    assert (has_char "/"%char d = false) as Hd by apply split_head_no_sep.
    clearbody d.
    destruct (isEmptyString (PStr d)) eqn:E; cbn [negb].
    + split; [exact Hd | apply toLowerCase_blank, E].
    + split; [apply toLowerCase_no_slash, Hd | apply toLowerCase_idem].
Qed.

Lemma nonblank_first (a : ascii) (s : string) :
  is_white a = false -> isEmptyString (PStr (String a s)) = false.
Proof.
  intros H. unfold isEmptyString. cbn [truthy].
  rewrite (bool_decide_eq_false_2 (String a s = EmptyString)) by discriminate.
  cbn [negb]. apply bool_decide_eq_false. unfold trim. cbn [trim_start].
  rewrite H. cbn [trim_end]. rewrite H. by destruct (trim_end s).
Qed.

Lemma append_cons (a : ascii) (p u : string) : String a p +:+ u = String a (p +:+ u).
Proof. reflexivity. Qed.

Lemma append_nil_l (u : string) : EmptyString +:+ u = u.
Proof. reflexivity. Qed.

Lemma starts_with_cons (a b : ascii) (p s : string) :
  starts_with (String a p) (String b s) = bool_decide (a = b) && starts_with p s.
Proof. reflexivity. Qed.

Lemma starts_with_nil (s : string) : starts_with EmptyString s = true.
Proof. reflexivity. Qed.

Lemma substr_cons (n : nat) (a : ascii) (s : string) :
  substr (S n) (String a s) = substr n s.
Proof. reflexivity. Qed.

Lemma substr_0 (s : string) : substr 0 s = s.
Proof. by destruct s. Qed.

Ltac str_steps :=
  repeat first
    [ rewrite starts_with_cons
    | rewrite starts_with_nil
    | rewrite substr_cons
    | rewrite substr_0
    | rewrite (bool_decide_eq_true_2 (_ = _)) by reflexivity
    | rewrite (bool_decide_eq_false_2 (_ = _)) by discriminate
    | progress cbn [andb] ].

(** X4. For a URL that is not blank and starts with none of [http://],
    [https://] and [www.], the domain does not change when the URL is
    given a scheme, [www.], or a scheme followed by [www.]. *)
Theorem getDomain_prefixes (u : string) :
  isEmptyString (PStr u) = false ->
  starts_with "http://" u = false ->
  starts_with "https://" u = false ->
  starts_with "www." u = false ->
  Forall (fun p => getDomain (PStr (p +:+ u)) = getDomain (PStr u)) url_prefixes.
Proof.
  intros Hb H1 H2 H3.
  rewrite (getDomain_string u Hb). cbv zeta. rewrite H1, H2, H3.
  repeat apply Forall_cons_2; [| | | | |apply Forall_nil_2].
  all: rewrite ?append_cons, append_nil_l.
  all: rewrite getDomain_string by (by apply nonblank_first).
  all: cbv zeta; str_steps; by rewrite ?H1, ?H2, ?H3.
Qed.

End Domain.

Section DomainExamples.

(** The value [null] is refused; a URL with a scheme, [www.], capitals and a
    path has a domain. *)
Lemma getDomain_result_witness :
  Sheet.getDomain PNull = Throw "Invalid `url` parameter."
  /\ exists d, Sheet.getDomain (PStr "https://www.Example.com/shoes") = Ok d
               /\ has_char "/"%char d = false
               /\ toLowerCase d = d.
Proof.
  destruct (getDomain_result PNull) as [Hthrow _].
  destruct (getDomain_result (PStr "https://www.Example.com/shoes")) as [_ Hok].
  split.
  - apply Hthrow. left. reflexivity.
  - apply Hok; reflexivity.
Defined.

(** The prefixes of [Example.com/shoes]. *)
Lemma getDomain_prefixes_witness :
  Forall (fun p => Sheet.getDomain (PStr (p +:+ "Example.com/shoes"))
                   = Sheet.getDomain (PStr "Example.com/shoes")) url_prefixes.
Proof. apply (getDomain_prefixes "Example.com/shoes"); reflexivity. Defined.

End DomainExamples.

(** ** What the bucket index leaves as it was *)

Section BucketFrames.

Import Sheet.

Lemma getValue_insert_ne (C C' v : prim) (st : buckets) (column : gmap Z slot) :
  to_key C' <> to_key C ->
  getValue C' v (<[to_key C := column]> st) = getValue C' v st.
Proof. intros Hne. unfold getValue. by rewrite lookup_insert_ne. Qed.

Lemma addValue_Ok_inv (C v r : prim) (st st' : buckets) :
  addValue C v r st = Ok st' ->
  isEmptyString C = false
  /\ exists l,
       st !! to_key C ≫= (.!! hashCode_ v) = l
       /\ (l = None \/ exists rows, l = Some (SList rows))
       /\ st' = <[to_key C :=
                    <[hashCode_ v :=
                        SList (match l with Some (SList rows) => rows | _ => [] end
                               ++ [r])]>
                      (default ∅ (st !! to_key C))]> st.
Proof.
  unfold addValue.
  destruct (isEmptyString C) eqn:HC; [discriminate|].
  destruct (isEmptyString v); [discriminate|].
  destruct (isEmptyString r); [discriminate|]. simpl.
  intros H. split; [done|]. eexists. split; [reflexivity|].
  destruct (st !! to_key C) as [column|] eqn:Ecol; simpl.
  - rewrite Ecol in H.
    destruct (column !! hashCode_ v) as [s|] eqn:Eb; simpl in *.
    + rewrite Eb in H. destruct s; try discriminate.
      injection H as <-. split; [right; by eexists | done].
    + rewrite lookup_insert_eq in H. injection H as <-.
      split; [by left|]. by rewrite insert_insert_eq.
  - rewrite lookup_insert_eq, lookup_empty, lookup_insert_eq in H.
    injection H as <-. split; [by left|].
    by rewrite !insert_insert_eq.
Qed.

(** X5. A call of [addValue] that returns, on a column key that is not
    the name of an inherited property, leaves every other column as it
    was, and in its own column the list of every bucket whose hash is not
    the hash of the value. *)
Theorem addValue_frame (C v r C' v' : prim) (st st' : buckets) :
  inherited (to_key C) = false ->
  addValue C v r st = Ok st' ->
  (to_key C' <> to_key C -> getValue C' v' st' = getValue C' v' st)
  /\ (hashCode_ v' <> hashCode_ v ->
      forall l, getValue C' v' st' = Ok (SList l) <-> getValue C' v' st = Ok (SList l)).
Proof.
  intros _.
  intros H. destruct (addValue_Ok_inv _ _ _ _ _ H) as (HC & o & Ho & _ & ->).
  split.
  - intros Hne. by apply getValue_insert_ne.
  - intros Hh l.
    destruct (decide (to_key C' = to_key C)) as [E|Hne].
    + unfold getValue. rewrite E, lookup_insert_eq.
      rewrite lookup_insert_ne by done.
      destruct (isEmptyString C' || isEmptyString v'); [done|].
      destruct (st !! to_key C) as [column|]; simpl; [done|].
      rewrite lookup_empty. simpl. split; discriminate.
    + by rewrite getValue_insert_ne.
Qed.

Lemma transferBucket_Ok_inv (C v1 v2 : prim) (st st' : buckets) :
  transferBucket C v1 v2 st = Ok st' ->
  exists column s,
    st !! to_key C = Some column
    /\ st' = <[to_key C :=
                 <[hashCode_ v1 := SNull]> (<[hashCode_ v2 := s]> column)]> st.
Proof.
  unfold transferBucket.
  destruct (isEmptyString C || isEmptyString v1 || isEmptyString v2);
    [discriminate|].
  destruct (getValue C v1 st) as [s1|]; [|discriminate].
  destruct (getValue C v2 st) as [s2|]; [|discriminate]. simpl.
  destruct (match s2 with
            | SList inNew =>
                match s1 with
                | SList toTransfer => Ok (SList (toTransfer ++ inNew))
                | _ => Raise TypeError
                end
            | _ => Ok s1
            end) as [s|]; [|discriminate]. simpl.
  destruct (st !! to_key C) as [column|]; [|discriminate].
  intros [= <-]. by exists column, s.
Qed.

(** X6. A call of [transferBucket] that returns, on a column key that is
    not the name of an inherited property, leaves what [getValue] returns
    for every other column, and in its own column for every value whose
    hash is neither the hash of the old nor the hash of the new value. *)
Theorem transferBucket_frame (C v1 v2 C' v' : prim) (st st' : buckets) :
  inherited (to_key C) = false ->
  transferBucket C v1 v2 st = Ok st' ->
  to_key C' <> to_key C
  \/ (hashCode_ v' <> hashCode_ v1 /\ hashCode_ v' <> hashCode_ v2) ->
  getValue C' v' st' = getValue C' v' st.
Proof.
  intros _.
  intros H Hother.
  destruct (transferBucket_Ok_inv _ _ _ _ _ H) as (column & s & Hcol & ->).
  destruct (decide (to_key C' = to_key C)) as [E|Hne].
  - destruct Hother as [? | [Hh1 Hh2]]; [done|].
    unfold getValue. rewrite E, lookup_insert_eq, Hcol.
    by rewrite !lookup_insert_ne by done.
  - by apply getValue_insert_ne.
Qed.

(** X7. An edit and the edit that undoes it. When the bucket of the old
    value holds a list, the new value has another hash and its bucket holds
    no list, transferring to the new value and back succeeds, the bucket of
    the old value holds its list again, and the bucket of the new value is
    left [null]. *)
Theorem transferBucket_back (C v1 v2 : prim) (R : list prim) (s2 : slot)
    (st : buckets) :
  getValue C v1 st = Ok (SList R) ->
  getValue C v2 st = Ok s2 ->
  is_list s2 = false ->
  hashCode_ v1 <> hashCode_ v2 ->
  exists st' st'',
    transferBucket C v1 v2 st = Ok st'
    /\ transferBucket C v2 v1 st' = Ok st''
    /\ getValue C v1 st'' = Ok (SList R)
    /\ getValue C v2 st'' = Ok SNull.
Proof.
  intros H1 H2 Hs2 Hh.
  destruct (getValue_Ok_nonblank _ _ _ _ H1) as [HC Hv1].
  destruct (getValue_Ok_nonblank _ _ _ _ H2) as [_ Hv2].
  destruct (getValue_list_lookup _ _ _ _ H1) as (column & Hcol & Hb1).
  set (column' := <[hashCode_ v1 := SNull]> (<[hashCode_ v2 := SList R]> column)).
  exists (<[to_key C := column']> st).
  exists (<[to_key C := <[hashCode_ v2 := SNull]> (<[hashCode_ v1 := SList R]> column')]>
            (<[to_key C := column']> st)).
  split; [|split; [|split]].
  - unfold transferBucket. rewrite HC, Hv1, Hv2, H1, H2. simpl.
    destruct s2; try discriminate; simpl; by rewrite Hcol.
  - unfold transferBucket. rewrite HC, Hv1, Hv2. simpl.
    rewrite !getValue_insert by done.
    assert (column' !! hashCode_ v2 = Some (SList R)) as ->.
    { subst column'. rewrite lookup_insert_ne by done. apply lookup_insert_eq. }
    assert (column' !! hashCode_ v1 = Some SNull) as ->
      by apply lookup_insert_eq.
    simpl. by rewrite lookup_insert_eq.
  - rewrite getValue_insert by done.
    rewrite lookup_insert_ne by done. by rewrite lookup_insert_eq.
  - rewrite getValue_insert by done. by rewrite lookup_insert_eq.
Qed.

End BucketFrames.

Section BucketFramesExamples.

(** Adding row 6 under [Aa] in column 2 leaves column 3 and the bucket of
    [Ab] as they were. *)
Lemma addValue_frame_witness :
  exists st',
    Sheet.addValue (PNum 2) (PStr "Aa") (PNum 6) Examples.twoBuckets = Ok st'
    /\ Sheet.getValue (PNum 3) (PStr "Aa") st'
       = Sheet.getValue (PNum 3) (PStr "Aa") Examples.twoBuckets
    /\ (Sheet.getValue (PNum 2) (PStr "Ab") st' = Ok (Sheet.SList [PNum 5])
        <-> Sheet.getValue (PNum 2) (PStr "Ab") Examples.twoBuckets
            = Ok (Sheet.SList [PNum 5])).
Proof.
  eexists. split; [reflexivity|]. split.
  - refine (proj1 (addValue_frame (PNum 2) (PStr "Aa") (PNum 6) (PNum 3) (PStr "Aa")
                     Examples.twoBuckets _ eq_refl eq_refl) _).
    vm_compute. discriminate.
  - refine (proj2 (addValue_frame (PNum 2) (PStr "Aa") (PNum 6) (PNum 2) (PStr "Ab")
                     Examples.twoBuckets _ eq_refl eq_refl) _ [PNum 5]).
    vm_compute. discriminate.
Defined.

(** Transferring the bucket of [Aa] to [Ab] leaves what is read for [Ac]. *)
Lemma transferBucket_frame_witness :
  exists st',
    Sheet.transferBucket (PNum 2) (PStr "Aa") (PStr "Ab") Examples.twoBuckets = Ok st'
    /\ Sheet.getValue (PNum 2) (PStr "Ac") st'
       = Sheet.getValue (PNum 2) (PStr "Ac") Examples.twoBuckets.
Proof.
  eexists. split; [reflexivity|].
  apply (transferBucket_frame (PNum 2) (PStr "Aa") (PStr "Ab") (PNum 2) (PStr "Ac")
           Examples.twoBuckets).
  - reflexivity.
  - reflexivity.
  - right. split; vm_compute; discriminate.
Defined.

(** The headline [Aa] is changed to [Ab] and back. *)
Lemma transferBucket_back_witness :
  exists st' st'',
    Sheet.transferBucket (PNum 2) (PStr "Aa") (PStr "Ab") Examples.oneBucket = Ok st'
    /\ Sheet.transferBucket (PNum 2) (PStr "Ab") (PStr "Aa") st' = Ok st''
    /\ Sheet.getValue (PNum 2) (PStr "Aa") st'' = Ok (Sheet.SList [PNum 4])
    /\ Sheet.getValue (PNum 2) (PStr "Ab") st'' = Ok Sheet.SNull.
Proof.
  apply (transferBucket_back (PNum 2) (PStr "Aa") (PStr "Ab") [PNum 4] Sheet.SUndef
           Examples.oneBucket).
  - reflexivity.
  - reflexivity.
  - reflexivity.
  - vm_compute. discriminate.
Defined.

End BucketFramesExamples.

(** ** Building the bucket index *)

Section IndexBuild.

Import Sheet Addon.

Variable JSON_parse : string -> option jsval.

Lemma all_lists_empty : all_lists ∅.
Proof. intros key column h s H. by rewrite lookup_empty in H. Qed.

Lemma to_key_column (i j : nat) :
  to_key (PNum (Z.of_nat i + 1)) = to_key (PNum (Z.of_nat j + 1)) <-> i = j.
Proof.
  split; [|by intros ->]. unfold to_key. simpl. intros H.
  apply (inj pretty) in H. lia.
Qed.

Lemma addValue_lists (C v r : prim) (st st' : buckets) :
  addValue C v r st = Ok st' ->
  all_lists st ->
  all_lists st'
  /\ forall key h,
       bucket_list st' key h
       = bucket_list st key h
         ++ (if bool_decide (key = to_key C) && bool_decide (h = hashCode_ v)
             then [r] else []).
Proof.
  intros H Hwf.
  destruct (addValue_Ok_inv _ _ _ _ _ H) as (HC & o & Ho & Hcase & ->).
  split.
  - intros key column h s Hk Hh.
    destruct (decide (key = to_key C)) as [->|Hne].
    + rewrite lookup_insert_eq in Hk. injection Hk as <-.
      destruct (decide (h = hashCode_ v)) as [->|Hneh].
      * rewrite lookup_insert_eq in Hh. by injection Hh as <-.
      * rewrite lookup_insert_ne in Hh by done.
        destruct (st !! to_key C) as [col|] eqn:E; simpl in Hh.
        -- by apply (Hwf _ _ _ _ E Hh).
        -- by rewrite lookup_empty in Hh.
    + rewrite lookup_insert_ne in Hk by done. by apply (Hwf _ _ _ _ Hk Hh).
  - intros key h. unfold bucket_list.
    destruct (decide (key = to_key C)) as [->|Hne].
    + rewrite bool_decide_eq_true_2 by done. rewrite lookup_insert_eq. simpl.
      destruct (decide (h = hashCode_ v)) as [->|Hneh].
      * rewrite bool_decide_eq_true_2 by done. rewrite lookup_insert_eq. simpl.
        rewrite Ho. by destruct o as [[]|].
      * rewrite bool_decide_eq_false_2 by done. rewrite lookup_insert_ne by done.
        rewrite app_nil_r. by destruct (st !! to_key C).
    + rewrite bool_decide_eq_false_2 by done. rewrite lookup_insert_ne by done.
      by rewrite app_nil_r.
Qed.

Lemma link_column_lists (cfg : mainConfigT) (row : SpreadsheetRow) (n : string)
    (st st' : buckets) :
  columnNamesToIndices_ row = main_columns cfg ->
  link_column cfg row n st = Ok st' ->
  all_lists st ->
  all_lists st'
  /\ forall i h,
       bucket_list st' (to_key (PNum (Z.of_nat i + 1))) h
       = bucket_list st (to_key (PNum (Z.of_nat i + 1))) h ++ linked_cell cfg i h row n.
Proof.
  intros Hcols H Hwf. unfold link_column, get, getColumnIndex_ in H.
  unfold linked_cell. rewrite Hcols in H.
  destruct (main_columns cfg !! n) as [j|] eqn:Ej; [|discriminate].
  cbn [mbind result_bind] in H.
  destruct (isEmptyString (PStr n)) eqn:En; cbn [negb andb] in H.
  { injection H as <-. split; [done|]. intros i h.
    by rewrite andb_false_r, app_nil_r. }
  destruct (isEmptyString (array_get (values_ row) j)) eqn:Ev; cbn [negb andb] in H.
  { injection H as <-. split; [done|]. intros i h.
    destruct (decide (j = i)) as [->|Hne].
    - by rewrite Ev, andb_false_r, app_nil_r.
    - rewrite (bool_decide_eq_false_2 (Some j = Some i)) by congruence.
      by rewrite app_nil_r. }
  cbn [isEmpty negb] in H.
  destruct (addValue_lists _ _ _ _ _ H Hwf) as [Hwf' Hb].
  split; [done|]. intros i h. rewrite Hb. f_equal.
  destruct (decide (j = i)) as [->|Hne].
  - rewrite (bool_decide_eq_true_2 (_ = to_key _)) by done.
    rewrite (bool_decide_eq_true_2 (Some i = Some i)) by done.
    rewrite Ev. cbn [negb andb]. unfold getRowIndex.
    destruct (decide (h = hashCode_ (array_get (values_ row) i))) as [->|Hh].
    + by rewrite (bool_decide_eq_true_2 (hashCode_ _ = hashCode_ _)).
    + rewrite (bool_decide_eq_false_2 (h = _)) by done.
      by rewrite (bool_decide_eq_false_2 (_ = h)).
  - rewrite (bool_decide_eq_false_2 (Some j = Some i)) by congruence.
    rewrite bool_decide_eq_false_2; [done|].
    intros E. apply to_key_column in E. congruence.
Qed.

Lemma link_columns_lists (cfg : mainConfigT) (row : SpreadsheetRow) (names : list string) :
  columnNamesToIndices_ row = main_columns cfg ->
  forall st st',
    link_columns cfg row names st = Ok st' ->
    all_lists st ->
    all_lists st'
    /\ forall i h,
         bucket_list st' (to_key (PNum (Z.of_nat i + 1))) h
         = bucket_list st (to_key (PNum (Z.of_nat i + 1))) h
           ++ (n ← names; linked_cell cfg i h row n).
Proof.
  intros Hcols. induction names as [|n names IH]; intros st st' H Hwf.
  - injection H as <-. split; [done|]. intros i h. by rewrite app_nil_r.
  - cbn [link_columns] in H.
    destruct (link_column cfg row n st) as [st1|] eqn:E1; [|discriminate].
    cbn [mbind result_bind] in H.
    destruct (link_column_lists _ _ _ _ _ Hcols E1 Hwf) as [Hwf1 Hb1].
    destruct (IH _ _ H Hwf1) as [Hwf' Hb]. split; [done|].
    intros i h. rewrite Hb, Hb1. by rewrite <- app_assoc.
Qed.

Lemma link_rows_lists (cfg : mainConfigT) (rows : list SpreadsheetRow) :
  Forall (fun row => columnNamesToIndices_ row = main_columns cfg) rows ->
  forall st sh st' sh',
    link_rows JSON_parse cfg rows st sh = (Ok st', sh') ->
    all_lists st ->
    all_lists st'
    /\ forall i h,
         bucket_list st' (to_key (PNum (Z.of_nat i + 1))) h
         = bucket_list st (to_key (PNum (Z.of_nat i + 1))) h
           ++ linked_rows cfg i h rows.
Proof.
  induction 1 as [|row rows Hrow Hrows IH]; intros st sh st' sh' H Hwf.
  - injection H as <- <-. split; [done|]. intros i h. by rewrite app_nil_r.
  - cbn [link_rows] in H. unfold link_row in H.
    destruct (link_columns cfg row (columnsToLink_names cfg) st) as [st1|] eqn:E1;
      [|discriminate].
    destruct (highlightMismatchFields JSON_parse row (mismatchColumns_names cfg)
                (mismatchColumns_color cfg) sh) as [[u|e] sh1]; [|discriminate].
    destruct (link_columns_lists _ _ _ Hrow _ _ E1 Hwf) as [Hwf1 Hb1].
    destruct (IH _ _ _ _ H Hwf1) as [Hwf' Hb]. split; [done|].
    intros i h. rewrite Hb, Hb1. unfold linked_rows. cbn [mbind list_bind].
    by rewrite <- app_assoc.
Qed.

Lemma getValue_bucket_list (C v : prim) (st : buckets) :
  all_lists st ->
  isEmptyString C = false -> isEmptyString v = false ->
  (forall l, getValue C v st = Ok (SList l) ->
     l = bucket_list st (to_key C) (hashCode_ v))
  /\ (bucket_list st (to_key C) (hashCode_ v) <> [] ->
      getValue C v st = Ok (SList (bucket_list st (to_key C) (hashCode_ v)))).
Proof.
  intros Hwf HC Hv. unfold getValue, bucket_list. rewrite HC, Hv. simpl.
  destruct (st !! to_key C) as [column|] eqn:Ecol; simpl.
  - destruct (column !! hashCode_ v) as [s|] eqn:Eb; simpl.
    + split; [by intros l [= ->]|]. intros _.
      pose proof (Hwf _ _ _ _ Ecol Eb) as Hs. by destruct s.
    + split; [discriminate | done].
  - split; [discriminate | done].
Qed.

(** X8. When the loop of [linkMatchingColumns] over the content rows
    returns, starting from the cleared index: for every column and every
    value that is not blank, the list that [getValue] returns, if it returns
    one, holds the rows whose cell in this column is not blank and has the
    hash of the value, once for each name of the column among the columns to
    link, in the order of the rows; and [getValue] returns this list when it
    is not empty. *)
Theorem link_rows_index (cfg : mainConfigT) (rows : list SpreadsheetRow)
    (sh sh' : sheet) (st st' : buckets) (i : nat) (v : prim) :
  Forall (fun row => columnNamesToIndices_ row = main_columns cfg) rows ->
  link_rows JSON_parse cfg rows (clear st) sh = (Ok st', sh') ->
  isEmptyString v = false ->
  (forall l, getValue (PNum (Z.of_nat i + 1)) v st' = Ok (SList l) ->
     l = linked_rows cfg i (hashCode_ v) rows)
  /\ (linked_rows cfg i (hashCode_ v) rows <> [] ->
      getValue (PNum (Z.of_nat i + 1)) v st'
      = Ok (SList (linked_rows cfg i (hashCode_ v) rows))).
Proof.
  intros Hrows H Hv.
  destruct (link_rows_lists _ _ Hrows _ _ _ _ H all_lists_empty) as [Hwf Hb].
  assert (isEmptyString (PNum (Z.of_nat i + 1)) = false) as HC.
  { unfold isEmptyString. simpl. destruct (Z.eqb_spec (Z.of_nat i + 1) 0); [lia|done]. }
  destruct (getValue_bucket_list _ _ _ Hwf HC Hv) as [Hl Hne].
  specialize (Hb i (hashCode_ v)). unfold clear in Hb.
  change (bucket_list ∅ _ _) with (@nil prim) in Hb. cbn [app] in Hb.
  rewrite Hb in Hl, Hne. by split.
Qed.

End IndexBuild.

Section IndexBuildExamples.

(** Rows 5 and 7 are linked under their headline. *)
Lemma link_rows_index_witness :
  exists st' sh',
    Addon.link_rows Examples.JSON_parse_literal Examples.linkConfig Examples.linkRows
      (Sheet.clear Examples.oneBucket) Examples.blankSheet = (Ok st', sh')
    /\ Sheet.getValue (PNum 1) (PStr "Shoes") st' = Ok (Sheet.SList [PNum 5; PNum 7]).
Proof.
  eexists. eexists. split; [reflexivity|].
  refine (proj2 (link_rows_index Examples.JSON_parse_literal Examples.linkConfig Examples.linkRows
                   Examples.blankSheet _ Examples.oneBucket _ 0%nat (PStr "Shoes")
                   _ _ _) _).
  - repeat constructor.
  - reflexivity.
  - reflexivity.
  - vm_compute. discriminate.
Defined.

End IndexBuildExamples.

(** ** The column data of a sheet *)

Section ColumnData.

Import Addon.

Lemma fill_columns_lookup (l : list jsval) (k : string) :
  forall i result,
    fill_columns l i result !! k
    = match last_index_from (map to_string l) k i with
      | Some j => Some (EColumn j ("[" +:+ k +:+ "]"))
      | None => result !! k
      end.
Proof.
  induction l as [|c l IH]; intros i result; simpl; [done|].
  rewrite IH.
  destruct (last_index_from (map to_string l) k (S i)) as [j|]; [done|].
  destruct (decide (to_string c = k)) as [<-|Hne].
  - rewrite bool_decide_eq_true_2 by done. by rewrite lookup_insert_eq.
  - rewrite bool_decide_eq_false_2 by done. by rewrite lookup_insert_ne.
Qed.

Lemma last_index_from_bounds (names : list string) (k : string) :
  forall i j, last_index_from names k i = Some j ->
    (i <= j < i + length names)%nat /\ names !! (j - i)%nat = Some k.
Proof.
  induction names as [|n names IH]; intros i j H; simpl in *; [done|].
  destruct (last_index_from names k (S i)) as [j'|] eqn:E.
  - injection H as ->. destruct (IH _ _ E) as [Hb Hl]. split; [lia|].
    replace (j - i)%nat with (S (j - S i)) by lia. done.
  - destruct (decide (n = k)) as [->|Hne].
    + rewrite bool_decide_eq_true_2 in H by done. injection H as <-.
      split; [lia|]. by rewrite Nat.sub_diag.
    + by rewrite bool_decide_eq_false_2 in H.
Qed.

Lemma last_index_from_None (names : list string) (k : string) :
  forall i, last_index_from names k i = None <-> k ∉ names.
Proof.
  induction names as [|n names IH]; intros i; simpl.
  - split; [intros _; apply not_elem_of_nil | done].
  - rewrite not_elem_of_cons.
    destruct (last_index_from names k (S i)) as [j|] eqn:E.
    + split; [done|]. intros [_ Hn]. apply (IH (S i)) in Hn. congruence.
    + apply IH in E. destruct (decide (n = k)) as [->|Hne].
      * rewrite bool_decide_eq_true_2 by done. split; [done | by intros [? _]].
      * rewrite bool_decide_eq_false_2 by done. split; [|done]. intros _.
        split; [congruence | done].
Qed.

Lemma last_index_from_NoDup (names : list string) (k : string) :
  NoDup names ->
  forall i j, names !! j = Some k -> last_index_from names k i = Some (i + j)%nat.
Proof.
  induction 1 as [|n names Hn Hnd IH]; intros i j Hj; [done|]. simpl.
  destruct j as [|j]; simpl in Hj.
  - injection Hj as ->.
    assert (last_index_from names k (S i) = None) as -> by by apply last_index_from_None.
    rewrite bool_decide_eq_true_2 by done. f_equal. lia.
  - rewrite (IH (S i) j Hj). f_equal. lia.
Qed.

(** What the object that [generateColumnData] builds owns under a key of a
    column. *)
Lemma generated_lookup (l : list jsval) (k : string) (o e : columnEntry) :
  reserved_key k = false ->
  <["_lastIndex" := e]> (fill_columns l 0 {[ "_order" := o ]}) !! k
  = (fun i => EColumn i ("[" +:+ k +:+ "]")) <$> last_index (map to_string l) k.
Proof.
  intros Hk. unfold reserved_key in Hk. apply orb_false_elim in Hk as [Ho Hl].
  apply bool_decide_eq_false in Ho, Hl.
  rewrite lookup_insert_ne by done. rewrite fill_columns_lookup.
  unfold last_index.
  destruct (last_index_from (map to_string l) k 0); [done|].
  by rewrite lookup_singleton_ne.
Qed.

(** X9. [generateColumnData] throws for a value that is no array. For an
    array of columns, none of them with the name of an inherited property,
    it returns an object that owns the array under [_order], the last
    index under [_lastIndex], and under every other key the position,
    relative to 0, of the last column of that name together with the name
    in brackets; it owns no key that names no column. *)
Theorem generateColumnData_lookup (columns : jsval) :
  match columns with
  | Arr l =>
      Forall (fun name => inherited name = false) (map to_string l) ->
      exists data,
        generateColumnData columns = Ok data
        /\ data !! "_lastIndex" = Some (ELastIndex (Z.of_nat (length l) - 1))
        /\ ("_order" ∉ map to_string l -> data !! "_order" = Some (EOrder l))
        /\ forall k, reserved_key k = false ->
             data !! k
             = (fun i => EColumn i ("[" +:+ k +:+ "]"))
                 <$> last_index (map to_string l) k
  | _ => generateColumnData columns = Throw "Columns must be a valid Array"
  end.
Proof.
  destruct columns as [p|l|kvs]; [done| |done]. intros _.
  eexists. split; [reflexivity|]. split; [apply lookup_insert_eq|]. split.
  - intros Hn. rewrite lookup_insert_ne by done. rewrite fill_columns_lookup.
    apply (last_index_from_None _ _ 0%nat) in Hn. rewrite Hn.
    apply lookup_singleton_eq.
  - intros k Hk. by apply generated_lookup.
Qed.

Lemma getIndicesFromColumns_omap (columns : gmap string columnEntry)
    (keys : list string) :
  getIndicesFromColumns columns keys
  = omap (fun key => index_plus_one <$> columns !! key) keys.
Proof.
  unfold getIndicesFromColumns.
  assert (forall acc,
            foldl (fun values key =>
                     match columns !! key with
                     | Some e => values ++ [index_plus_one e]
                     | None => values
                     end) acc keys
            = acc ++ omap (fun key => index_plus_one <$> columns !! key) keys) as H.
  { induction keys as [|k keys IH]; intros acc; simpl; [by rewrite app_nil_r|].
    rewrite IH. destruct (columns !! k); simpl; [|done].
    by rewrite <- app_assoc. }
  apply (H []).
Qed.

(** X10. The column data of a sheet and the indices read from it. For
    distinct column names and for keys, none of them the name of an
    inherited property and no key [_order] or [_lastIndex],
    [getIndicesFromColumns] returns for each key that names a column its
    position relative to 1, in the order of the keys, and skips every
    other key. *)
Theorem getIndicesFromColumns_generated (names keys : list string)
    (data : gmap string columnEntry) :
  NoDup names ->
  Forall (fun name => inherited name = false) names ->
  Forall (fun k => reserved_key k = false /\ inherited k = false) keys ->
  generateColumnData (labels_array names) = Ok data ->
  getIndicesFromColumns data keys
  = omap (fun key => (fun i : nat => Some (Z.of_nat i + 1)) <$> last_index names key) keys
  /\ forall i key, names !! i = Some key -> last_index names key = Some i.
Proof.
  intros Hnd Hplain Hkeys Hgen.
  assert (map to_string (map (fun n => Prim (PStr n)) names) = names) as Hnames.
  { rewrite map_map. apply map_id. }
  split.
  - unfold labels_array in Hgen. cbn [generateColumnData] in Hgen.
    injection Hgen as <-. clear Hplain.
    rewrite getIndicesFromColumns_omap.
    induction Hkeys as [|k keys [Hk _] _ IH]; [done|]. cbn [omap list_omap].
    rewrite IH. rewrite (generated_lookup _ k _ _ Hk), Hnames.
    by destruct (last_index names k).
  - intros i key Hi. unfold last_index.
    by rewrite (last_index_from_NoDup _ _ Hnd 0%nat i Hi).
Qed.

End ColumnData.

Section ColumnDataExamples.

(** Three columns: what the data owns under the second name. *)
Lemma generateColumnData_lookup_witness :
  exists data,
    Addon.generateColumnData (labels_array ["staStatus"; "etaStatus"; "etaId"]) = Ok data
    /\ data !! "etaStatus" = Some (Addon.EColumn 1 "[etaStatus]")
    /\ data !! "headline" = None
    /\ data !! "_lastIndex" = Some (Addon.ELastIndex 2).
Proof.
  destruct (generateColumnData_lookup (labels_array ["staStatus"; "etaStatus"; "etaId"]))
    as (data & Hgen & Hlast & _ & Hcol); [repeat constructor|].
  exists data. split; [exact Hgen|].
  split; [exact (Hcol "etaStatus" eq_refl)|].
  split; [exact (Hcol "headline" eq_refl) | exact Hlast].
Defined.

(** Two of three columns, and a key that names none. *)
Lemma getIndicesFromColumns_generated_witness :
  exists data,
    Addon.generateColumnData (labels_array ["staStatus"; "etaStatus"; "etaId"]) = Ok data
    /\ Addon.getIndicesFromColumns data ["etaId"; "missing"; "staStatus"]
       = [Some 3; Some 1].
Proof.
  eexists. split; [reflexivity|].
  refine (proj1 (getIndicesFromColumns_generated ["staStatus"; "etaStatus"; "etaId"]
                   ["etaId"; "missing"; "staStatus"] _ _ _ _ _)).
  - apply (bool_decide_unpack _). reflexivity.
  - repeat constructor.
  - repeat constructor.
  - reflexivity.
Defined.

End ColumnDataExamples.

(** ** The parameter check *)

Section ParamsObject.

Import Script.

Lemma check_keys_spec (types : list jsval) (kvs : list (string * jsval)) :
  forall n,
    (Forall (value_listed types) kvs ->
       check_keys kvs types n = inr (n + length kvs)%nat)
    /\ (forall pre k v post,
          kvs = pre ++ (k, v) :: post ->
          Forall (value_listed types) pre ->
          type_listed types (js_typeof v) = false ->
          check_keys kvs types n
          = inl ("key `" +:+ k +:+ "` has an invalid type `" +:+ js_typeof v +:+ "`")).
Proof.
  induction kvs as [|[k0 v0] kvs IH]; intros n.
  - split; [intros _; simpl; by rewrite Nat.add_0_r|].
    intros pre k v post H. destruct pre; discriminate H.
  - split.
    + intros H. apply Forall_cons in H as [H0 H]. unfold value_listed in H0.
      cbn [check_keys]. cbn [snd] in H0. rewrite H0. cbn [negb].
      destruct (IH (S n)) as [Hok _]. rewrite (Hok H). f_equal. simpl. lia.
    + intros pre k v post E Hpre Hv. destruct pre as [|[k1 v1] pre]; simpl in E.
      * injection E as -> -> ->. cbn [check_keys]. by rewrite Hv.
      * injection E as -> -> ->. apply Forall_cons in Hpre as [H1 Hpre].
        unfold value_listed in H1. cbn [check_keys]. cbn [snd] in H1. rewrite H1.
        cbn [negb]. destruct (IH (S n)) as [_ Hbad]. by apply (Hbad pre k v post).
Qed.

(** X11. [isValidParamsObject] of the script, for an array of types and an
    object that owns no key [hasOwnProperty]. With [emptyIsInvalid] unset,
    [null], [undefined] and a blank string are accepted. Every other value
    that is no object is refused; an object is accepted when the value of
    every key has a listed type and, with [emptyIsInvalid] set, it has a
    key; otherwise the message names the first key whose value has a type
    that is not listed. *)
Theorem isValidParamsObject_decides (obj : jsval) (types : list jsval)
    (emptyIsInvalid : bool) :
  owns_hasOwnProperty obj = false ->
  exists r,
    isValidParamsObject obj (Arr types) emptyIsInvalid = Ok r
    /\ (success r = true <->
        (emptyIsInvalid = false /\ isEmpty obj || isEmptyString obj = true)
        \/ exists kvs, obj = Obj kvs /\ Forall (value_listed types) kvs
                       /\ (emptyIsInvalid = true -> kvs <> []))
    /\ (forall pre k v post,
          obj = Obj (pre ++ (k, v) :: post) ->
          Forall (value_listed types) pre ->
          type_listed types (js_typeof v) = false ->
          r = {| success := false;
                 message := "key `" +:+ k +:+ "` has an invalid type `"
                            +:+ js_typeof v +:+ "`" |}).
Proof.
  intros Hown. unfold isValidParamsObject.
  destruct (negb emptyIsInvalid && (isEmpty obj || isEmptyString obj)) eqn:Hshort.
  { apply andb_prop in Hshort as [He Hblank]. apply negb_true_iff in He.
    eexists. split; [reflexivity|]. split.
    - split; [intros _; by left | done].
    - intros pre k v post ->. discriminate Hblank. }
  destruct obj as [p|l|kvs].
  - assert (exists m, match p with
                      | PNull => Ok {| success := false; message := "params is null" |}
                      | PUndef => Ok {| success := false; message := "params is undefined" |}
                      | _ => Ok {| success := false; message := "params is not an object" |}
                      end = Ok {| success := false; message := m |}) as [m Hm]
      by (destruct p; by eexists).
    exists {| success := false; message := m |}. split; [by destruct p|]. split.
    + split; [discriminate|]. intros [[He Hb] | (kvs & ? & _)]; [|discriminate].
      rewrite He, Hb in Hshort. discriminate.
    + intros pre k v post ?. discriminate.
  - eexists. split; [reflexivity|]. split.
    + split; [discriminate|]. intros [[He Hb] | (kvs & ? & _)]; discriminate.
    + intros pre k v post ?. discriminate.
  - cbn [isObject negb]. simpl in Hown. rewrite Hown.
    destruct (check_keys kvs types 0) as [msg|keyCount] eqn:Eck.
    + eexists. split; [reflexivity|]. split.
      * split; [discriminate|].
        intros [[He Hb] | (kvs' & [= <-] & Hall & _)]; [discriminate|].
        destruct (check_keys_spec types kvs 0%nat) as [Hok _].
        rewrite Hok in Eck by done. discriminate.
      * intros pre k v post [= ->] Hpre Hv.
        destruct (check_keys_spec types (pre ++ (k, v) :: post) 0%nat) as [_ Hbad].
        rewrite (Hbad pre k v post eq_refl Hpre Hv) in Eck. by injection Eck as <-.
    + assert (forall n, check_keys kvs types n = inr keyCount ->
                Forall (value_listed types) kvs /\ keyCount = (n + length kvs)%nat)
        as Hinv.
      { clear. revert keyCount.
        induction kvs as [|[k0 v0] kvs IH]; intros keyCount n Eck; simpl in Eck.
        - injection Eck as <-. split; [apply Forall_nil_2 | simpl; lia].
        - destruct (type_listed types (js_typeof v0)) eqn:E0; simpl in Eck;
            [|discriminate].
          apply IH in Eck as [Hall Hn]. split; [by apply Forall_cons_2|]. simpl. lia. }
      destruct (Hinv _ Eck) as [Hall ->]. clear Hinv. cbn [Nat.add].
      destruct (emptyIsInvalid && bool_decide (length kvs = 0%nat)) eqn:Hempty.
      * apply andb_prop in Hempty as [-> Hz]. apply bool_decide_eq_true in Hz.
        eexists. split; [reflexivity|]. split.
        -- split; [discriminate|].
           intros [[He _] | (kvs' & [= <-] & _ & Hne)]; [discriminate|].
           destruct kvs; [by destruct Hne | discriminate].
        -- intros pre k v post [= ->]. rewrite length_app in Hz. simpl in Hz. lia.
      * eexists. split; [reflexivity|]. split.
        -- split; [|done]. intros _. right. exists kvs. split; [done|].
           split; [done|]. intros ->. simpl in Hempty.
           apply bool_decide_eq_false in Hempty. by intros ->.
        -- intros pre k v post [= ->] Hpre Hv.
           apply Forall_app in Hall as [_ Hall]. apply Forall_cons in Hall as [Hv' _].
           unfold value_listed in Hv'. simpl in Hv'. congruence.
Qed.

(** X12. The copy of [isValidParamsObject] in the add-on returns what the
    script's returns, except for [null], [undefined] and a blank string
    with [emptyIsInvalid] unset: the script accepts them, the add-on
    refuses them. *)
Theorem isValidParamsObject_copies (obj valueTypes : jsval) (emptyIsInvalid : bool) :
  (emptyIsInvalid = true \/ isEmpty obj || isEmptyString obj = false ->
     addon_outcome (Addon.isValidParamsObject obj valueTypes emptyIsInvalid)
     = script_outcome (isValidParamsObject obj valueTypes emptyIsInvalid))
  /\ (emptyIsInvalid = false -> isEmpty obj || isEmptyString obj = true ->
      script_outcome (isValidParamsObject obj valueTypes emptyIsInvalid)
      = Ok (true, EmptyString)
      /\ exists m, addon_outcome (Addon.isValidParamsObject obj valueTypes emptyIsInvalid)
                   = Ok (false, m)).
Proof.
  split.
  - intros H. unfold isValidParamsObject, Addon.isValidParamsObject.
    assert (negb emptyIsInvalid && (isEmpty obj || isEmptyString obj) = false) as ->.
    { destruct H as [-> | ->]; [done | apply andb_false_r]. }
    destruct obj as [[]| |kvs]; try reflexivity.
    cbn [isObject Addon.isObject negb].
    destruct valueTypes as [|types|]; try reflexivity.
    destruct (shadows_hasOwnProperty kvs); [reflexivity|].
    destruct (check_keys kvs types 0); [reflexivity|].
    by destruct (emptyIsInvalid && bool_decide (n = 0%nat)).
  - intros -> Hb. unfold isValidParamsObject, Addon.isValidParamsObject.
    rewrite Hb. split; [reflexivity|].
    destruct obj as [[]| |kvs]; try discriminate; by eexists.
Qed.

End ParamsObject.

Section ParamsObjectExamples.

(** A number under the second key, where strings only are listed. *)
Lemma isValidParamsObject_decides_witness :
  exists r,
    Script.isValidParamsObject
      (Obj [("season", Prim (PStr "summer")); ("year", Prim (PNum 2016))])
      (Arr [Prim (PStr "string")]) true = Ok r
    /\ r = {| Script.success := false;
              Script.message := "key `year` has an invalid type `number`" |}.
Proof.
  destruct (isValidParamsObject_decides
              (Obj [("season", Prim (PStr "summer")); ("year", Prim (PNum 2016))])
              [Prim (PStr "string")] true eq_refl) as (r & Hr & _ & Hfirst).
  exists r. split; [exact Hr|].
  apply (Hfirst [("season", Prim (PStr "summer"))] "year" (Prim (PNum 2016)) []).
  - reflexivity.
  - repeat constructor.
  - reflexivity.
Defined.

(** The empty object, and [null] with [emptyIsInvalid] unset. *)
Lemma isValidParamsObject_copies_witness :
  addon_outcome (Addon.isValidParamsObject (Obj []) (Arr [Prim (PStr "string")]) true)
  = script_outcome (Script.isValidParamsObject (Obj []) (Arr [Prim (PStr "string")]) true)
  /\ script_outcome (Script.isValidParamsObject PNull (Arr [Prim (PStr "string")]) false)
     = Ok (true, EmptyString)
  /\ exists m, addon_outcome (Addon.isValidParamsObject PNull (Arr [Prim (PStr "string")]) false)
               = Ok (false, m).
Proof.
  split.
  - apply (isValidParamsObject_copies (Obj []) (Arr [Prim (PStr "string")]) true).
    by left.
  - apply (isValidParamsObject_copies PNull (Arr [Prim (PStr "string")]) false);
      reflexivity.
Defined.

End ParamsObjectExamples.

(** ** Change tracking and resuming a pass *)

Section ChangeTracking.

Import Helpers.

Lemma elements_equal_eq (a : list prim) :
  forall b, length a = length b -> (elements_equal a b = true <-> a = b).
Proof.
  induction a as [|x a IH]; intros [|y b] Hlen; simpl in *; try discriminate.
  - done.
  - unfold strict_eq. destruct (decide (x = y)) as [->|Hne].
    + rewrite bool_decide_eq_true_2 by done. simpl.
      rewrite IH by lia. split; [by intros -> | by intros [= ->]].
    + rewrite bool_decide_eq_false_2 by done. simpl.
      split; [discriminate | by intros [= ? ?]].
Qed.

Lemma isArrayShallowEquals_nullish (a b : tracked) :
  nullish a = true -> nullish b = true -> isArrayShallowEquals a b = true.
Proof.
  destruct a as [[]|], b as [[]|]; try discriminate; reflexivity.
Qed.

Lemma isArrayShallowEquals_same (l : list prim) :
  isArrayShallowEquals (TArray l) (TArray l) = true.
Proof.
  unfold isArrayShallowEquals. simpl.
  rewrite bool_decide_eq_true_2 by done. simpl.
  by apply elements_equal_eq.
Qed.

Lemma isArrayShallowEquals_inv (a b : tracked) :
  isArrayShallowEquals a b = true ->
  (nullish a = true /\ nullish b = true) \/ exists l, a = TArray l /\ b = TArray l.
Proof.
  unfold isArrayShallowEquals.
  destruct a as [pa|la], b as [pb|lb].
  - destruct pa as [| |[]|na|sa], pb as [| |[]|nb|sb]; simpl;
      try destruct (negb (na =? 0)); try destruct (negb (nb =? 0));
      try destruct (negb (bool_decide (sa = EmptyString)));
      try destruct (negb (bool_decide (sb = EmptyString))); simpl;
      try discriminate; intros _; by left.
  - destruct pa as [| |[]|na|sa]; simpl;
      try destruct (negb (na =? 0));
      try destruct (negb (bool_decide (sa = EmptyString))); simpl;
      discriminate.
  - destruct pb as [| |[]|nb|sb]; simpl;
      try destruct (negb (nb =? 0));
      try destruct (negb (bool_decide (sb = EmptyString))); simpl;
      discriminate.
  - simpl. destruct (decide (length la = length lb)) as [Hlen|Hlen].
    + rewrite bool_decide_eq_true_2 by done. simpl.
      rewrite (elements_equal_eq la lb Hlen). intros ->. right. by exists lb.
    + rewrite bool_decide_eq_false_2 by done. simpl. discriminate.
Qed.

(** X13. [isArrayShallowEquals] holds of two values exactly when both are
    [null] or [undefined], or both are arrays of the same elements in the
    same order. *)
Theorem isArrayShallowEquals_spec (a b : tracked) :
  isArrayShallowEquals a b = true
  <-> (nullish a = true /\ nullish b = true)
      \/ exists l, a = TArray l /\ b = TArray l.
Proof.
  split.
  - apply isArrayShallowEquals_inv.
  - intros [[Ha Hb] | (l & -> & ->)].
    + by apply isArrayShallowEquals_nullish.
    + apply isArrayShallowEquals_same.
Qed.

(** X14. [trackChange] leaves the change structure as it is when the old
    and the new value are the same value, arrays of the same elements, or
    both [null] or [undefined]; in every other case it appends one change,
    with the field name and the two values, after the changes tracked so
    far, and leaves the identifiers and the creation mark as they are. *)
Theorem trackChange_spec (fieldName : string) (oldValue newValue : tracked)
    (this : AdChange) :
  (oldValue = newValue \/ (nullish oldValue = true /\ nullish newValue = true) ->
     trackChange fieldName oldValue newValue this = this)
  /\ (oldValue <> newValue -> nullish oldValue && nullish newValue = false ->
      trackChange fieldName oldValue newValue this
      = {| adId := adId this;
           adGroupId := adGroupId this;
           changes := changes this
                      ++ [{| Helpers.fieldName := fieldName;
                             Helpers.oldValue := oldValue;
                             Helpers.newValue := newValue |}];
           created := created this |}).
Proof.
  unfold trackChange. split.
  - intros H.
    assert (tracked_strict_eq oldValue newValue
            || isArrayShallowEquals oldValue newValue = true) as ->; [|done].
    destruct H as [<- | [Ho Hn]].
    + destruct oldValue as [p|l].
      * simpl. unfold strict_eq. by rewrite bool_decide_eq_true_2.
      * apply orb_true_intro. right. apply isArrayShallowEquals_same.
    + apply orb_true_intro. right. by apply isArrayShallowEquals_nullish.
  - intros Hne Hnull.
    assert (tracked_strict_eq oldValue newValue
            || isArrayShallowEquals oldValue newValue = false) as ->; [|done].
    apply orb_false_intro.
    + destruct oldValue as [p|l], newValue as [q|m]; simpl; try done.
      unfold strict_eq. apply bool_decide_eq_false. congruence.
    + apply not_true_is_false. intros H. apply isArrayShallowEquals_inv in H.
      destruct H as [[Ho Hn] | (l & -> & ->)]; [|done].
      rewrite Ho, Hn in Hnull. discriminate.
Qed.

(** X15. [spliceFromLastRowChecked] keeps a suffix of the rows: it drops
    the rows before the last row checked, counted from the header, when
    that row is, strictly, between the first row and the end, and drops
    nothing otherwise; of rows that are not empty it never drops the
    last. *)
Theorem spliceFromLastRowChecked_suffix {A : Type} (rows : list A)
    (lastRowCheckedIndex : option Z) (headerIndex : Z) :
  let kept := spliceFromLastRowChecked rows lastRowCheckedIndex headerIndex in
  let n := default 0 lastRowCheckedIndex - headerIndex in
  (0 < n < Z.of_nat (length rows) ->
     rows = take (Z.to_nat n) rows ++ kept
     /\ Z.of_nat (length kept) = Z.of_nat (length rows) - n)
  /\ (n <= 0 \/ Z.of_nat (length rows) <= n -> kept = rows)
  /\ (rows <> [] -> last kept = last rows).
Proof.
  cbv zeta. unfold spliceFromLastRowChecked.
  set (n := default 0 lastRowCheckedIndex - headerIndex).
  destruct (Z.ltb_spec 0 n) as [H0|H0];
    destruct (Z.ltb_spec n (Z.of_nat (length rows))) as [H1|H1]; simpl.
  - split; [|split].
    + intros _. split; [by rewrite take_drop|]. rewrite length_drop. lia.
    + lia.
    + intros _. rewrite <- (take_drop (Z.to_nat n) rows) at 2.
      rewrite last_app. destruct (last (drop (Z.to_nat n) rows)) eqn:E; [done|].
      apply last_None in E. apply (f_equal length) in E.
      rewrite length_drop in E. simpl in E. lia.
  - split; [lia|]. by split.
  - split; [lia|]. by split.
  - split; [lia|]. by split.
Qed.

End ChangeTracking.

Section ChangeTrackingExamples.

(** Equal label arrays are no change; a status that changes is one. *)
Lemma trackChange_spec_witness :
  Helpers.trackChange "labels" (Helpers.TArray [PStr "ETA"]) (Helpers.TArray [PStr "ETA"])
    (Helpers.new_AdChange (PNum 10) (PNum 77))
  = Helpers.new_AdChange (PNum 10) (PNum 77)
  /\ Helpers.changes
       (Helpers.trackChange "status" (Helpers.TVal (PStr "paused"))
          (Helpers.TVal (PStr "enabled")) (Helpers.new_AdChange (PNum 10) (PNum 77)))
     = [{| Helpers.fieldName := "status";
           Helpers.oldValue := Helpers.TVal (PStr "paused");
           Helpers.newValue := Helpers.TVal (PStr "enabled") |}].
Proof.
  split.
  - apply (trackChange_spec "labels" (Helpers.TArray [PStr "ETA"])
             (Helpers.TArray [PStr "ETA"])). by left.
  - rewrite (proj2 (trackChange_spec "status" (Helpers.TVal (PStr "paused"))
                      (Helpers.TVal (PStr "enabled"))
                      (Helpers.new_AdChange (PNum 10) (PNum 77)))); [reflexivity| |].
    + discriminate.
    + reflexivity.
Defined.

(** Four rows under a header at 3: resuming at 5 drops two rows, resuming
    at 9 drops none. *)
Lemma spliceFromLastRowChecked_suffix_witness :
  [5; 6; 7; 8] = take 2 [5; 6; 7; 8]
                 ++ Helpers.spliceFromLastRowChecked [5; 6; 7; 8] (Some 5) 3
  /\ Helpers.spliceFromLastRowChecked [5; 6; 7; 8] (Some 9) 3 = [5; 6; 7; 8].
Proof.
  destruct (spliceFromLastRowChecked_suffix [5; 6; 7; 8] (Some 5) 3) as (Hin & _ & _).
  destruct (spliceFromLastRowChecked_suffix [5; 6; 7; 8] (Some 9) 3) as (_ & Hout & _).
  split.
  - apply Hin. simpl. lia.
  - apply Hout. right. simpl. lia.
Defined.

End ChangeTrackingExamples.

(** ** Customer identifiers *)

Section CustomerId.

Import Helpers.

Lemma split_cons (sep : ascii) (s : string) : exists x rest, split sep s = x :: rest.
Proof.
  induction s as [|a s (x & rest & IH)]; simpl; [by eexists _, _|].
  destruct (bool_decide (a = sep)); [by eexists _, _|].
  rewrite IH. by eexists _, _.
Qed.

Lemma split_no_sep (sep : ascii) (a : string) :
  has_char sep a = false -> split sep a = [a].
Proof.
  induction a as [|x a IH]; simpl; [done|].
  intros H. apply orb_false_elim in H as [Hx Ha]. rewrite Hx, IH; done.
Qed.

Lemma split_app (sep : ascii) (a rest : string) :
  has_char sep a = false ->
  split sep (a +:+ String sep rest) = a :: split sep rest.
Proof.
  induction a as [|x a IH]; simpl.
  - intros _. by rewrite bool_decide_eq_true_2.
  - intros H. apply orb_false_elim in H as [Hx Ha]. rewrite Hx.
    change (split sep (a +:+ String sep rest)) with (split sep (a +:+ String sep rest)).
    by rewrite (IH Ha).
Qed.

Lemma join_cons (sep x y : string) (l : list string) :
  join sep (x :: y :: l) = x +:+ sep +:+ join sep (y :: l).
Proof. reflexivity. Qed.

Lemma join_split (sep : ascii) (s : string) :
  join (String sep EmptyString) (split sep s) = s
  /\ Forall (fun part => has_char sep part = false) (split sep s).
Proof.
  induction s as [|a s [IHj IHf]]; cbn [split].
  - split; [done|]. by repeat constructor.
  - destruct (split_cons sep s) as (x & rest & E). rewrite E in *.
    destruct (decide (a = sep)) as [->|Hne].
    + rewrite bool_decide_eq_true_2 by done. split.
      * rewrite join_cons, IHj. reflexivity.
      * by apply Forall_cons_2.
    + rewrite (bool_decide_eq_false_2 (a = sep)) by done.
      apply Forall_cons in IHf as [Hx Hrest]. split.
      * destruct rest as [|y rest].
        -- cbn [join] in *. by rewrite IHj.
        -- rewrite join_cons in *. by rewrite <- IHj.
      * apply Forall_cons_2; [|done]. cbn [has_char].
        by rewrite (bool_decide_eq_false_2 (a = sep)) by done.
Qed.

Lemma digit_of_digit (a : ascii) :
  (48 <=? charCode a) && (charCode a <=? 57) = true ->
  digit_of a = Some (charCode a - 48) /\ is_white a = false
  /\ a <> "-"%char /\ a <> "+"%char.
Proof.
  intros H. unfold digit_of. rewrite H. split; [done|].
  apply andb_prop in H as [H1 H2]. apply Z.leb_le in H1, H2.
  split; [|split].
  - unfold is_white. cbv zeta.
    destruct (Z.leb_spec 9 (charCode a)), (Z.leb_spec (charCode a) 13),
      (Z.eqb_spec (charCode a) 32), (Z.eqb_spec (charCode a) 160); simpl; lia.
  - intros ->. vm_compute in H1. done.
  - intros ->. vm_compute in H1. done.
Qed.

Lemma parse_digits_all (s : string) :
  all_digits s = true ->
  forall acc, parse_digits s (Some acc) = Some (digits_value s acc).
Proof.
  induction s as [|a s IH]; simpl; [done|].
  intros H acc. apply andb_prop in H as [Ha Hs].
  destruct (digit_of_digit a Ha) as (-> & _). simpl. by apply IH.
Qed.

Lemma parseInt10_digits (s : string) :
  all_digits s = true -> s <> EmptyString ->
  parseInt10 s = Some (digits_value s 0).
Proof.
  destruct s as [|a s]; [done|]. intros H _. simpl in H.
  apply andb_prop in H as [Ha Hs].
  destruct (digit_of_digit a Ha) as (Hd & Hw & Hm & Hp).
  unfold parseInt10. cbn [trim_start]. rewrite Hw.
  rewrite (bool_decide_eq_false_2 (a = "-"%char)) by done.
  rewrite (bool_decide_eq_false_2 (a = "+"%char)) by done.
  cbn [parse_digits]. rewrite Hd. cbn [default from_option id].
  rewrite parse_digits_all by done. by rewrite Z.mul_0_r, Z.add_0_l.
Qed.

Lemma all_digits_no_dash (s : string) :
  all_digits s = true -> has_char "-"%char s = false.
Proof.
  induction s as [|a s IH]; simpl; [done|].
  intros H. apply andb_prop in H as [Ha Hs].
  destruct (digit_of_digit a Ha) as (_ & _ & Hm & _).
  rewrite (bool_decide_eq_false_2 (a = "-"%char)) by done. by apply IH.
Qed.

Lemma all_digits_app (s t : string) :
  all_digits (s +:+ t) = all_digits s && all_digits t.
Proof.
  induction s as [|a s IH]; simpl; [done|]. rewrite IH. by rewrite andb_assoc.
Qed.

(** X16. [validateCid] accepts every customer identifier that is written
    as three, three and four decimal digits with a dash between the
    groups, and returns the number that the ten digits write. *)
Theorem validateCid_digits (a b c : string) :
  all_digits a = true -> all_digits b = true -> all_digits c = true ->
  String.length a = 3%nat -> String.length b = 3%nat -> String.length c = 4%nat ->
  validateCid (PStr (a +:+ "-" +:+ b +:+ "-" +:+ c))
  = Ok (digits_value (a +:+ b +:+ c) 0).
Proof.
  intros Ha Hb Hc La Lb Lc. unfold validateCid.
  assert (truthy (PStr (a +:+ "-" +:+ b +:+ "-" +:+ c)) = true) as ->.
  { destruct a; [discriminate La | done]. }
  cbn [negb]. rewrite !append_cons, !append_nil_l.
  rewrite (split_app "-"%char a) by by apply all_digits_no_dash.
  rewrite (split_app "-"%char b) by by apply all_digits_no_dash.
  rewrite (split_no_sep "-"%char c) by by apply all_digits_no_dash.
  cbn [List.length lookup list_lookup default from_option id]. rewrite La, Lb, Lc.
  rewrite !bool_decide_eq_true_2 by done. cbn [negb].
  assert (join EmptyString [a; b; c] = a +:+ b +:+ c) as -> by done.
  rewrite parseInt10_digits; [done| |].
  - rewrite !all_digits_app. by rewrite Ha, Hb, Hc.
  - destruct a; [discriminate La | done].
Qed.

Lemma has_char_app (ch : ascii) (s t : string) :
  has_char ch (s +:+ t) = has_char ch s || has_char ch t.
Proof.
  induction s as [|a s IH]; simpl; [done|]. rewrite IH. by rewrite orb_assoc.
Qed.

Lemma has_char_trim_start (ch : ascii) (s : string) :
  has_char ch s = false -> has_char ch (trim_start s) = false.
Proof.
  induction s as [|a s IH]; simpl; [done|]. intros H.
  destruct (is_white a); [|done].
  apply orb_false_elim in H as [_ H]. by apply IH.
Qed.

Lemma parse_digits_bound (s : string) :
  forall acc n,
    parse_digits s acc = Some n ->
    0 <= default 0 acc ->
    0 <= n < (default 0 acc + 1) * 10 ^ Z.of_nat (String.length s).
Proof.
  induction s as [|a s IH]; intros acc n H Hacc.
  - cbn [parse_digits] in H. subst acc. cbn [default from_option id String.length] in *.
    change (Z.of_nat 0) with 0. rewrite Z.pow_0_r. lia.
  - cbn [parse_digits] in H. unfold digit_of in H.
    destruct ((48 <=? charCode a) && (charCode a <=? 57)) eqn:Ed.
    + apply andb_prop in Ed as [H1 H2]. apply Z.leb_le in H1, H2.
      apply IH in H; cbn [default from_option id] in *; [|lia].
      cbn [String.length]. rewrite Nat2Z.inj_succ, Z.pow_succ_r by lia.
      assert (0 < 10 ^ Z.of_nat (String.length s)) by (apply Z.pow_pos_nonneg; lia).
      nia.
    + subst acc. cbn [default from_option id] in *.
      assert (0 < 10 ^ Z.of_nat (String.length (String a s)))
        by (apply Z.pow_pos_nonneg; lia).
      nia.
Qed.

Lemma length_trim_start (s : string) :
  (String.length (trim_start s) <= String.length s)%nat.
Proof.
  induction s as [|a s IH]; simpl; [done|]. destruct (is_white a); simpl; lia.
Qed.

Lemma length_append (s t : string) :
  String.length (s +:+ t) = (String.length s + String.length t)%nat.
Proof. induction s as [|a s IH]; simpl; [done|]. by rewrite IH. Qed.

(** X17. Every value that [validateCid] accepts is a string of three parts
    with a dash between them, of three, three and four characters, none of
    them a dash; the number returned is not negative and has at most ten
    digits. *)
Theorem validateCid_accepted (cid : jsval) (n : Z) :
  validateCid cid = Ok n ->
  exists a b c,
    cid = Prim (PStr (a +:+ "-" +:+ b +:+ "-" +:+ c))
    /\ String.length a = 3%nat /\ String.length b = 3%nat /\ String.length c = 4%nat
    /\ has_char "-"%char (a +:+ b +:+ c) = false
    /\ 0 <= n < 10 ^ 10.
Proof.
  unfold validateCid. destruct (truthy cid); [|discriminate]. cbn [negb].
  destruct cid as [[| | | |s]| |]; try discriminate.
  destruct (join_split "-"%char s) as [Hj Hf].
  destruct (split "-"%char s) as [|a [|b [|c [|d rest]]]] eqn:E;
    try discriminate.
  cbn [List.length lookup list_lookup default].
  rewrite (bool_decide_eq_true_2 (3%nat = 3%nat)) by done. cbn [negb].
  destruct (decide (String.length a = 3%nat)) as [La|La];
    [rewrite (bool_decide_eq_true_2 _ La) | by rewrite (bool_decide_eq_false_2 _ La)].
  destruct (decide (String.length b = 3%nat)) as [Lb|Lb];
    [rewrite (bool_decide_eq_true_2 _ Lb) | by rewrite (bool_decide_eq_false_2 _ Lb)].
  destruct (decide (String.length c = 4%nat)) as [Lc|Lc];
    [rewrite (bool_decide_eq_true_2 _ Lc) | by rewrite (bool_decide_eq_false_2 _ Lc)].
  cbn [negb].
  destruct (parseInt10 (join EmptyString [a; b; c])) as [m|] eqn:Ep; [|discriminate].
  intros [= ->]. exists a, b, c.
  apply Forall_cons in Hf as [Ha Hf]. apply Forall_cons in Hf as [Hb Hf].
  apply Forall_cons in Hf as [Hc _].
  assert (has_char "-"%char (a +:+ b +:+ c) = false) as Hno.
  { rewrite !has_char_app. by rewrite Ha, Hb, Hc. }
  split; [by rewrite <- Hj|]. do 3 (split; [done|]). split; [done|].
  change (join EmptyString [a; b; c]) with (a +:+ b +:+ c) in Ep.
  unfold parseInt10 in Ep.
  pose proof (has_char_trim_start "-"%char _ Hno) as Ht.
  pose proof (length_trim_start (a +:+ b +:+ c)) as Hlen.
  rewrite !length_append, La, Lb, Lc in Hlen.
  destruct (trim_start (a +:+ b +:+ c)) as [|x t]; [discriminate|].
  cbn [has_char] in Ht. apply orb_false_elim in Ht as [Hx _].
  rewrite Hx in Ep. cbn [String.length] in Hlen.
  assert (10 ^ Z.of_nat (String.length t) <= 10 ^ 9) as Hpow9
    by (apply Z.pow_le_mono_r; lia).
  destruct (bool_decide (x = "+"%char)).
  - apply parse_digits_bound in Ep; cbn [default from_option id] in *; lia.
  - apply parse_digits_bound in Ep; cbn [default from_option id String.length] in *; [|lia].
    assert (10 ^ Z.of_nat (S (String.length t)) <= 10 ^ 10) as Hpow10
      by (apply Z.pow_le_mono_r; lia).
    lia.
Qed.

End CustomerId.

Section CustomerIdExamples.

(** The identifier 123-456-7890. *)
Lemma validateCid_digits_witness :
  Helpers.validateCid (PStr "123-456-7890") = Ok 1234567890.
Proof. apply (validateCid_digits "123" "456" "7890"); reflexivity. Defined.

(** A first part that starts with a space is accepted as well. *)
Lemma validateCid_accepted_witness :
  Helpers.validateCid (PStr " 12-456-7890") = Ok 124567890
  /\ exists a b c,
       Prim (PStr " 12-456-7890") = Prim (PStr (a +:+ "-" +:+ b +:+ "-" +:+ c))
       /\ String.length a = 3%nat /\ String.length b = 3%nat
       /\ String.length c = 4%nat
       /\ has_char "-"%char (a +:+ b +:+ c) = false
       /\ 0 <= 124567890 < 10 ^ 10.
Proof.
  split; [reflexivity|].
  apply (validateCid_accepted (PStr " 12-456-7890") 124567890). reflexivity.
Defined.

End CustomerIdExamples.

(** ** The labels to apply *)

Section RowLabels.

Import Script Helpers.

Variable JSON_parse : string -> option jsval.

Lemma has_label_app (l1 l2 : list jsval) (d : string) :
  has_label (l1 ++ l2) d = has_label l1 d || has_label l2 d.
Proof. unfold has_label. apply existsb_app. Qed.

Lemma getArray_pure (c : string) (st : rowState) :
  (getArray JSON_parse c st).2 = st.
Proof.
  unfold getArray, mbind, rowM_bind, getColumnIndex_, values_get, pure_step.
  cbn beta.
  destruct (columnNamesToIndices_ st.1 !! c) as [i|]; [|reflexivity].
  destruct (Script.isEmptyString (array_get (values_ st.1) i)); [reflexivity|].
  destruct (JSON_parse (prim_to_string (array_get (values_ st.1) i))) as [v|].
  - destruct v as [[]| |]; reflexivity.
  - destruct (JSON_parse _) as [v|]; [|reflexivity].
    destruct v as [[]| |]; reflexivity.
Qed.

(** What [getLabelsToApply] returns for the labels that [getArray] read. *)
Lemma getLabelsToApply_Ok (defaultLabel : string) (st : rowState)
    (parsed : list jsval) :
  (getArray JSON_parse "labels" st).1 = Ok parsed ->
  (getLabelsToApply JSON_parse defaultLabel st).1
  = Ok (if has_label parsed defaultLabel then parsed
        else parsed ++ [Prim (PStr defaultLabel)]).
Proof.
  unfold getLabelsToApply, mbind, rowM_bind, pure_step. cbn beta.
  destruct (getArray JSON_parse "labels" st) as [[parsed'|e] st'];
    cbn [fst snd]; [|discriminate].
  intros [= ->]. cbn [Script.isEmptyString].
  by destruct (has_label parsed defaultLabel).
Qed.

(** X18. [getLabelsToApply] reads the labels of a row and leaves the row
    as it is. When the labels cannot be read it throws what [getArray]
    throws; otherwise the labels it returns hold the default label: they
    are the labels of the row when the default label is among them, and
    the labels of the row followed by the default label when it is not. *)
Theorem getLabelsToApply_spec (defaultLabel : string) (st : rowState) :
  (getLabelsToApply JSON_parse defaultLabel st).2 = st
  /\ (forall e, (getArray JSON_parse "labels" st).1 = Raise e ->
        (getLabelsToApply JSON_parse defaultLabel st).1 = Raise e)
  /\ (forall parsed, (getArray JSON_parse "labels" st).1 = Ok parsed ->
        exists labels,
          (getLabelsToApply JSON_parse defaultLabel st).1 = Ok labels
          /\ has_label labels defaultLabel = true
          /\ labels = if has_label parsed defaultLabel then parsed
                      else parsed ++ [Prim (PStr defaultLabel)]).
Proof.
  split; [|split].
  - pose proof (getArray_pure "labels" st) as Hpure.
    unfold getLabelsToApply, mbind, rowM_bind, pure_step. cbn beta.
    by destruct (getArray JSON_parse "labels" st) as [[parsed|e] st'].
  - intros e. unfold getLabelsToApply, mbind, rowM_bind, pure_step. cbn beta.
    destruct (getArray JSON_parse "labels" st) as [[parsed|e'] st'];
      cbn [fst snd]; [discriminate | done].
  - intros parsed Hparsed. eexists.
    split; [by apply getLabelsToApply_Ok|]. split; [|done].
    destruct (has_label parsed defaultLabel) eqn:E; [done|].
    rewrite has_label_app. cbn [has_label existsb].
    rewrite bool_decide_eq_true_2 by done. by rewrite orb_true_r.
Qed.

End RowLabels.

(** ** The cells and the constructor of a row *)

Section RowCells.

Import Script.

Variable debug : bool.

Lemma array_get_set_ne (l : list prim) (i j : nat) (v : prim) :
  j <> i -> array_get (array_set l i v) j = array_get l j.
Proof.
  intros Hne. unfold array_get, array_set.
  destruct (decide (i < length l)%nat).
  - by rewrite list_lookup_insert_ne.
  - destruct (decide (j < length l)%nat).
    + by rewrite lookup_app_l.
    + rewrite lookup_app_r by lia.
      rewrite (lookup_ge_None_2 l j) by lia.
      destruct (decide (j - length l < i - length l)%nat).
      * rewrite lookup_app_l by (rewrite length_replicate; lia).
        by rewrite lookup_replicate_2.
      * rewrite lookup_app_r by (rewrite length_replicate; lia).
        rewrite length_replicate.
        rewrite lookup_ge_None_2; [done|]. simpl. lia.
Qed.

(** X19. [set] and [get] on a row of the script. [set] on a column that
    the row does not have, its name not the name of an inherited property,
    throws and changes nothing. On a column that the row has, [set]
    returns, writes the value to the cell of the sheet at the index of the
    column plus one, and leaves the error flag as it is; [get] of that
    column then returns the value, and [get] of every column with another
    index returns what the row held. *)
Theorem set_get (columnName : string) (value : prim) (st : rowState) :
  (columnNamesToIndices_ st.1 !! columnName = None ->
   inherited columnName = false ->
     set columnName value st
     = (Throw ("Column " +:+ Sheet.quote +:+ columnName +:+ Sheet.quote
               +:+ " does not exist."), st))
  /\ (forall i, columnNamesToIndices_ st.1 !! columnName = Some i ->
      exists st',
        set columnName value st = (Ok tt, st')
        /\ get columnName st' = (Ok value, st')
        /\ cellValue st'.2 !! (rowIndex_ st.1, Z.of_nat i + 1) = Some value
        /\ hasErrors st'.1 = hasErrors st.1
        /\ forall other j,
             columnNamesToIndices_ st.1 !! other = Some j -> j <> i ->
             get other st' = (Ok (array_get (values_ st.1) j), st')).
Proof.
  split.
  - intros Hnone _. by rewrite set_eq, Hnone.
  - intros i Hi. rewrite set_eq, Hi. eexists. split; [reflexivity|].
    split; [|split; [|split]].
    + rewrite get_eq. cbn [fst snd with_values columnNamesToIndices_ values_].
      by rewrite Hi, array_get_set.
    + cbn [snd cellValue]. apply lookup_insert_eq.
    + reflexivity.
    + intros other j Hj Hne. rewrite get_eq.
      cbn [fst snd with_values columnNamesToIndices_ values_].
      by rewrite Hj, array_get_set_ne.
Qed.

Lemma trim_first (a : ascii) (s : string) :
  is_white a = false -> trim (String a s) <> EmptyString.
Proof.
  intros H. unfold trim. cbn [trim_start]. rewrite H. cbn [trim_end].
  rewrite H. by destruct (trim_end s).
Qed.

Lemma message_nonblank (a : ascii) (m x : string) :
  is_white a = false ->
  isEmpty (PStr (String a m +:+ x)) || isEmptyString (PStr (String a m +:+ x))
  = false.
Proof.
  intros H. cbn [isEmpty isEmptyString orb]. apply bool_decide_eq_false.
  by apply trim_first.
Qed.

Lemma append_assoc (s t u : string) : (s +:+ t) +:+ u = s +:+ (t +:+ u).
Proof.
  induction s as [|a s IH]; [done|].
  change (String a ((s +:+ t) +:+ u) = String a (s +:+ (t +:+ u))). by rewrite IH.
Qed.

Lemma append_nil_r (s : string) : s +:+ EmptyString = s.
Proof.
  induction s as [|a s IH]; [done|].
  change (String a (s +:+ EmptyString) = String a s). by rewrite IH.
Qed.

Lemma markAsResolved_eq (st : rowState) :
  markAsResolved st
  = set "errorMessage" (PStr EmptyString)
      (st.1, {| rowBackground := <[rowIndex_ st.1 := PNull]> (rowBackground st.2);
                cellValue := cellValue st.2;
                logger := logger st.2 |}).
Proof. reflexivity. Qed.

Lemma validateValues__eq (st : rowState) (s t : nat) :
  columnNamesToIndices_ st.1 !! "staStatus" = Some s ->
  columnNamesToIndices_ st.1 !! "etaStatus" = Some t ->
  validateValues_ debug st
  = let sta := array_get (values_ st.1) s in
    match (if negb (isSupportedStatus sta)
           then markAsError debug
                  (PStr ("Unsuported STA status with value of '"
                         +:+ prim_to_string sta +:+ "'.")) st
           else (Ok tt, st))
    with
    | (Raise e, st1) => (Raise e, st1)
    | (Ok _, st1) =>
        match get "etaStatus" st1 with
        | (Raise e, st2) => (Raise e, st2)
        | (Ok eta, st2) =>
            if negb (isSupportedStatus eta)
            then markAsError debug
                   (PStr ("Unsuported ETA status with value of '"
                          +:+ prim_to_string eta +:+ "'.")) st2
            else (Ok tt, st2)
        end
    end.
Proof.
  intros Hs Ht. unfold validateValues_.
  unfold mbind at 1. unfold rowM_bind at 1. rewrite get_eq, Hs. cbv zeta.
  unfold mbind at 1. unfold rowM_bind at 1.
  destruct (negb (isSupportedStatus (array_get (values_ st.1) s))).
  - destruct (markAsError debug _ st) as [[u|e] st1]; [|done].
    unfold mbind at 1. unfold rowM_bind at 1.
    destruct (get "etaStatus" st1) as [[eta|e] st2]; [|done].
    by destruct (negb (isSupportedStatus eta)).
  - unfold mret, rowM_ret.
    unfold mbind at 1. unfold rowM_bind at 1.
    destruct (get "etaStatus" st) as [[eta|e] st2]; [|done].
    by destruct (negb (isSupportedStatus eta)).
Qed.

(** X20. The constructor of a row of the script. On a column mapping
    that owns a key [hasOwnProperty] it raises a [TypeError]. On every
    other mapping: without a column for the error message it throws; with
    columns for the error message and the two statuses, the error message
    at an index of its own, it returns a row whose error flag is set
    exactly when one of the two statuses is neither enabled nor paused;
    the error text that the row held is replaced by one line for each
    status that is not supported; the background of the row is red when
    the flag is set and cleared when it is not. *)
Theorem new_SpreadsheetRow_flags (values : list prim) (rowIndex : Z)
    (columns : gmap string nat) (w : world) :
  (is_Some (columns !! "hasOwnProperty") ->
     (new_SpreadsheetRow debug values rowIndex columns w).1 = Raise TypeError)
  /\ (columns !! "hasOwnProperty" = None ->
      (columns !! "errorMessage" = None ->
         exists msg,
           (new_SpreadsheetRow debug values rowIndex columns w).1 = Throw msg)
      /\ (forall e s t,
            columns !! "errorMessage" = Some e ->
            columns !! "staStatus" = Some s ->
            columns !! "etaStatus" = Some t ->
            s <> e -> t <> e ->
            let sta := array_get values s in
            let eta := array_get values t in
            exists st,
              new_SpreadsheetRow debug values rowIndex columns w = (Ok tt, st)
              /\ hasErrors st.1
                 = negb (isSupportedStatus sta && isSupportedStatus eta)
              /\ array_get (values_ st.1) e
                 = PStr (status_error "STA" sta +:+ status_error "ETA" eta)
              /\ rowBackground st.2 !! rowIndex
                 = Some (if isSupportedStatus sta && isSupportedStatus eta
                         then PNull else PStr "red"))).
Proof.
  split.
  { intros Hown. unfold new_SpreadsheetRow.
    by rewrite bool_decide_eq_true_2. }
  intros Hown.
  assert (bool_decide (is_Some (columns !! "hasOwnProperty")) = false) as Hplain.
  { apply bool_decide_eq_false. rewrite Hown. by intros [? ?]. }
  split.
  - intros Hnone. unfold new_SpreadsheetRow. rewrite Hplain, Hnone. by eexists.
  - intros e s t He Hs Ht Hse Hte sta eta.
    unfold new_SpreadsheetRow. rewrite Hplain, He.
    unfold mbind at 1. unfold rowM_bind at 1.
    rewrite markAsResolved_eq, set_eq.
    cbn [fst snd columnNamesToIndices_ rowIndex_ values_ rowBackground cellValue
         logger]. rewrite He.
    rewrite (validateValues__eq _ s t) by done.
    cbn [fst snd with_values columnNamesToIndices_ rowIndex_ values_ hasErrors_].
    cbv zeta. rewrite (array_get_set_ne values e s) by done. fold sta.
    unfold status_error.
    destruct (isSupportedStatus sta) eqn:Esta; cbn [negb andb].
    + rewrite get_eq.
      cbn [fst snd with_values columnNamesToIndices_ rowIndex_ values_ hasErrors_].
      rewrite Ht. rewrite (array_get_set_ne values e t) by done. fold eta.
      destruct (isSupportedStatus eta) eqn:Eeta; cbn [negb].
      * eexists. split; [reflexivity|]. cbn [fst snd with_values values_ hasErrors
          hasErrors_ rowBackground]. split; [done|].
        split; [by rewrite array_get_set | apply lookup_insert_eq].
      * rewrite markAsError_eq.
        rewrite (message_nonblank "U" _ _ eq_refl).
        cbn [fst snd with_values columnNamesToIndices_ rowIndex_ values_ hasErrors_
             rowBackground cellValue logger]. cbv zeta. rewrite He.
        eexists. split; [reflexivity|].
        cbn [fst snd values_ hasErrors hasErrors_ rowBackground].
        split; [done|]. split; [|apply lookup_insert_eq].
        rewrite !array_get_set. cbn [prim_to_string to_string].
        by rewrite !append_assoc.
    + rewrite markAsError_eq.
      rewrite (message_nonblank "U" _ _ eq_refl).
      cbn [fst snd with_values columnNamesToIndices_ rowIndex_ values_ hasErrors_
           rowBackground cellValue logger]. cbv zeta. rewrite He.
      rewrite get_eq.
      cbn [fst snd with_values columnNamesToIndices_ rowIndex_ values_ hasErrors_].
      rewrite Ht. rewrite !(array_get_set_ne _ e t) by done. fold eta.
      destruct (isSupportedStatus eta) eqn:Eeta; cbn [negb].
      * eexists. split; [reflexivity|].
        cbn [fst snd values_ hasErrors hasErrors_ rowBackground].
        split; [done|]. split; [|apply lookup_insert_eq].
        rewrite !array_get_set. cbn [prim_to_string to_string].
        by rewrite !append_assoc, append_nil_r.
      * rewrite markAsError_eq.
        rewrite (message_nonblank "U" _ _ eq_refl).
        cbn [fst snd with_values columnNamesToIndices_ rowIndex_ values_ hasErrors_
             rowBackground cellValue logger]. cbv zeta. rewrite He.
        eexists. split; [reflexivity|].
        cbn [fst snd values_ hasErrors hasErrors_ rowBackground].
        split; [done|]. split; [|apply lookup_insert_eq].
        rewrite !array_get_set. cbn [prim_to_string to_string].
        by rewrite !append_assoc.
Qed.

End RowCells.

Section RowCellsExamples.

(** The status of row 7 is set and read back; the row has no column
    [headline]. *)
Lemma set_get_witness :
  (exists st',
      Script.set "staStatus" (PStr "paused") Examples.freshRow = (Ok tt, st')
      /\ Script.get "staStatus" st' = (Ok (PStr "paused"), st')
      /\ Script.get "etaStatus" st' = (Ok (PStr "paused"), st'))
  /\ exists msg,
       Script.set "headline" (PStr "x") Examples.freshRow
       = (Throw msg, Examples.freshRow).
Proof.
  split.
  - destruct (proj2 (set_get "staStatus" (PStr "paused") Examples.freshRow) 0%nat
                eq_refl) as (st' & Hset & Hget & _ & _ & Hother).
    exists st'. split; [exact Hset|]. split; [exact Hget|].
    apply (Hother "etaStatus" 1%nat); [reflexivity | discriminate].
  - eexists.
    apply (proj1 (set_get "headline" (PStr "x") Examples.freshRow));
      reflexivity.
Defined.

(** A row whose second status is neither enabled nor paused; and a column
    mapping that owns the key [hasOwnProperty]. *)
Lemma new_SpreadsheetRow_flags_witness :
  (exists st,
      Script.new_SpreadsheetRow true [PStr "enabled"; PStr "removed"; PStr "- old"] 7
        Examples.scriptColumns Examples.emptyWorld = (Ok tt, st)
      /\ Script.hasErrors st.1 = true
      /\ array_get (Script.values_ st.1) 2
         = PStr (status_error "ETA" (PStr "removed"))
      /\ Script.rowBackground st.2 !! 7 = Some (PStr "red"))
  /\ (Script.new_SpreadsheetRow true [PStr "enabled"] 7
        (<["hasOwnProperty" := 3%nat]> Examples.scriptColumns) Examples.emptyWorld).1
     = Raise TypeError.
Proof.
  split.
  - destruct (proj2 (proj2 (new_SpreadsheetRow_flags true
                              [PStr "enabled"; PStr "removed"; PStr "- old"] 7
                              Examples.scriptColumns Examples.emptyWorld) eq_refl)
                2%nat 0%nat 1%nat eq_refl eq_refl eq_refl)
      as (st & Hnew & Hflag & Htext & Hbg); [discriminate | discriminate |].
    exists st. split; [exact Hnew|]. split; [exact Hflag|].
    split; [exact Htext | exact Hbg].
  - apply (new_SpreadsheetRow_flags true [PStr "enabled"] 7
             (<["hasOwnProperty" := 3%nat]> Examples.scriptColumns)
             Examples.emptyWorld).
    by exists 3%nat.
Defined.

End RowCellsExamples.

(** ** What a status sync can change *)

Section StatusSyncSafety.

Import Script.

Lemma set_adState_ads (h h' : nat) (s : adStateT) (m : mutation) (p : platform)
    (a' : AdWordsAd) :
  ads (set_adState h s m p) !! h' = Some a' ->
  exists a, ads p !! h' = Some a /\ same_but_state a a'
            /\ (adState a' = adState a \/ h' = h).
Proof.
  unfold set_adState. cbn [ads]. destruct (decide (h' = h)) as [->|Hne].
  - rewrite lookup_alter_eq. destruct (ads p !! h) as [a|]; [|discriminate].
    intros [= <-]. exists a. split; [done|]. split; [done | by right].
  - rewrite lookup_alter_ne by done. intros H. exists a'.
    split; [done|]. split; [done | by left].
Qed.

Lemma syncStatus_try_safe (n : string) (this : Ad) (p p' : platform) (ok : bool) :
  syncStatus_try n this p = (ok, p') ->
  withIds p' = withIds p
  /\ (ok = false -> p' = p)
  /\ (mutations p' = mutations p
      \/ exists h, ad this = Some h /\ ok = true
                   /\ (mutations p' = mutations p ++ [Enable h]
                       \/ mutations p' = mutations p ++ [Pause h]))
  /\ forall h' a',
       ads p' !! h' = Some a' ->
       exists a, ads p !! h' = Some a /\ same_but_state a a'
                 /\ (adState a' = adState a
                     \/ (ad this = Some h' /\ 0 <= getId a /\ rejects a = false)).
Proof.
  assert (forall q : platform,
            withIds q = withIds q /\ (false = false -> q = q)
            /\ (mutations q = mutations q
                \/ exists h, ad this = Some h /\ false = true
                             /\ (mutations q = mutations q ++ [Enable h]
                                 \/ mutations q = mutations q ++ [Pause h]))
            /\ forall h' a',
                 ads q !! h' = Some a' ->
                 exists a, ads q !! h' = Some a /\ same_but_state a a'
                           /\ (adState a' = adState a
                               \/ (ad this = Some h' /\ 0 <= getId a
                                   /\ rejects a = false))) as Hsame.
  { intros q. split; [done|]. split; [done|]. split; [by left|].
    intros h' a' H. exists a'. split; [done|]. split; [done | by left]. }
  assert (forall (q : platform) (b : bool),
            withIds q = withIds q /\ (b = false -> q = q)
            /\ (mutations q = mutations q
                \/ exists h, ad this = Some h /\ b = true
                             /\ (mutations q = mutations q ++ [Enable h]
                                 \/ mutations q = mutations q ++ [Pause h]))
            /\ forall h' a',
                 ads q !! h' = Some a' ->
                 exists a, ads q !! h' = Some a /\ same_but_state a a'
                           /\ (adState a' = adState a
                               \/ (ad this = Some h' /\ 0 <= getId a
                                   /\ rejects a = false))) as Hkeep.
  { intros q b. split; [done|]. split; [done|]. split; [by left|].
    intros h' a' H. exists a'. split; [done|]. split; [done | by left]. }
  unfold syncStatus_try.
  destruct (ad this) as [h|] eqn:Eh; [|intros [= <- <-]; apply Hkeep].
  destruct (ads p !! h) as [a|] eqn:Ea; [|intros [= <- <-]; apply Hkeep].
  destruct (Z.ltb_spec (getId a) 0) as [Hneg|Hid]; [intros [= <- <-]; apply Hkeep|].
  assert (forall (s : adStateT) (m : mutation),
            rejects a = false ->
            m = Enable h \/ m = Pause h ->
            (true, set_adState h s m p) = (ok, p') ->
            withIds p' = withIds p /\ (ok = false -> p' = p)
            /\ (mutations p' = mutations p
                \/ exists h0, Some h = Some h0 /\ ok = true
                              /\ (mutations p' = mutations p ++ [Enable h0]
                                  \/ mutations p' = mutations p ++ [Pause h0]))
            /\ forall h' a',
                 ads p' !! h' = Some a' ->
                 exists a0, ads p !! h' = Some a0 /\ same_but_state a0 a'
                            /\ (adState a' = adState a0
                                \/ (Some h = Some h' /\ 0 <= getId a0
                                    /\ rejects a0 = false))) as Hmut.
  { intros s m Hrej Hm [= <- <-]. split; [done|]. split; [discriminate|]. split.
    - right. exists h. split; [done|]. split; [done|].
      destruct Hm as [-> | ->]; [by left | by right].
    - intros h' a' H. apply set_adState_ads in H as (a0 & Ha0 & Hsb & Hst).
      exists a0. split; [done|]. split; [done|].
      destruct Hst as [? | ->]; [by left|]. right.
      rewrite Ea in Ha0. injection Ha0 as <-. done. }
  unfold enable, pause. rewrite Ea.
  destruct (rejects a) eqn:Erej.
  - repeat case_bool_decide; intros [= <- <-]; apply Hkeep.
  - repeat case_bool_decide.
    + apply Hmut; [done | by left].
    + apply Hmut; [done | by right].
    + apply Hmut; [done | by right].
    + intros [= <- <-]. apply Hkeep.
Qed.

Lemma set_adState_keeps (h h' : nat) (s : adStateT) (m : mutation) (p : platform)
    (a : AdWordsAd) :
  ads p !! h' = Some a ->
  exists a', ads (set_adState h s m p) !! h' = Some a' /\ same_but_state a a'.
Proof.
  intros Ha. unfold set_adState. cbn [ads].
  destruct (decide (h' = h)) as [->|Hne].
  - rewrite lookup_alter_eq, Ha. by eexists.
  - rewrite lookup_alter_ne by done. by exists a.
Qed.

Lemma syncStatus_try_keeps (n : string) (this : Ad) (p p' : platform) (ok : bool) :
  syncStatus_try n this p = (ok, p') ->
  forall h' a, ads p !! h' = Some a ->
    exists a', ads p' !! h' = Some a' /\ same_but_state a a'.
Proof.
  assert (forall h' a, ads p !! h' = Some a ->
            exists a', ads p !! h' = Some a' /\ same_but_state a a') as Hsame.
  { intros h' a Ha. by exists a. }
  unfold syncStatus_try, enable, pause.
  destruct (ad this) as [h|]; [|by intros [= <- <-]].
  destruct (ads p !! h) as [a0|]; [|by intros [= <- <-]].
  destruct (getId a0 <? 0); [by intros [= <- <-]|].
  destruct (rejects a0).
  - repeat case_bool_decide; by intros [= <- <-].
  - repeat case_bool_decide; intros [= <- <-]; try done;
      intros h' a Ha; by apply set_adState_keeps.
Qed.

(** X21. What a call of [syncStatus] that returns can change. The row of
    the ad and the selector are as they were. At most one mutation is
    carried out, on the ad that the returned object refers to, and none
    when the call reports failure: the platform is then as it was. Every
    ad of the platform keeps its identifier, its labels and its place; the
    state of an ad changes only if it is the ad referred to, its identifier
    is not negative and the platform accepts the call; and every ad that
    the platform had it still has, with its identifier and its labels. *)
Theorem syncStatus_safe (status : jsval) (this this' : Ad) (p p' : platform)
    (ok : bool) :
  syncStatus status this p = Ok (ok, this', p') ->
  row this' = row this
  /\ withIds p' = withIds p
  /\ (ok = false -> p' = p)
  /\ (mutations p' = mutations p
      \/ exists h, ad this' = Some h /\ ok = true
                   /\ (mutations p' = mutations p ++ [Enable h]
                       \/ mutations p' = mutations p ++ [Pause h]))
  /\ (forall h' a',
        ads p' !! h' = Some a' ->
        exists a, ads p !! h' = Some a /\ same_but_state a a'
                  /\ (adState a' = adState a
                      \/ (ad this' = Some h' /\ 0 <= getId a /\ rejects a = false)))
  /\ (forall h' a,
        ads p !! h' = Some a ->
        exists a', ads p' !! h' = Some a' /\ same_but_state a a').
Proof.
  intros Hrun.
  assert (forall h' a, ads p !! h' = Some a ->
            exists a', ads p' !! h' = Some a' /\ same_but_state a a') as Hall.
  { revert Hrun. unfold syncStatus.
    destruct (isEmptyString status); [discriminate|].
    destruct status as [[| | | |s]| |]; try discriminate.
    destruct (getStatus this p) as [current|]; [|discriminate].
    cbn [mbind result_bind].
    destruct (strict_eq current (PStr (toLowerCase (trim s)))).
    { intros [= <- <- <-] h' a Ha. by exists a. }
    destruct (negb (hasAdWordsAppAd this)).
    - unfold getAd.
      destruct (isEmptyString (row_adGroupId (row this))
                || isEmptyString (row_id (row this))); [discriminate|].
      destruct (withIds p (row_adGroupId (row this)) (row_id (row this))) as [h|];
        cbn [mbind result_bind negb].
      + destruct (syncStatus_try (toLowerCase (trim s))
                    {| row := row this; ad := Some h |} p) as [ok0 p0] eqn:Etry.
        intros [= <- <- <-]. by apply (syncStatus_try_keeps _ _ _ _ _ Etry).
      + intros [= <- <- <-] h' a Ha. by exists a.
    - cbn [mbind result_bind negb].
      destruct (syncStatus_try (toLowerCase (trim s)) this p) as [ok0 p0] eqn:Etry.
      intros [= <- <- <-]. by apply (syncStatus_try_keeps _ _ _ _ _ Etry). }
  cut (row this' = row this
       /\ withIds p' = withIds p
       /\ (ok = false -> p' = p)
       /\ (mutations p' = mutations p
           \/ exists h, ad this' = Some h /\ ok = true
                        /\ (mutations p' = mutations p ++ [Enable h]
                            \/ mutations p' = mutations p ++ [Pause h]))
       /\ forall h' a',
            ads p' !! h' = Some a' ->
            exists a, ads p !! h' = Some a /\ same_but_state a a'
                      /\ (adState a' = adState a
                          \/ (ad this' = Some h' /\ 0 <= getId a
                              /\ rejects a = false))).
  { intros (H1 & H2 & H3 & H4 & H5). repeat (split; [done|]). done. }
  clear Hall. revert Hrun.
  assert (forall (t : Ad) (q : platform) (b : bool),
            row t = row this ->
            row t = row this /\ withIds q = withIds q /\ (b = false -> q = q)
            /\ (mutations q = mutations q
                \/ exists h, ad t = Some h /\ b = true
                             /\ (mutations q = mutations q ++ [Enable h]
                                 \/ mutations q = mutations q ++ [Pause h]))
            /\ forall h' a',
                 ads q !! h' = Some a' ->
                 exists a, ads q !! h' = Some a /\ same_but_state a a'
                           /\ (adState a' = adState a
                               \/ (ad t = Some h' /\ 0 <= getId a
                                   /\ rejects a = false))) as Hkeep.
  { intros t q b Hrow. split; [done|]. split; [done|]. split; [done|].
    split; [by left|]. intros h' a' H. exists a'. split; [done|].
    split; [done | by left]. }
  unfold syncStatus. destruct (isEmptyString status); [discriminate|].
  destruct status as [[| | | |s]| |]; try discriminate.
  destruct (getStatus this p) as [current|]; [|discriminate].
  cbn [mbind result_bind].
  destruct (strict_eq current (PStr (toLowerCase (trim s)))).
  { intros [= <- <- <-]. by apply Hkeep. }
  destruct (negb (hasAdWordsAppAd this)).
  - unfold getAd.
    destruct (isEmptyString (row_adGroupId (row this))
              || isEmptyString (row_id (row this))); [discriminate|].
    destruct (withIds p (row_adGroupId (row this)) (row_id (row this))) as [h|];
      cbn [mbind result_bind negb].
    + destruct (syncStatus_try (toLowerCase (trim s))
                  {| row := row this; ad := Some h |} p) as [ok0 p0] eqn:Etry.
      intros [= <- <- <-]. split; [done|]. by apply syncStatus_try_safe in Etry.
    + intros [= <- <- <-]. by apply Hkeep.
  - cbn [mbind result_bind negb].
    destruct (syncStatus_try (toLowerCase (trim s)) this p) as [ok0 p0] eqn:Etry.
    intros [= <- <- <-]. split; [done|]. by apply syncStatus_try_safe in Etry.
Qed.

(** X22. [syncStatus] on an ad that is known from its report row only,
    with a declared status that is not blank. A blank status in the row
    makes it throw. When the status of the row is the normalized declared
    status, it returns success without a lookup. Otherwise it looks the
    ad up: it throws when the identifier of the ad or of its group is
    blank, it reports failure and changes nothing when the platform has
    no such ad, and when the platform has it, the returned object refers
    to the ad that was found. *)
Theorem syncStatus_unresolved (s : string) (this : Ad) (p : platform) :
  ad this = None ->
  isEmptyString (PStr s) = false ->
  (isEmptyString (row_status (row this)) = true ->
     syncStatus (PStr s) this p = Throw "Invalid ad object.")
  /\ (isEmptyString (row_status (row this)) = false ->
      (row_status (row this) = PStr (toLowerCase (trim s)) ->
         syncStatus (PStr s) this p = Ok (true, this, p))
      /\ (row_status (row this) <> PStr (toLowerCase (trim s)) ->
          (isEmptyString (row_adGroupId (row this))
           || isEmptyString (row_id (row this)) = true ->
             syncStatus (PStr s) this p = Throw "Invalid Ad instance.")
          /\ (isEmptyString (row_adGroupId (row this))
              || isEmptyString (row_id (row this)) = false ->
              (withIds p (row_adGroupId (row this)) (row_id (row this)) = None ->
                 syncStatus (PStr s) this p = Ok (false, this, p))
              /\ (forall h,
                    withIds p (row_adGroupId (row this)) (row_id (row this))
                    = Some h ->
                    exists ok p',
                      syncStatus (PStr s) this p
                      = Ok (ok, {| row := row this; ad := Some h |}, p'))))).
Proof.
  intros Had Hs. unfold syncStatus. rewrite Hs.
  unfold getStatus, hasAdWordsAppAd. rewrite Had. cbn [negb].
  split.
  - intros Hb. by rewrite Hb.
  - intros Hb. rewrite Hb. cbn [negb mbind result_bind]. unfold strict_eq. split.
    + intros Hrow. by rewrite bool_decide_eq_true_2.
    + intros Hrow. rewrite bool_decide_eq_false_2 by done.
      unfold getAd. split.
      * intros Hids. by rewrite Hids.
      * intros Hids. rewrite Hids. split.
        -- intros Hnone. by rewrite Hnone.
        -- intros h Hh. rewrite Hh. cbn [mbind result_bind negb].
           destruct (syncStatus_try (toLowerCase (trim s))
                       {| row := row this; ad := Some h |} p) as [ok p'].
           by exists ok, p'.
Qed.

End StatusSyncSafety.

Section StatusSyncSafetyExamples.

(** Enabling the paused ad 10 carries out one mutation; the enabled ad 11
    is still there. *)
Lemma syncStatus_safe_witness :
  exists p',
    Script.syncStatus (PStr " Enabled") Examples.pausedAd Examples.examplePlatform
    = Ok (true, Examples.pausedAd, p')
    /\ Script.withIds p' = Script.withIds Examples.examplePlatform
    /\ (Script.mutations p' = Script.mutations Examples.examplePlatform
        \/ exists h, Script.ad Examples.pausedAd = Some h /\ true = true
                     /\ (Script.mutations p'
                         = Script.mutations Examples.examplePlatform ++ [Script.Enable h]
                         \/ Script.mutations p'
                            = Script.mutations Examples.examplePlatform
                              ++ [Script.Pause h]))
    /\ exists a', Script.ads p' !! 2%nat = Some a'
                  /\ same_but_state Examples.enabledRemoteAd a'.
Proof.
  eexists. split; [reflexivity|].
  refine (let H := syncStatus_safe (PStr " Enabled") Examples.pausedAd _
                     Examples.examplePlatform _ true eq_refl in _).
  destruct H as (_ & Hw & _ & Hm & _ & Hall).
  split; [exact Hw|]. split; [exact Hm|].
  apply (Hall 2%nat Examples.enabledRemoteAd). reflexivity.
Defined.

(** The report row says paused: pausing needs no lookup, and enabling finds
    no ad, as the selector of the example platform finds none. *)
Lemma syncStatus_unresolved_witness :
  Script.syncStatus (PStr "Paused") Examples.reportAd Examples.examplePlatform
  = Ok (true, Examples.reportAd, Examples.examplePlatform)
  /\ Script.syncStatus (PStr "enabled") Examples.reportAd Examples.examplePlatform
     = Ok (false, Examples.reportAd, Examples.examplePlatform).
Proof.
  destruct (syncStatus_unresolved "Paused" Examples.reportAd Examples.examplePlatform
              eq_refl eq_refl) as [_ Hsame].
  destruct (syncStatus_unresolved "enabled" Examples.reportAd Examples.examplePlatform
              eq_refl eq_refl) as [_ Hother].
  split.
  - apply Hsame; reflexivity.
  - apply Hother; [reflexivity | discriminate | reflexivity | reflexivity].
Defined.

End StatusSyncSafetyExamples.

(** ** The default label *)

Section DefaultLabel.

Import Script Helpers.

Variable JSON_parse : string -> option jsval.

(** X23. The labels to apply and the label diff. When the labels of a row
    are strings and the ad carries strings, the diff of the ad against the
    labels that [getLabelsToApply] returns never removes the default
    label; and when the default label has no leading or trailing white
    space, the ad carries it already or the diff adds it. *)
Theorem default_label_kept (defaultLabel : string) (st : rowState)
    (parsed current : list string) (this : Ad) (p : platform) :
  (getArray JSON_parse "labels" st).1 = Ok (map (fun n => Prim (PStr n)) parsed) ->
  getLabels JSON_parse this p = Ok (labels_array current) ->
  exists labels diff,
    (getLabelsToApply JSON_parse defaultLabel st).1 = Ok labels
    /\ diffLabels_ JSON_parse (Arr labels) this p = Ok diff
    /\ (defaultLabel ∉ remove diff)
    /\ (trim defaultLabel = defaultLabel ->
        defaultLabel ∈ current \/ defaultLabel ∈ add diff).
Proof.
  intros Hparsed Hcur.
  pose proof (getLabelsToApply_Ok JSON_parse defaultLabel st _ Hparsed) as Hlabels.
  rewrite has_label_elem_of in Hlabels.
  remember (if bool_decide (defaultLabel ∈ parsed)
            then map (fun n => Prim (PStr n)) parsed
            else map (fun n => Prim (PStr n)) parsed ++ [Prim (PStr defaultLabel)])
    as labels eqn:Heq.
  assert (exists target, labels = map (fun n => Prim (PStr n)) target
                         /\ defaultLabel ∈ target) as (target & -> & Hd).
  { destruct (decide (defaultLabel ∈ parsed)) as [Hin|Hnin].
    - rewrite bool_decide_eq_true_2 in Heq by done. by exists parsed.
    - rewrite bool_decide_eq_false_2 in Heq by done.
      exists (parsed ++ [defaultLabel]). split.
      + by rewrite Heq, map_app.
      + apply elem_of_app. right. by apply list_elem_of_singleton. }
  eexists _, _. split; [exact Hlabels|].
  split; [exact (diffLabels__eq JSON_parse this p current target Hcur)|].
  cbn [add remove]. split.
  - intros Hr. apply list_elem_of_filter in Hr as [Hr _]. by apply Hr.
  - intros Htrim. destruct (decide (defaultLabel ∈ current)) as [Hc|Hc]; [by left|].
    right. apply list_elem_of_filter. split; [done|].
    rewrite <- Htrim. by apply list_elem_of_fmap_2.
Qed.

End DefaultLabel.

Section DefaultLabelExamples.

(** The row asks for the label [Sale]; the enabled ad carries no label, and
    the diff adds the default label [ETA]. *)
Lemma default_label_kept_witness :
  exists labels diff,
    (Helpers.getLabelsToApply Examples.JSON_parse_literal "ETA" Examples.labelsRow).1
    = Ok labels
    /\ Script.diffLabels_ Examples.JSON_parse_literal (Arr labels) Examples.enabledAd
         Examples.examplePlatform = Ok diff
    /\ "ETA" ∈ Script.add diff.
Proof.
  destruct (default_label_kept Examples.JSON_parse_literal "ETA" Examples.labelsRow
              ["Sale"] [] Examples.enabledAd Examples.examplePlatform eq_refl eq_refl)
    as (labels & diff & Hlabels & Hdiff & _ & Hadd).
  exists labels, diff. split; [exact Hlabels|]. split; [exact Hdiff|].
  destruct (Hadd eq_refl) as [Hin|Hin]; [|exact Hin].
  by apply elem_of_nil in Hin.
Defined.

End DefaultLabelExamples.
